(** * Arieo package manager scripts: a shallow embedding and its properties

    The repository holds two independent command-line scripts:

    - [gather_packages.py], which copies the [ArieoPackage.yaml] descriptor
      of every local package listed in a manifest into a cache directory;
    - [build_packages_v2.py], which configures and builds every
      (preset, build type) pair with CMake.

    Both are embedded as functions over an explicit world: a file system
    (a finite map from locations to nodes) together with the lines the
    script printed, or the log of directories made and processes spawned.
    A path that the script has resolved names a location and is looked up
    as it stands; a path that it uses as written, with the [..] it may
    hold, is followed segment by segment as the operating system does.
    Python exceptions are results of their own, so that a run which dies
    with a traceback is told apart from one which returns. *)

From Stdlib Require Import ZArith Ascii String.
From stdpp Require Import base option list strings gmap.

Set Default Proof Using "Type".

(** ** Python strings *)

Module Py.

(** A character of a [string] stands for the code point of its number,
    so the texts of this model are those of code points below 256.
    [str.isspace] on these: tab, line feed, vertical tab, form feed,
    carriage return, the four separators 28..31, space, the next-line
    control 133 and the no-break space 160. *)
Definition isspace (a : ascii) : bool :=
  let n := nat_of_ascii a in
  ((9 <=? n)%nat && (n <=? 13)%nat) || ((28 <=? n)%nat && (n <=? 32)%nat)
  || (n =? 133)%nat || (n =? 160)%nat.

Fixpoint lstrip (s : string) : string :=
  match s with
  | String a s' => if isspace a then lstrip s' else s
  | EmptyString => EmptyString
  end.

(** The characters of a string, and back. *)
Fixpoint chars (s : string) : list ascii :=
  match s with
  | EmptyString => []
  | String a s' => a :: chars s'
  end.

Fixpoint of_chars (l : list ascii) : string :=
  match l with
  | [] => EmptyString
  | a :: l' => String a (of_chars l')
  end.

Definition reverse (s : string) : string := of_chars (rev (chars s)).

(** [s.strip()] *)
Definition strip (s : string) : string :=
  reverse (lstrip (reverse (lstrip s))).

(** [s.rstrip(c)] for a one-character argument. *)
Fixpoint lstrip_char (c : ascii) (s : string) : string :=
  match s with
  | String a s' => if Ascii.eqb a c then lstrip_char c s' else s
  | EmptyString => EmptyString
  end.

Definition rstrip_char (c : ascii) (s : string) : string :=
  reverse (lstrip_char c (reverse s)).

(** [s.split(c)] for a one-character separator: the pieces between the
    separators, empty pieces included; never the empty list. *)
Fixpoint split (c : ascii) (s : string) : list string :=
  match s with
  | EmptyString => [EmptyString]
  | String a s' =>
      if Ascii.eqb a c then EmptyString :: split c s'
      else match split c s' with
           | piece :: pieces => String a piece :: pieces
           | [] => [String a EmptyString]
           end
  end.

(** [s.startswith(p)] *)
Fixpoint startswith (p s : string) : bool :=
  match p, s with
  | EmptyString, _ => true
  | String a p', String b s' => Ascii.eqb a b && startswith p' s'
  | String _ _, EmptyString => false
  end.

(** [p in s] for strings: [p] occurs somewhere in [s]. *)
Fixpoint contains (p s : string) : bool :=
  startswith p s ||
  match s with
  | EmptyString => false
  | String _ s' => contains p s'
  end.

(** [s.replace(old, new)] for a non-empty [old]: occurrences are found
    from the left and do not overlap.  [skip] counts the characters of a
    match still to be dropped. *)
Fixpoint replace_from (old new : string) (skip : nat) (s : string) : string :=
  match s with
  | EmptyString => EmptyString
  | String a s' =>
      match skip with
      | S k => replace_from old new k s'
      | O =>
          if startswith old s
          then new +:+ replace_from old new (String.length old - 1) s'
          else String a (replace_from old new 0 s')
      end
  end.

Definition replace (old new s : string) : string := replace_from old new 0 s.

(** [sep.join(pieces)] *)
Fixpoint join (sep : string) (pieces : list string) : string :=
  match pieces with
  | [] => EmptyString
  | [p] => p
  | p :: rest => p +:+ sep +:+ join sep rest
  end.

(** [pieces[-1]] on a list of strings. *)
Definition last_piece (pieces : list string) : string :=
  List.last pieces EmptyString.

End Py.

(** ** Python values and exceptions *)

(** An absolute path: its segments from the root on, the root being the
    empty list.  A path that has been resolved has no [..] among them and
    names a location of the file system; a path put together with [/]
    keeps the [..] it was written with.  A root of exactly two slashes,
    which [pathlib] keeps apart from the root of one, is an empty first
    segment. *)
Abbreviation path := (list string).

Module Posix.

(** [str(p)] *)
Definition render (p : path) : string :=
  match p with
  | [""] => "//"
  | _ => "/" +:+ Py.join "/" p
  end.

(** The segments a path string is made of; empty segments and [.] are
    dropped as [pathlib] does when it parses a string. *)
Definition segments (s : string) : list string :=
  List.filter (λ x, negb (String.eqb x "") && negb (String.eqb x "."))
    (Py.split "/" s).

Definition is_absolute (s : string) : bool := Py.startswith "/" s.

(** A string that starts with exactly two slashes. *)
Definition two_slashes (s : string) : bool :=
  Py.startswith "//" s && negb (Py.startswith "///" s).

(** [str(Path(s))]: the string [s] as [pathlib] writes it back. *)
Definition normal (s : string) : string :=
  if two_slashes s then "//" +:+ Py.join "/" (segments s)
  else if is_absolute s then "/" +:+ Py.join "/" (segments s)
  else match segments s with
       | [] => "."
       | segs => Py.join "/" segs
       end.

(** [base / s]: an absolute [s] replaces [base], and every [..] stays
    where it is written. *)
Definition div (base : path) (s : string) : path :=
  (if two_slashes s then [""] else if is_absolute s then [] else base)
  ++ segments s.

(** One segment further from the location [here]: [..] leads to the
    parent, the root being its own parent, and an empty segment leads
    nowhere. *)
Definition step (here : path) (seg : string) : path :=
  if String.eqb seg ".." then removelast here
  else if String.eqb seg "" then here
  else here ++ [seg].

(** The location the segments lead to.  There are no symbolic links in
    this model, so this is what [Path.resolve] makes of them. *)
Fixpoint walk (here : path) (segs : list string) : path :=
  match segs with
  | [] => here
  | seg :: rest => walk (step here seg) rest
  end.

(** [(base / s).resolve()] for a resolved [base]; with the current
    directory as [base] this is [Path(s).resolve()]. *)
Definition resolve (base : path) (s : string) : path :=
  walk (if is_absolute s then [] else base) (segments s).

(** [p.relative_to(base)]: the segments are compared as they are
    written. *)
Definition relative_to (p base : path) : option path :=
  if bool_decide (base `prefix_of` p) then Some (drop (length base) p)
  else None.

(** [p.parent] *)
Definition parent (p : path) : path := removelast p.

(** [p.name] *)
Definition name (p : path) : string := List.last p "".

End Posix.

Module Exn.

Inductive oserror :=
| FileNotFoundError
| FileExistsError
| NotADirectoryError
| IsADirectoryError.

(** The exceptions the two scripts can meet.  [SystemExit] is what
    [sys.exit] raises; it is not an [Exception], so [except Exception]
    lets it through. *)
Inductive t :=
| TypeError
| AttributeError
| KeyError
| ValueError
| OSError (kind : oserror) (filename : string)
| SameFileError (src dst : path)
| YAMLError (msg : string)
| SystemExit (code : Z).

Definition is_Exception (e : t) : bool :=
  match e with
  | SystemExit _ => false
  | _ => true
  end.

Definition is_YAMLError (e : t) : bool :=
  match e with
  | YAMLError _ => true
  | _ => false
  end.

Definition strerror (k : oserror) : string :=
  match k with
  | FileNotFoundError => "[Errno 2] No such file or directory"
  | FileExistsError => "[Errno 17] File exists"
  | NotADirectoryError => "[Errno 20] Not a directory"
  | IsADirectoryError => "[Errno 21] Is a directory"
  end.

(** [str(e)] *)
Definition str (e : t) : string :=
  match e with
  | TypeError => "TypeError"
  | AttributeError => "AttributeError"
  | KeyError => "KeyError"
  | ValueError => "ValueError"
  | OSError k filename => strerror k +:+ ": '" +:+ filename +:+ "'"
  | SameFileError src dst =>
      "PosixPath('" +:+ Posix.render src +:+ "') and PosixPath('"
      +:+ Posix.render dst +:+ "') are the same file"
  | YAMLError msg => msg
  | SystemExit code => ""
  end.

End Exn.

(** What evaluating a Python expression or statement comes to. *)
Inductive result (A : Type) :=
| Ok (a : A)
| Raise (e : Exn.t).
Arguments Ok {A} a.
Arguments Raise {A} e.

Module Value.

(** The objects [yaml.safe_load] builds: [None], booleans, integers,
    strings, lists and dicts. *)
#[warnings="-register-all"]
Inductive t :=
| PNone
| PBool (b : bool)
| PInt (n : Z)
| PStr (s : string)
| PList (items : list t)
| PDict (items : list (t * t)).

(** A dict with its items in insertion order. *)
Definition dict := list (t * t).

(** [type(v).__name__] *)
Definition type_name (v : t) : string :=
  match v with
  | PNone => "NoneType"
  | PBool _ => "bool"
  | PInt _ => "int"
  | PStr _ => "str"
  | PList _ => "list"
  | PDict _ => "dict"
  end.

(** [bool(v)] *)
Definition truthy (v : t) : bool :=
  match v with
  | PNone => false
  | PBool b => b
  | PInt n => negb (n =? 0)%Z
  | PStr s => negb (String.eqb s "")
  | PList items => match items with [] => false | _ => true end
  | PDict items => match items with [] => false | _ => true end
  end.

(** [isinstance(v, str)] *)
Definition isinstance_str (v : t) : bool :=
  match v with
  | PStr _ => true
  | _ => false
  end.

(** [v == k] for a string [k]. *)
Definition is_str (k : string) (v : t) : bool :=
  match v with
  | PStr s => String.eqb s k
  | _ => false
  end.

(** [k in d] *)
Definition has_key (k : string) (d : dict) : bool :=
  existsb (λ kv, is_str k kv.1) d.

(** [d[k]], [None] standing for [KeyError]. *)
Fixpoint lookup (k : string) (d : dict) : option t :=
  match d with
  | [] => None
  | (k', v) :: d' => if is_str k k' then Some v else lookup k d'
  end.

(** [d.get(k, fallback)] *)
Definition get (k : string) (fallback : t) (d : dict) : t :=
  default fallback (lookup k d).

(** [d[k] = v] *)
Fixpoint set_item (k : string) (v : t) (d : dict) : dict :=
  match d with
  | [] => [(PStr k, v)]
  | (k', v') :: d' =>
      if is_str k k' then (k', v) :: d' else (k', v') :: set_item k v d'
  end.

(** [k in v] for a string [k] and any object [v]. *)
Definition contains (k : string) (v : t) : result bool :=
  match v with
  | PDict items => Ok (has_key k items)
  | PList items => Ok (existsb (is_str k) items)
  | PStr s => Ok (Py.contains k s)
  | _ => Raise Exn.TypeError
  end.

(** [v[k]] for a string [k] and any object [v]. *)
Definition subscript (v : t) (k : string) : result t :=
  match v with
  | PDict items =>
      match lookup k items with
      | Some x => Ok x
      | None => Raise Exn.KeyError
      end
  | _ => Raise Exn.TypeError
  end.

(** The receiver of a [str] method such as [replace] or [split]. *)
Definition str_receiver (v : t) : result string :=
  match v with
  | PStr s => Ok s
  | _ => Raise Exn.AttributeError
  end.

(** [len(v)] *)
Definition len (v : t) : result nat :=
  match v with
  | PStr s => Ok (String.length s)
  | PList items => Ok (length items)
  | PDict items => Ok (length items)
  | _ => Raise Exn.TypeError
  end.

(** What [for x in v] goes through. *)
Definition iter (v : t) : result (list t) :=
  match v with
  | PStr s => Ok (map (λ a, PStr (String a EmptyString)) (Py.chars s))
  | PList items => Ok items
  | PDict items => Ok (map fst items)
  | _ => Raise Exn.TypeError
  end.

End Value.

(** ** The file system *)

Module Fs.

Inductive node :=
| File (content : string)
| Dir.

(** What is at the location [p]; the root is always there. *)
Definition stat (fs : gmap path node) (p : path) : option node :=
  match p with
  | [] => Some Dir
  | _ => fs !! p
  end.

(** [p.exists()] for a resolved path [p] *)
Definition exists_ (fs : gmap path node) (p : path) : bool :=
  bool_decide (is_Some (stat fs p)).

(** Where a path as written leads. *)
Inductive place :=
| Reached (loc : path)
| Failed (kind : Exn.oserror).

(** The operating system follows the segments one by one from the
    location [here]; each one but the last must lead to a directory. *)
Fixpoint follow (fs : gmap path node) (here : path) (segs : list string)
  : place :=
  match segs with
  | [] => Reached here
  | seg :: rest =>
      let next := Posix.step here seg in
      match rest with
      | [] => Reached next
      | _ :: _ =>
          match stat fs next with
          | Some Dir => follow fs next rest
          | Some (File _) => Failed Exn.NotADirectoryError
          | None => Failed Exn.FileNotFoundError
          end
      end
  end.

(** What is at the end of the segments, followed from [here]. *)
Definition find (fs : gmap path node) (here : path) (segs : list string)
  : option node :=
  match follow fs here segs with
  | Reached loc => stat fs loc
  | Failed _ => None
  end.

(** [p.mkdir(parents=True, exist_ok=True)].  [pathlib] asks the operating
    system for the directory [p]; told that a directory on the way is
    missing, it makes the parent in the same manner and asks again, so
    that from the first missing directory on the path is made segment by
    segment ([again]).  A file in the way is an error: of the whole path
    as long as nothing was missing, of the path up to the file
    afterwards.  [seen] holds the segments gone through, as written. *)
Fixpoint mkdir_from (again : bool) (seen here : path) (segs : list string)
    (fs : gmap path node) : result unit * gmap path node :=
  match segs with
  | [] => (Ok (), fs)
  | seg :: rest =>
      if String.eqb seg ".." || String.eqb seg ""
      then mkdir_from again (seen ++ [seg]) (Posix.step here seg) rest fs
      else
        let p := here ++ [seg] in
        match fs !! p with
        | Some (File _) =>
            (Raise
               (if again
                then Exn.OSError Exn.FileExistsError
                       (Posix.render (seen ++ [seg]))
                else Exn.OSError
                       (match rest with
                        | [] => Exn.FileExistsError
                        | _ => Exn.NotADirectoryError
                        end) (Posix.render (seen ++ seg :: rest))), fs)
        | Some Dir => mkdir_from again (seen ++ [seg]) p rest fs
        | None =>
            mkdir_from (again || match rest with [] => false | _ => true end)
              (seen ++ [seg]) p rest (<[p := Dir]> fs)
        end
  end.

Definition mkdir_parents (p : path) (fs : gmap path node)
  : result unit * gmap path node :=
  mkdir_from false [] [] p fs.

(** [shutil.rmtree(p)] for a resolved path [p]: the directory goes with
    all that is below. *)
Definition rmtree (p : path) (fs : gmap path node)
  : result unit * gmap path node :=
  match stat fs p with
  | Some Dir => (Ok (), filter (λ kv, ¬ p `prefix_of` kv.1) fs)
  | Some (File _) =>
      (Raise (Exn.OSError Exn.NotADirectoryError (Posix.render p)), fs)
  | None => (Raise (Exn.OSError Exn.FileNotFoundError (Posix.render p)), fs)
  end.

(** [open(filename, 'r').read()], the file being looked for at the
    location [p]. *)
Definition read_as (filename : string) (p : path) (fs : gmap path node)
  : result string :=
  match stat fs p with
  | Some (File content) => Ok content
  | Some Dir => Raise (Exn.OSError Exn.IsADirectoryError filename)
  | None => Raise (Exn.OSError Exn.FileNotFoundError filename)
  end.

(** [open(p, 'r').read()] for a resolved path [p] *)
Definition read_text (p : path) (fs : gmap path node) : result string :=
  read_as (Posix.render p) p fs.

(** [shutil.copy2(src, dst)] for a resolved [src] and a [dst] as
    written: a directory [dst] stands for the file of the same name
    inside it; copying a file onto itself is refused; the file at the
    destination is created or overwritten, in a directory that must be
    there. *)
Definition copy2 (src dst : path) (fs : gmap path node)
  : result unit * gmap path node :=
  match follow fs [] dst with
  | Failed kind =>
      match stat fs src with
      | None =>
          (Raise (Exn.OSError Exn.FileNotFoundError (Posix.render src)), fs)
      | Some Dir =>
          (Raise (Exn.OSError Exn.IsADirectoryError (Posix.render src)), fs)
      | Some (File _) => (Raise (Exn.OSError kind (Posix.render dst)), fs)
      end
  | Reached loc =>
      let '(dst, loc) :=
        match stat fs loc with
        | Some Dir => (dst ++ [Posix.name src], loc ++ [Posix.name src])
        | _ => (dst, loc)
        end in
      if bool_decide (src = loc) && exists_ fs src
      then (Raise (Exn.SameFileError src dst), fs)
      else
        match stat fs src with
        | None =>
            (Raise (Exn.OSError Exn.FileNotFoundError (Posix.render src)),
             fs)
        | Some Dir =>
            (Raise (Exn.OSError Exn.IsADirectoryError (Posix.render src)),
             fs)
        | Some (File content) =>
            match stat fs loc with
            | Some Dir =>
                (Raise (Exn.OSError Exn.IsADirectoryError (Posix.render dst)),
                 fs)
            | _ => (Ok (), <[loc := File content]> fs)
            end
        end
  end.

End Fs.

(** ** Runs: a state and a result *)

Module Run.

Definition t (S A : Type) : Type := S → result A * S.

Definition ret {S A} (a : A) : t S A := λ w, (Ok a, w).

Definition raise {S A} (e : Exn.t) : t S A := λ w, (Raise e, w).

Definition bind {S A B} (m : t S A) (k : A → t S B) : t S B :=
  λ w,
    match m w with
    | (Ok a, w') => k a w'
    | (Raise e, w') => (Raise e, w')
    end.

(** A result that needs no state. *)
Definition lift {S A} (r : result A) : t S A := λ w, (r, w).

(** [try: body  except: handler] *)
Definition try {S A} (body : t S A) (handler : Exn.t → t S A) : t S A :=
  λ w,
    match body w with
    | (Ok a, w') => (Ok a, w')
    | (Raise e, w') => handler e w'
    end.

(** [if b: m] *)
Definition when {S} (b : bool) (m : t S ()) : t S () :=
  if b then m else ret ().

End Run.

Notation "'let*' x ':=' m 'in' k" := (Run.bind m (λ x, k))
  (at level 10, x pattern, m at level 100, k at level 200,
   format "'[v' 'let*'  x  ':='  m  'in' '/' k ']'").

Notation "m '>>' k" := (Run.bind m (λ _, k))
  (at level 100, k at level 200, right associativity,
   format "'[v' m  '>>' '/' k ']'").

(** ** gather_packages.py *)

(** What the gatherer depends on besides the file system: the directory it
    is started in, the process environment as [os.path.expandvars] sees
    it, and PyYAML's [yaml.safe_load], which either builds an object or
    raises. *)
Class Host := {
  cwd : path;
  expandvars : string → string;
  safe_load : string → result Value.t;
}.

Module gather_packages.

(** One constructor for each [print] of the script, holding the values
    its message is formatted from. *)
Inductive line :=
| DefaultManifestNotFound
| ManifestNotFound (manifest_path : string)
| ManifestUnreadable (e : string)
| ValidYaml (file_name : string) (pkg_name : Value.t)
| NoPackagesDefined
| CleaningCache (cache_dir : path)
| ProcessingEntries (total : nat)
| SkippingGit (idx total : nat) (repo_name : string)
| UnknownEntryFormat (idx total : nat) (entry : Value.t)
| PackageFolderNotFound (idx total : nat) (package_path : path)
| DescriptorNotFound (idx total : nat) (package_path : path)
| InvalidYaml (idx total : nat) (error_msg : option string)
| Gathered (idx total : nat) (pkg_name : string) (shown : option path)
| Rule
| ResultsHeader
| CopiedLine (copied_count : nat)
| SkippedLine (skipped_count : nat)
| ErrorsLine (error_count : nat)
| Title
| ManifestDirectory (manifest_dir : path)
| CacheDirectory (cache_dir : path)
| GatheringComplete (count : nat) (cache_dir : path)
| NothingGathered.

Record world := World {
  files : gmap path Fs.node;
  printed : list line;
}.

Definition M := Run.t world.

Definition print (l : line) : M () :=
  λ w, (Ok (), World (files w) (printed w ++ [l])).

Definition path_exists (p : path) : M bool :=
  λ w, (Ok (Fs.exists_ (files w) p), w).

Definition read_text (p : path) : M string :=
  λ w, (Fs.read_text p (files w), w).

(** A file system operation run in the world. *)
Definition on_files (op : gmap path Fs.node → result () * gmap path Fs.node)
  : M () :=
  λ w, let '(r, fs) := op (files w) in (r, World fs (printed w)).

Section Script.
Context `{Host}.

(** [Path(s).resolve()] *)
Definition resolve (s : string) : path := Posix.resolve cwd s.

(** Where the operating system starts on the path [s]: at the root, or
    in the current directory when [s] is relative. *)
Definition start_of (s : string) : path :=
  if Posix.is_absolute s then [] else cwd.

(** What is at [Path(s)], the path as it is written. *)
Definition written_stat (fs : gmap path Fs.node) (s : string)
  : option Fs.node :=
  Fs.find fs (start_of s) (Posix.segments s).

(** [Path(s).exists()] *)
Definition written_exists (s : string) : M bool :=
  λ w, (Ok (bool_decide (is_Some (written_stat (files w) s))), w).

(** [open(Path(s), 'r').read()] *)
Definition read_written (s : string) : M string :=
  λ w,
    (match Fs.follow (files w) (start_of s) (Posix.segments s) with
     | Fs.Reached loc => Fs.read_as (Posix.normal s) loc (files w)
     | Fs.Failed kind => Raise (Exn.OSError kind (Posix.normal s))
     end, w).

(** [Path(s).parent.resolve()] *)
Definition parent_resolved (s : string) : path :=
  Posix.walk (start_of s) (removelast (Posix.segments s)).

(** [Path(v).resolve()] for any object [v]. *)
Definition resolve_value (v : Value.t) : result path :=
  match v with
  | Value.PStr s => Ok (resolve s)
  | _ => Raise Exn.TypeError
  end.

(** [yaml.safe_load(f) or {}], then [manifest['_manifest_dir'] = d]. *)
Definition with_manifest_dir (loaded : Value.t) (d : string)
  : result Value.dict :=
  match (if Value.truthy loaded then loaded else Value.PDict []) with
  | Value.PDict items =>
      Ok (Value.set_item "_manifest_dir" (Value.PStr d) items)
  | _ => Raise Exn.TypeError
  end.

(** The manifest path is held as the string it is made from: it is not
    resolved before the file is looked for and opened. *)
Definition load_manifest (manifest_file_path : option string)
  : M Value.dict :=
  let* manifest_path :=
    (if match manifest_file_path with
        | None => true
        | Some s => String.eqb s ""
        end
     then
       let yaml_path := "packages.manifest.yaml" in
       let* found := written_exists yaml_path in
       if found then Run.ret yaml_path
       else print DefaultManifestNotFound >> Run.raise (Exn.SystemExit 1)
     else
       let manifest_path := default "" manifest_file_path in
       let* found := written_exists manifest_path in
       if negb found
       then print (ManifestNotFound (Posix.normal manifest_path)) >>
            Run.raise (Exn.SystemExit 1)
       else Run.ret manifest_path) in
  Run.try
    (let* content := read_written manifest_path in
     let* loaded := Run.lift (safe_load content) in
     Run.lift (with_manifest_dir loaded
                 (Posix.render (parent_resolved manifest_path))))
    (λ e,
       if Exn.is_Exception e
       then print (ManifestUnreadable (Exn.str e)) >>
            Run.raise (Exn.SystemExit 1)
       else Run.raise e).

(** The three values [verify_yaml] returns. *)
Definition verdict : Type := bool * option Value.dict * option string.

Definition verify_yaml (yaml_path : path) (verbose : bool) : M verdict :=
  let* found := path_exists yaml_path in
  if negb found
  then Run.ret (false, None,
                Some ("File does not exist: " +:+ Posix.render yaml_path))
  else
    Run.try
      (let* content := read_text yaml_path in
       if String.eqb (Py.strip content) ""
       then Run.ret (false, None, Some "YAML file is empty")
       else
         let* data := Run.lift (safe_load content) in
         match data with
         | Value.PNone =>
             Run.ret (false, None,
                      Some "YAML file is empty or contains only comments")
         | Value.PDict items =>
             if negb (Value.has_key "name" items)
             then Run.ret (false, None,
                           Some "Missing required field: 'name'")
             else
               let* name := Run.lift (Value.subscript data "name") in
               if negb (Value.truthy name) || negb (Value.isinstance_str name)
               then Run.ret (false, None,
                             Some "Field 'name' must be a non-empty string")
               else
                 Run.when verbose
                   (print (ValidYaml (Posix.name yaml_path) name)) >>
                 Run.ret (true, Some items, None)
         | _ =>
             Run.ret (false, None,
                      Some ("YAML root must be a dictionary, got "
                            +:+ Value.type_name data))
         end)
      (λ e,
         if Exn.is_YAMLError e
         then Run.ret (false, None,
                       Some ("YAML syntax error: " +:+ Exn.str e))
         else if Exn.is_Exception e
         then Run.ret (false, None,
                       Some ("Error reading file: " +:+ Exn.str e))
         else Run.raise e).

Record counters := Counters {
  copied_count : nat;
  skipped_count : nat;
  error_count : nat;
}.

(** The name shown for a [git] entry:
    [git_url.split('@')[0].rstrip('/').split('/')[-1].replace('.git', '')] *)
Definition repo_name_of (git_url : string) : string :=
  let url_part := hd "" (Py.split "@" git_url) in
  Py.replace ".git" ""
    (Py.last_piece (Py.split "/" (Py.rstrip_char "/" url_part))).

(** The name as the specification words it: a trailing [@ref] is
    stripped, the last path segment of the rest is taken, and a
    trailing [.git] is stripped from that segment. *)
Definition repo_name_as_described (git_url : string) : string :=
  let pieces := Py.split "@" git_url in
  let url_part :=
    match pieces with
    | [_] => git_url
    | _ => Py.join "@" (removelast pieces)
    end in
  let segment := Py.last_piece (Py.split "/" url_part) in
  if Py.startswith "tig." (Py.reverse segment)
  then Py.reverse
         (Py.of_chars (drop 4 (Py.chars (Py.reverse segment))))
  else segment.

(** [cache_dir / pkg_name] for any object [pkg_name]. *)
Definition div_value (base : path) (v : Value.t) : result path :=
  match v with
  | Value.PStr s => Ok (Posix.div base s)
  | _ => Raise Exn.TypeError
  end.

(** [dest_path.relative_to(cache_dir)] *)
Definition relative_to (dest_path cache_dir : path) : result path :=
  match Posix.relative_to dest_path cache_dir with
  | Some shown => Ok shown
  | None => Raise Exn.ValueError
  end.

Definition name_string (v : Value.t) : string :=
  match v with
  | Value.PStr s => s
  | _ => ""
  end.

Definition errored (cs : counters) : counters :=
  Counters (copied_count cs) (skipped_count cs) (S (error_count cs)).

Definition skipped (cs : counters) : counters :=
  Counters (copied_count cs) (S (skipped_count cs)) (error_count cs).

Definition copied (cs : counters) : counters :=
  Counters (S (copied_count cs)) (skipped_count cs) (error_count cs).

(** The loop body from the point where [package_path] is known; each
    [continue] of the source is a branch that returns the counters. *)
Definition gather_local (cache_dir : path) (verbose : bool)
    (total : nat) (cs : counters) (idx : nat) (package_path : path)
  : M counters :=
  let* found := path_exists package_path in
  if negb found
  then print (PackageFolderNotFound idx total package_path) >>
       Run.ret (errored cs)
  else
    let arieo_yaml_path := Posix.div package_path "ArieoPackage.yaml" in
    let* found := path_exists arieo_yaml_path in
    if negb found
    then print (DescriptorNotFound idx total package_path) >>
         Run.ret (errored cs)
    else
      let* verdict := verify_yaml arieo_yaml_path false in
      let '(is_valid, pkg_data, error_msg) := verdict in
      if negb is_valid
      then print (InvalidYaml idx total error_msg) >> Run.ret (errored cs)
      else
        let* pkg_name :=
          Run.lift
            (match pkg_data with
             | Some data => Value.subscript (Value.PDict data) "name"
             | None => Raise Exn.TypeError
             end) in
        let* dest_folder := Run.lift (div_value cache_dir pkg_name) in
        on_files (Fs.mkdir_parents dest_folder) >>
        let dest_path := Posix.div dest_folder "ArieoPackage.yaml" in
        on_files (Fs.copy2 arieo_yaml_path dest_path) >>
        let cs := copied cs in
        (if verbose
         then
           let* shown := Run.lift (relative_to dest_path cache_dir) in
           print (Gathered idx total (name_string pkg_name) (Some shown))
         else print (Gathered idx total (name_string pkg_name) None)) >>
        Run.ret cs.

(** The package folder a [local] entry names: the variable
    [${CUR_MANIFEST_FILE_DIR}] and those of the environment are expanded
    and the path is resolved. *)
Definition package_path_of (manifest_dir : path) (local_path : string)
  : path :=
  let local_path :=
    Py.replace "${CUR_MANIFEST_FILE_DIR}" (Posix.render manifest_dir)
      local_path in
  let local_path := expandvars local_path in
  resolve local_path.

(** The body of the loop over the entries. *)
Definition process_entry (manifest_dir cache_dir : path) (verbose : bool)
    (total : nat) (cs : counters) (idx : nat) (entry : Value.t)
  : M counters :=
  let* is_local := Run.lift (Value.contains "local" entry) in
  if is_local
  then
    let* local_path := Run.lift (Value.subscript entry "local") in
    let* local_path := Run.lift (Value.str_receiver local_path) in
    let package_path := package_path_of manifest_dir local_path in
    gather_local cache_dir verbose total cs idx package_path
  else
    let* is_git := Run.lift (Value.contains "git" entry) in
    if is_git
    then
      let* git_url := Run.lift (Value.subscript entry "git") in
      let* git_url := Run.lift (Value.str_receiver git_url) in
      let repo_name := repo_name_of git_url in
      Run.when verbose (print (SkippingGit idx total repo_name)) >>
      Run.ret (skipped cs)
    else
      print (UnknownEntryFormat idx total entry) >> Run.ret (errored cs).

(** [for idx, entry in enumerate(entries, idx): body] *)
Fixpoint for_entries (body : counters → nat → Value.t → M counters)
    (idx : nat) (entries : list Value.t) (cs : counters) : M counters :=
  match entries with
  | [] => Run.ret cs
  | entry :: rest =>
      let* cs := body cs idx entry in
      for_entries body (S idx) rest cs
  end.

Definition gather_packages_from_manifest (manifest : Value.dict)
    (cache_dir : path) (clean verbose : bool) : M nat :=
  let* manifest_dir :=
    Run.lift
      (resolve_value
         (Value.get "_manifest_dir" (Value.PStr ".") manifest)) in
  let packages_list := Value.get "packages" (Value.PList []) manifest in
  if negb (Value.truthy packages_list)
  then print NoPackagesDefined >> Run.ret 0
  else
    let* found :=
      (if clean then path_exists cache_dir else Run.ret false) in
    (if clean && found
     then Run.when verbose (print (CleaningCache cache_dir)) >>
          on_files (Fs.rmtree cache_dir)
     else Run.ret ()) >>
    on_files (Fs.mkdir_parents cache_dir) >>
    let* total := Run.lift (Value.len packages_list) in
    print (ProcessingEntries total) >>
    let* entries := Run.lift (Value.iter packages_list) in
    let* cs :=
      for_entries (process_entry manifest_dir cache_dir verbose total)
        1 entries (Counters 0 0 0) in
    print Rule >>
    print ResultsHeader >>
    print (CopiedLine (copied_count cs)) >>
    print (SkippedLine (skipped_count cs)) >>
    print (ErrorsLine (error_count cs)) >>
    print Rule >>
    Run.ret (copied_count cs).

Record args := Args {
  manifest_file : option string;
  clean : bool;
  verbose : bool;
}.

(** The manifest directory and the cache directory [main] works out
    from the manifest before it gathers. *)
Definition cache_dir_of (manifest : Value.dict) : result (path * path) :=
  match resolve_value
          (Value.get "_manifest_dir" (Value.PStr ".") manifest) with
  | Raise e => Raise e
  | Ok manifest_dir =>
      let cache_folder_raw :=
        Value.get "pachages_cache_folder" (Value.PStr "./.cache")
          manifest in
      match Value.str_receiver cache_folder_raw with
      | Raise e => Raise e
      | Ok cache_folder_raw =>
          let cache_folder_expanded :=
            Py.replace "${CUR_MANIFEST_FILE_DIR}"
              (Posix.render manifest_dir) cache_folder_raw in
          let cache_folder_expanded := expandvars cache_folder_expanded in
          let cache_dir :=
            if negb (Posix.is_absolute cache_folder_expanded)
            then Posix.resolve manifest_dir cache_folder_expanded
            else resolve cache_folder_expanded in
          Ok (manifest_dir, cache_dir)
      end
  end.

Definition main (a : args) : M () :=
  print Title >>
  print Rule >>
  let* manifest := load_manifest (manifest_file a) in
  let* dirs := Run.lift (cache_dir_of manifest) in
  let '(manifest_dir, cache_dir) := dirs in
  Run.when (verbose a)
    (print (ManifestDirectory manifest_dir) >>
     print (CacheDirectory cache_dir)) >>
  let* count :=
    gather_packages_from_manifest manifest cache_dir (clean a)
      (verbose a) in
  print Rule >>
  (if (0 <? count)%nat
   then print (GatheringComplete count cache_dir)
   else print NothingGathered) >>
  print Rule >>
  Run.raise (Exn.SystemExit (if (0 <? count)%nat then 0 else 1)).

End Script.

(** The status the process ends with: the argument of [sys.exit], or 1
    when an exception reaches the top level. *)
Definition exit_status {A} (r : result A) : Z :=
  match r with
  | Ok _ => 0
  | Raise (Exn.SystemExit code) => code
  | Raise _ => 1
  end.

End gather_packages.

(** ** build_packages_v2.py *)

(** What the build driver runs on: the directory it is started in, and an
    outside world of type [Ext] in which directories are made and CMake is
    run.  Both may change that world at will; a spawned process comes back
    with a return code. *)
Class Machine (Ext : Type) := {
  start_dir : path;
  make_dirs : path → Ext → result () * Ext;
  subprocess_run : list string → Ext → result Z * Ext;
}.

Module build_packages_v2.

Inductive line :=
| Configuring (preset build_type packages_str : string)
| ConfigureFailed (preset build_type : string)
| Building (preset build_type packages_str : string)
| BuildFailed (preset build_type : string)
| AllBuildsCompleted.

(** What the driver did, in order. *)
Inductive effect :=
| Mkdir (build_dir : path)
| Spawn (cmd : list string) (returncode : Z)
| Print (l : line).

Record world (Ext : Type) := World {
  outside : Ext;
  log : list effect;
}.
Arguments World {Ext} outside log.
Arguments outside {Ext} w.
Arguments log {Ext} w.

(** How an iteration of the loops ends: it falls through to the next
    one, or [main] returns from inside it. *)
Inductive flow :=
| Next
| Return (code : Z).

Record args := Args {
  cmake : string;
  build_dir : option string;
  preset : list string;
  build_type : list string;
  package : list string;
}.

Section Script.
Context {Ext : Type} `{Machine Ext}.

Definition M := Run.t (world Ext).

Definition print (l : line) : M () :=
  λ w, (Ok (), World (outside w) (log w ++ [Print l])).

(** [build_dir.mkdir(parents=True, exist_ok=True)] *)
Definition mkdir (build_dir : path) : M () :=
  λ w,
    match make_dirs build_dir (outside w) with
    | (Ok _, ext) => (Ok (), World ext (log w ++ [Mkdir build_dir]))
    | (Raise e, ext) => (Raise e, World ext (log w))
    end.

(** [subprocess.run(cmd).returncode] *)
Definition run (cmd : list string) : M Z :=
  λ w,
    match subprocess_run cmd (outside w) with
    | (Ok returncode, ext) =>
        (Ok returncode, World ext (log w ++ [Spawn cmd returncode]))
    | (Raise e, ext) => (Raise e, World ext (log w))
    end.

Definition resolve (s : string) : path := Posix.resolve start_dir s.

(** [base_build_dir / f"{preset}" / f"{build_type}"] *)
Definition build_dir_of (base_build_dir : path) (preset build_type : string)
  : path :=
  Posix.div (Posix.div base_build_dir preset) build_type.

Definition configure_cmd (cmake_dir build_dir : path)
    (preset build_type : string) : list string :=
  ["cmake";
   "-G"; "Ninja";
   "-S"; Posix.render cmake_dir;
   "-B"; Posix.render build_dir;
   "-DCMAKE_BUILD_TYPE=" +:+ build_type;
   "-DARIEO_PRESET=" +:+ preset].

Definition build_cmd (build_dir : path) (packages : list string)
  : list string :=
  let build_cmd := ["cmake"; "--build"; Posix.render build_dir] in
  match packages with
  | [] => build_cmd
  | _ => build_cmd ++ (["--target"] ++ packages)
  end.

(** The body of the inner loop. *)
Definition build_pair (cmake_dir base_build_dir : path)
    (packages : list string) (packages_str : string)
    (preset build_type : string) : M flow :=
  let build_dir := build_dir_of base_build_dir preset build_type in
  mkdir build_dir >>
  print (Configuring preset build_type packages_str) >>
  let* returncode :=
    run (configure_cmd cmake_dir build_dir preset build_type) in
  if negb (returncode =? 0)%Z
  then print (ConfigureFailed preset build_type) >>
       Run.ret (Return returncode)
  else
    print (Building preset build_type packages_str) >>
    let* returncode := run (build_cmd build_dir packages) in
    if negb (returncode =? 0)%Z
    then print (BuildFailed preset build_type) >>
         Run.ret (Return returncode)
    else Run.ret Next.

(** [for x in xs: body], where the body may return from [main]. *)
Fixpoint for_each (body : string → M flow) (xs : list string) : M flow :=
  match xs with
  | [] => Run.ret Next
  | x :: rest =>
      let* fl := body x in
      match fl with
      | Next => for_each body rest
      | Return code => Run.ret (Return code)
      end
  end.

Definition main (a : args) : M Z :=
  let cmake_dir := resolve (cmake a) in
  let base_build_dir :=
    match build_dir a with
    | Some d => if String.eqb d "" then Posix.div cmake_dir "build"
                else resolve d
    | None => Posix.div cmake_dir "build"
    end in
  let presets :=
    match preset a with [] => ["default"] | _ => preset a end in
  let build_types :=
    match build_type a with [] => ["Release"] | _ => build_type a end in
  let packages := package a in
  let packages_str :=
    match packages with [] => "" | _ => Py.join ";" packages end in
  let* fl :=
    for_each
      (λ preset,
         for_each
           (λ build_type,
              build_pair cmake_dir base_build_dir packages packages_str
                preset build_type)
           build_types)
      presets in
  match fl with
  | Return code => Run.ret code
  | Next => print AllBuildsCompleted >> Run.ret 0%Z
  end.

End Script.

End build_packages_v2.

(** ** A small host to run the scripts on *)

Module Sample.

Definition str (s : string) : Value.t := Value.PStr s.

Definition mapping (items : list (string * Value.t)) : Value.t :=
  Value.PDict (map (λ kv, (Value.PStr kv.1, kv.2)) items).

(** The documents of the sample file system, and what PyYAML loads from
    each of them. *)
Definition documents : list (string * Value.t) :=
  [("name: core", mapping [("name", str "core")]);
   ("name: core  # fork", mapping [("name", str "core")]);
   ("name: core  # vendored", mapping [("name", str "core")]);
   ("name: render", mapping [("name", str "render")]);
   ("# nothing here yet", Value.PNone);
   ("version: 1", mapping [("version", Value.PInt 1)]);
   ("name: 123", mapping [("name", Value.PInt 123)]);
   ("packages: []", mapping [("packages", Value.PList [])]);
   ("pachages_cache_folder: ./.cache",
    mapping [("pachages_cache_folder", str "./.cache")]);
   ("packages: [{local: /src/core}, {git: 'https://example.org/x.git'}, {url: x}]",
    mapping [("packages",
              Value.PList [mapping [("local", str "/src/core")];
                           mapping [("git", str "https://example.org/x.git")];
                           mapping [("url", str "x")]])])].

Fixpoint assoc (s : string) (l : list (string * Value.t)) : option Value.t :=
  match l with
  | [] => None
  | (s', v) :: l' => if String.eqb s s' then Some v else assoc s l'
  end.

(** Any text outside the table is taken for a malformed document. *)
Definition load (s : string) : result Value.t :=
  match assoc s documents with
  | Some v => Ok v
  | None => Raise (Exn.YAMLError "could not parse the document")
  end.

(** No variable of the environment occurs in the sample paths. *)
#[export] Instance host : Host := {|
  cwd := ["work"];
  expandvars := λ s, s;
  safe_load := load;
|}.

Definition tree : gmap path Fs.node :=
  list_to_map
    [(["src"], Fs.Dir);
     (["src"; "core"], Fs.Dir);
     (["src"; "core"; "ArieoPackage.yaml"], Fs.File "name: core");
     (["src"; "fork"], Fs.Dir);
     (["src"; "fork"; "ArieoPackage.yaml"], Fs.File "name: core  # fork");
     (["src"; "vendored"], Fs.Dir);
     (["src"; "vendored"; "ArieoPackage.yaml"],
      Fs.File "name: core  # vendored");
     (["src"; "render"], Fs.Dir);
     (["src"; "render"; "ArieoPackage.yaml"], Fs.File "name: render");
     (["src"; "blank"], Fs.Dir);
     (["src"; "blank"; "ArieoPackage.yaml"], Fs.File "# nothing here yet");
     (["src"; "anonymous"], Fs.Dir);
     (["src"; "anonymous"; "ArieoPackage.yaml"], Fs.File "version: 1");
     (["src"; "numbered"], Fs.Dir);
     (["src"; "numbered"; "ArieoPackage.yaml"], Fs.File "name: 123");
     (["work"], Fs.Dir);
     (["work"; "packages.manifest.yaml"],
      Fs.File "packages: [{local: /src/core}, {git: 'https://example.org/x.git'}, {url: x}]");
     (["work"; "empty.manifest.yaml"], Fs.File "packages: []");
     (["work"; "bare.manifest.yaml"],
      Fs.File "pachages_cache_folder: ./.cache");
     (["work"; "broken.manifest.yaml"], Fs.File "packages: [")].

Definition start : gather_packages.world :=
  gather_packages.World tree [].

Definition local (p : string) : Value.t := mapping [("local", str p)].

Definition manifest_of (entries : list Value.t) : Value.dict :=
  [(str "packages", Value.PList entries); (str "_manifest_dir", str "/work")].

Definition cache : path := ["work"; ".cache"].

(** A machine on which every directory can be made and a process comes
    back with the code [returncode] gives for its command line. *)
Definition machine (returncode : list string → Z) : Machine () := {|
  start_dir := ["work"];
  make_dirs := λ _ ext, (Ok (), ext);
  subprocess_run := λ cmd ext, (Ok (returncode cmd), ext);
|}.

Definition all_pass (cmd : list string) : Z := 0.

Definition debug_fails (cmd : list string) : Z :=
  if bool_decide ("-DCMAKE_BUILD_TYPE=Debug" ∈ cmd) then 3 else 0.

Definition two_by_two : build_packages_v2.args :=
  build_packages_v2.Args "engine" None ["A"; "B"] ["Debug"; "Release"]
    ["core"; "render"].

Definition idle : build_packages_v2.world () :=
  build_packages_v2.World () [].

End Sample.

(** A host that also knows descriptors whose names are paths: an
    absolute one, one of two segments, and one that goes through [..];
    with a descriptor of white space that is no space below 128. *)
Module Stray.

Definition documents : list (string * Value.t) :=
  [("name: /opt/shared", Sample.mapping [("name", Sample.str "/opt/shared")]);
   ("name: group/core", Sample.mapping [("name", Sample.str "group/core")]);
   ("name: group/core  # fork",
    Sample.mapping [("name", Sample.str "group/core")]);
   ("name: tmp/../core", Sample.mapping [("name", Sample.str "tmp/../core")])].

Definition load (s : string) : result Value.t :=
  match Sample.assoc s documents with
  | Some v => Ok v
  | None => Sample.load s
  end.

Definition host : Host := {|
  cwd := ["work"];
  expandvars := λ s, s;
  safe_load := load;
|}.

(** A no-break space, a next-line control and a space. *)
Definition blank : string := String "160" (String "133" " ").

Definition tree : gmap path Fs.node :=
  list_to_map
    [(["src"; "stray"], Fs.Dir);
     (["src"; "stray"; "ArieoPackage.yaml"], Fs.File "name: /opt/shared");
     (["src"; "grouped"], Fs.Dir);
     (["src"; "grouped"; "ArieoPackage.yaml"], Fs.File "name: group/core");
     (["src"; "regrouped"], Fs.Dir);
     (["src"; "regrouped"; "ArieoPackage.yaml"],
      Fs.File "name: group/core  # fork");
     (["src"; "dotted"], Fs.Dir);
     (["src"; "dotted"; "ArieoPackage.yaml"], Fs.File "name: tmp/../core");
     (["src"; "hollow"], Fs.Dir);
     (["src"; "hollow"; "ArieoPackage.yaml"], Fs.File blank)]
  ∪ Sample.tree.

Definition start : gather_packages.world :=
  gather_packages.World tree [].

End Stray.

(** * Properties *)

(** Closed equations are settled by evaluation: each side is compared
    with the value both come to. *)
Ltac evaluates_to v := vm_cast_no_check (@eq_refl _ v).

Ltac by_evaluation :=
  lazymatch goal with
  | |- ?lhs = ?rhs =>
      let v := eval vm_compute in rhs in
      tryif constr_eq v rhs then evaluates_to v
      else (transitivity v; [evaluates_to v|symmetry; evaluates_to v])
  end.

(** A run that returns: only its result is evaluated, the world it
    leaves is the second component of the run. *)
Lemma run_returns {A S : Type} (x : result A * S) (a : A) :
  x.1 = Ok a → x = (Ok a, x.2).
Proof. destruct x as [r s]. cbn. by intros ->. Qed.

Ltac by_run :=
  lazymatch goal with
  | |- ?x = (Ok _, _) =>
      apply (run_returns x);
      lazymatch goal with
      | |- ?lhs = ?rhs =>
          let v := eval vm_compute in lhs in
          unify rhs v; evaluates_to v
      end
  end.

Import gather_packages.

(** ** Python values *)

Lemma has_key_lookup (k : string) (d : Value.dict) :
  Value.has_key k d = bool_decide (is_Some (Value.lookup k d)).
Proof.
  induction d as [|[k' v] d IH]; simpl; [done|].
  unfold Value.has_key in IH. simpl. by destruct (Value.is_str k k').
Qed.

Lemma has_key_false (k : string) (d : Value.dict) :
  Value.has_key k d = false ↔ Value.lookup k d = None.
Proof.
  rewrite has_key_lookup, bool_decide_eq_false, <- eq_None_not_Some. done.
Qed.

Lemma has_key_true (k : string) (d : Value.dict) :
  Value.has_key k d = true ↔ is_Some (Value.lookup k d).
Proof. rewrite has_key_lookup. apply bool_decide_eq_true. Qed.

Lemma valid_name_inv (name : Value.t) :
  negb (Value.truthy name) || negb (Value.isinstance_str name) = false →
  ∃ s, name = Value.PStr s ∧ s ≠ "".
Proof.
  destruct name as [| | |s| |]; simpl; rewrite ?orb_true_r; try done.
  rewrite orb_false_r, negb_involutive. intros Hs. exists s. split; [done|].
  intros ->. done.
Qed.

Lemma invalid_name (name : Value.t) :
  (∀ s, name = Value.PStr s → s = "") →
  negb (Value.truthy name) || negb (Value.isinstance_str name) = true.
Proof.
  intros Hs. destruct name as [| | |s| |]; simpl; rewrite ?orb_true_r; try done.
  rewrite (Hs s eq_refl). done.
Qed.

(** ** Facts about the file system *)

(** The locations [mkdir_from] looks at on its way from [here]. *)
Fixpoint chain (here : path) (segs : list string) : list path :=
  match segs with
  | [] => []
  | seg :: rest =>
      if String.eqb seg ".." || String.eqb seg ""
      then chain (Posix.step here seg) rest
      else (here ++ [seg]) :: chain (here ++ [seg]) rest
  end.

Definition is_file (n : option Fs.node) : Prop :=
  match n with
  | Some (Fs.File _) => True
  | _ => False
  end.

Lemma step_plain here seg :
  String.eqb seg ".." || String.eqb seg "" = false →
  Posix.step here seg = here ++ [seg].
Proof.
  unfold Posix.step. intros [-> ->]%orb_false_elim. done.
Qed.

Lemma removelast_prefix (here : path) : removelast here `prefix_of` here.
Proof.
  destruct (decide (here = [])) as [->|Hne]; [done|].
  exists [List.last here ""]. by apply app_removelast_last.
Qed.

Lemma step_back here seg :
  String.eqb seg ".." || String.eqb seg "" = true →
  Posix.step here seg `prefix_of` here.
Proof.
  unfold Posix.step. destruct (String.eqb seg "..").
  - intros _. apply removelast_prefix.
  - cbn. by intros ->.
Qed.

Lemma prefix_snoc (q here : path) seg :
  q `prefix_of` here ++ [seg] → q = here ++ [seg] ∨ q `prefix_of` here.
Proof.
  intros [k Hk]. destruct (decide (k = [])) as [->|Hk'].
  - left. by rewrite app_nil_r in Hk.
  - right. exists (removelast k).
    rewrite (app_removelast_last "" Hk'), app_assoc in Hk.
    by apply app_inj_tail in Hk as [Heq _].
Qed.

Lemma chain_nonempty here segs q : q ∈ chain here segs → q ≠ [].
Proof.
  revert here. induction segs as [|seg rest IH]; intros here; cbn.
  - by rewrite elem_of_nil.
  - destruct (String.eqb seg ".." || String.eqb seg ""); [apply IH|].
    rewrite elem_of_cons. intros [-> | Hq]; [by destruct here|eauto].
Qed.


(** Where the segments lead is a location looked at, or one the way
    started below. *)
Lemma walk_visits here segs :
  Posix.walk here segs ∈ chain here segs ∨
  Posix.walk here segs `prefix_of` here.
Proof.
  revert here. induction segs as [|seg rest IH]; intros here; cbn.
  - by right.
  - destruct (String.eqb seg ".." || String.eqb seg "") eqn:Hseg.
    + destruct (IH (Posix.step here seg)) as [Hin|Hpre]; [by left|right].
      etrans; [done|]. by apply step_back.
    + rewrite (step_plain _ _ Hseg).
      destruct (IH (here ++ [seg])) as [Hin|Hpre].
      * left. apply elem_of_cons. by right.
      * apply prefix_snoc in Hpre as [->|Hpre]; [left|by right].
        apply elem_of_cons. by left.
Qed.

Lemma mkdir_from_inv again seen here segs fs fs' :
  Fs.mkdir_from again seen here segs fs = (Ok (), fs') →
  (∀ q, q ∈ chain here segs → ¬ is_file (fs !! q)) ∧
  (∀ q, fs' !! q = if decide (q ∈ chain here segs) then Some Fs.Dir
                   else fs !! q).
Proof.
  revert again seen here fs.
  induction segs as [|seg rest IH]; intros again seen here fs; cbn.
  - intros [= <-]. split; [by intros q ?%elem_of_nil|].
    intros q. by rewrite decide_False by apply not_elem_of_nil.
  - destruct (String.eqb seg ".." || String.eqb seg ""); [apply IH|].
    destruct (fs !! (here ++ [seg])) as [[c|]|] eqn:Hp; [by intros [=]| |].
    + intros [Hfiles Hlook]%IH. split.
      * intros q [-> | Hq]%elem_of_cons; [rewrite Hp; cbn; tauto|].
        by apply Hfiles.
      * intros q. rewrite Hlook.
        destruct (decide (q ∈ chain (here ++ [seg]) rest)) as [Hq|Hq].
        -- rewrite decide_True; [done|]. apply elem_of_cons. by right.
        -- destruct (decide (q = here ++ [seg])) as [->|Hne].
           ++ rewrite decide_True; [done|]. apply elem_of_cons. by left.
           ++ rewrite decide_False; [done|].
              by intros [?|?]%elem_of_cons.
    + intros [Hfiles Hlook]%IH. split.
      * intros q [-> | Hq]%elem_of_cons; [rewrite Hp; cbn; tauto|].
        specialize (Hfiles q Hq).
        destruct (decide (q = here ++ [seg])) as [->|Hne];
          [rewrite Hp; cbn; tauto|].
        by rewrite lookup_insert_ne in Hfiles.
      * intros q. rewrite Hlook.
        destruct (decide (q ∈ chain (here ++ [seg]) rest)) as [Hq|Hq].
        -- rewrite decide_True; [done|]. apply elem_of_cons. by right.
        -- destruct (decide (q = here ++ [seg])) as [->|Hne].
           ++ rewrite decide_True; [|apply elem_of_cons; by left].
              by rewrite lookup_insert_eq.
           ++ rewrite decide_False by (by intros [?|?]%elem_of_cons).
              by rewrite lookup_insert_ne.
Qed.

Lemma mkdir_from_ok again seen here segs fs :
  (∀ q, q ∈ chain here segs → ¬ is_file (fs !! q)) →
  ∃ fs', Fs.mkdir_from again seen here segs fs = (Ok (), fs').
Proof.
  revert again seen here fs.
  induction segs as [|seg rest IH]; intros again seen here fs Hfiles; cbn.
  - by eexists.
  - cbn in Hfiles.
    destruct (String.eqb seg ".." || String.eqb seg ""); [by apply IH|].
    destruct (fs !! (here ++ [seg])) as [[c|]|] eqn:Hp.
    + destruct (Hfiles (here ++ [seg])); [apply elem_of_cons; by left|].
      by rewrite Hp.
    + apply IH. intros q Hq. apply Hfiles, elem_of_cons. by right.
    + apply IH. intros q Hq.
      destruct (decide (q = here ++ [seg])) as [->|Hne].
      * rewrite lookup_insert_eq. cbn. tauto.
      * rewrite lookup_insert_ne by done.
        apply Hfiles, elem_of_cons. by right.
Qed.

(** What a directory made with its parents comes to: no file was in the
    way, and the locations on the way are directories now. *)
Lemma mkdir_inv p fs fs' :
  Fs.mkdir_parents p fs = (Ok (), fs') →
  (∀ q, q ∈ chain [] p → ¬ is_file (fs !! q)) ∧
  (∀ q, fs' !! q = if decide (q ∈ chain [] p) then Some Fs.Dir
                   else fs !! q).
Proof. apply mkdir_from_inv. Qed.

Lemma mkdir_ok p fs :
  (∀ q, q ∈ chain [] p → ¬ is_file (fs !! q)) →
  ∃ fs', Fs.mkdir_parents p fs = (Ok (), fs').
Proof. apply mkdir_from_ok. Qed.

Lemma stat_lookup fs q : q ≠ [] → Fs.stat fs q = fs !! q.
Proof. by destruct q. Qed.

(** The folder is there once it has been made. *)
Lemma made_folder folder fs made :
  Fs.mkdir_parents folder fs = (Ok (), made) →
  Fs.stat made (Posix.walk [] folder) = Some Fs.Dir.
Proof.
  intros [_ Hlook]%mkdir_inv.
  destruct (walk_visits [] folder) as [Hin|Hpre].
  - rewrite stat_lookup by (by eapply chain_nonempty).
    by rewrite Hlook, decide_True.
  - by apply prefix_nil_inv in Hpre as ->.
Qed.

Lemma follow_cons fs here seg rest :
  rest ≠ [] →
  Fs.follow fs here (seg :: rest) =
    match Fs.stat fs (Posix.step here seg) with
    | Some Fs.Dir => Fs.follow fs (Posix.step here seg) rest
    | Some (Fs.File _) => Fs.Failed Exn.NotADirectoryError
    | None => Fs.Failed Exn.FileNotFoundError
    end.
Proof. by destruct rest. Qed.

(** A path whose directories are all there leads where its segments
    lead. *)
Lemma follow_last fs here segs last :
  (∀ q, q `prefix_of` here → Fs.stat fs q = Some Fs.Dir) →
  (∀ q, q ∈ chain here segs → fs !! q = Some Fs.Dir) →
  Fs.follow fs here (segs ++ [last])
    = Fs.Reached (Posix.step (Posix.walk here segs) last).
Proof.
  revert here. induction segs as [|seg rest IH]; intros here Hhere Hdirs;
    [done|].
  cbn [app Posix.walk]. rewrite follow_cons by (by destruct rest).
  cbn [chain] in Hdirs.
  destruct (String.eqb seg ".." || String.eqb seg "") eqn:Hseg.
  - pose proof (step_back here seg Hseg) as Hback.
    rewrite (Hhere _ Hback). apply IH; [|done].
    intros q Hq. apply Hhere. by etrans.
  - rewrite (step_plain _ _ Hseg).
    assert (Hnext : Fs.stat fs (here ++ [seg]) = Some Fs.Dir).
    { rewrite stat_lookup by (by destruct here).
      apply Hdirs, elem_of_cons. by left. }
    rewrite Hnext. apply IH.
    + intros q [->|Hq]%prefix_snoc; [done|by apply Hhere].
    + intros q Hq. apply Hdirs, elem_of_cons. by right.
Qed.

(** The descriptor in a folder that has been made is found in the
    location of the folder. *)
Lemma follow_made folder fs made :
  Fs.mkdir_parents folder fs = (Ok (), made) →
  Fs.follow made [] (folder ++ ["ArieoPackage.yaml"])
    = Fs.Reached (Posix.walk [] folder ++ ["ArieoPackage.yaml"]).
Proof.
  intros [_ Hlook]%mkdir_inv. apply follow_last.
  - by intros q ->%prefix_nil_inv.
  - intros q Hq. by rewrite Hlook, decide_True.
Qed.


(** A file system in which every entry lies in a directory. *)
Definition tree_like (fs : gmap path Fs.node) : Prop :=
  ∀ q, is_Some (fs !! q) → Fs.stat fs (removelast q) = Some Fs.Dir.

Lemma tree_like_above fs (q k : path) :
  tree_like fs → k ≠ [] → is_Some (fs !! (q ++ k)) →
  Fs.stat fs q = Some Fs.Dir.
Proof.
  intros Htree. induction k as [|seg k IH] using rev_ind; [done|].
  intros _ Hthere. apply Htree in Hthere.
  rewrite app_assoc, removelast_last in Hthere.
  destruct (decide (k = [])) as [->|Hk]; [by rewrite app_nil_r in Hthere|].
  apply IH; [done|]. rewrite <- stat_lookup by (by destruct q, k).
  by rewrite Hthere.
Qed.

(** In such a file system a path without [..] is found where it is
    written: following it comes to looking its location up, which is
    what the model does with a resolved path. *)
Lemma find_location fs here segs :
  tree_like fs →
  Forall (λ seg, seg ≠ ".." ∧ seg ≠ "") segs →
  Fs.find fs here segs = Fs.stat fs (here ++ segs).
Proof.
  intros Htree Hsegs. revert here.
  induction Hsegs as [|seg rest [Hup Hempty] _ IH]; intros here.
  - by rewrite app_nil_r.
  - assert (Hstep : Posix.step here seg = here ++ [seg]).
    { apply step_plain. apply String.eqb_neq in Hup, Hempty.
      by rewrite Hup, Hempty. }
    destruct (decide (rest = [])) as [->|Hrest].
    { unfold Fs.find. cbn. by rewrite Hstep. }
    specialize (IH (here ++ [seg])). unfold Fs.find in *.
    rewrite follow_cons, Hstep by done.
    rewrite <- app_assoc in IH. cbn [app] in IH.
    destruct (Fs.stat fs (here ++ [seg])) as [[c|]|] eqn:Hnext; [|done|].
    + destruct (Fs.stat fs (here ++ seg :: rest)) as [node|] eqn:Hthere;
        [|done].
      rewrite (cons_middle seg), app_assoc in Hthere.
      rewrite stat_lookup in Hthere by (by destruct here, rest).
      by rewrite (tree_like_above fs (here ++ [seg]) rest) in Hnext
        by (done || by rewrite Hthere).
    + destruct (Fs.stat fs (here ++ seg :: rest)) as [node|] eqn:Hthere;
        [|done].
      rewrite (cons_middle seg), app_assoc in Hthere.
      rewrite stat_lookup in Hthere by (by destruct here, rest).
      by rewrite (tree_like_above fs (here ++ [seg]) rest) in Hnext
        by (done || by rewrite Hthere).
Qed.

(** The location a copy is written to. *)
Definition target_of (fs : gmap path Fs.node) (src loc : path) : path :=
  match Fs.stat fs loc with
  | Some Fs.Dir => loc ++ [Posix.name src]
  | _ => loc
  end.

Lemma copy2_inv src dst fs fs' :
  Fs.copy2 src dst fs = (Ok (), fs') →
  ∃ content loc,
    Fs.follow fs [] dst = Fs.Reached loc ∧
    Fs.stat fs src = Some (Fs.File content) ∧
    src ≠ target_of fs src loc ∧
    Fs.stat fs (target_of fs src loc) ≠ Some Fs.Dir ∧
    fs' = <[target_of fs src loc := Fs.File content]> fs.
Proof.
  unfold Fs.copy2.
  destruct (Fs.follow fs [] dst) as [loc|kind].
  2:{ by destruct (Fs.stat fs src) as [[?|]|]. }
  intros Hcopy.
  enough (Hgoal : ∃ content,
    Fs.stat fs src = Some (Fs.File content) ∧
    src ≠ target_of fs src loc ∧
    Fs.stat fs (target_of fs src loc) ≠ Some Fs.Dir ∧
    fs' = <[target_of fs src loc := Fs.File content]> fs).
  { destruct Hgoal as (content & ?). by exists content, loc. }
  revert Hcopy. unfold target_of.
  destruct (Fs.stat fs loc) as [[c|]|] eqn:Hloc; cbn beta iota zeta;
    (destruct (bool_decide (src = _) && Fs.exists_ fs src) eqn:Hsame;
       [done|]);
    (destruct (Fs.stat fs src) as [[content|]|] eqn:Hsrc; [|done|done]);
    (assert (Hexists : Fs.exists_ fs src = true)
       by (unfold Fs.exists_; rewrite Hsrc; by apply bool_decide_eq_true_2));
    rewrite Hexists, andb_true_r in Hsame;
    apply bool_decide_eq_false in Hsame.
  - rewrite Hloc. intros [= <-]. by exists content.
  - destruct (Fs.stat fs (loc ++ [Posix.name src])) as [[c|]|] eqn:Ht.
    + intros [= <-]. by exists content.
    + done.
    + intros [= <-]. by exists content.
  - rewrite Hloc. intros [= <-]. by exists content.
Qed.


(** What is refused: a copy of a file onto itself. *)
Lemma copy2_same src dst fs content :
  Fs.follow fs [] dst = Fs.Reached src →
  Fs.stat fs src = Some (Fs.File content) →
  Fs.copy2 src dst fs = (Raise (Exn.SameFileError src dst), fs).
Proof.
  unfold Fs.copy2. intros -> Hsrc. rewrite Hsrc. cbn beta iota zeta.
  rewrite bool_decide_eq_true_2 by done. unfold Fs.exists_. rewrite Hsrc.
  by rewrite bool_decide_eq_true_2.
Qed.

(** A file system grows: directories stay directories and files stay
    files, with whatever content. *)
Definition grows (s b : gmap path Fs.node) : Prop :=
  ∀ q, (s !! q = Some Fs.Dir → b !! q = Some Fs.Dir) ∧
       (is_file (s !! q) → is_file (b !! q)).

Lemma grows_refl s : grows s s.
Proof. by intros q. Qed.

Lemma grows_trans s m b : grows s m → grows m b → grows s b.
Proof.
  intros Hsm Hmb q. destruct (Hsm q), (Hmb q). split; auto.
Qed.

Lemma grows_stat s b q :
  grows s b → Fs.stat s q = Some Fs.Dir → Fs.stat b q = Some Fs.Dir.
Proof. intros Hgrows. destruct q; [done|]. apply Hgrows. Qed.

Lemma mkdir_grows p fs fs' :
  Fs.mkdir_parents p fs = (Ok (), fs') → grows fs fs'.
Proof.
  intros [Hfiles Hlook]%mkdir_inv q. rewrite Hlook.
  destruct (decide (q ∈ chain [] p)) as [Hq|Hq]; [|done].
  split; [done|]. intros Hfile. by destruct (Hfiles q Hq).
Qed.

Lemma target_nonempty fs src loc :
  Fs.stat fs (target_of fs src loc) ≠ Some Fs.Dir → target_of fs src loc ≠ [].
Proof. intros Hstat Hnil. rewrite Hnil in Hstat. by destruct Hstat. Qed.

Lemma copy2_grows src dst fs fs' :
  Fs.copy2 src dst fs = (Ok (), fs') → grows fs fs'.
Proof.
  intros (content & loc & _ & Hsrc & Hne & Htarget & ->)%copy2_inv q.
  pose proof (target_nonempty _ _ _ Htarget) as Hnonempty.
  destruct (decide (q = target_of fs src loc)) as [->|Hq].
  - rewrite lookup_insert_eq. split; [|done].
    intros Hdir. destruct Htarget. by rewrite stat_lookup.
  - by rewrite lookup_insert_ne.
Qed.







Lemma div_descriptor (p : path) :
  Posix.div p "ArieoPackage.yaml" = p ++ ["ArieoPackage.yaml"].
Proof. reflexivity. Qed.


(** ** The gatherer *)

Section GathererFacts.
Context `{Host}.

(** *** [verify_yaml], case by case *)

Lemma verify_yaml_missing yaml_path verbose w :
  Fs.stat (files w) yaml_path = None →
  verify_yaml yaml_path verbose w =
    (Ok (false, None,
         Some ("File does not exist: " +:+ Posix.render yaml_path)), w).
Proof.
  intros Hstat. unfold verify_yaml, path_exists, Run.bind, Fs.exists_.
  rewrite Hstat. reflexivity.
Qed.

Lemma verify_yaml_directory yaml_path verbose w :
  Fs.stat (files w) yaml_path = Some Fs.Dir →
  verify_yaml yaml_path verbose w =
    (Ok (false, None,
         Some ("Error reading file: "
               +:+ Exn.str (Exn.OSError Exn.IsADirectoryError
                              (Posix.render yaml_path)))),
     w).
Proof.
  intros Hstat.
  unfold verify_yaml, path_exists, read_text, Run.bind, Run.try,
    Fs.exists_, Fs.read_text, Fs.read_as.
  rewrite Hstat. cbn. rewrite Hstat. reflexivity.
Qed.

Ltac read_file Hstat :=
  unfold verify_yaml, path_exists, read_text, Run.bind, Run.try,
    Fs.exists_, Fs.read_text, Fs.read_as;
  rewrite Hstat; cbn; rewrite Hstat; cbn.

Lemma verify_yaml_blank yaml_path verbose w content :
  Fs.stat (files w) yaml_path = Some (Fs.File content) →
  Py.strip content = "" →
  verify_yaml yaml_path verbose w =
    (Ok (false, None, Some "YAML file is empty"), w).
Proof. intros Hstat Hblank. read_file Hstat. rewrite Hblank. done. Qed.

Lemma verify_yaml_raises yaml_path verbose w content e :
  Fs.stat (files w) yaml_path = Some (Fs.File content) →
  Py.strip content ≠ "" →
  safe_load content = Raise e →
  verify_yaml yaml_path verbose w =
    (if Exn.is_YAMLError e
     then Run.ret (false, None, Some ("YAML syntax error: " +:+ Exn.str e))
     else if Exn.is_Exception e
     then Run.ret (false, None, Some ("Error reading file: " +:+ Exn.str e))
     else Run.raise e) w.
Proof.
  intros Hstat Hblank Hload. read_file Hstat.
  apply String.eqb_neq in Hblank. rewrite Hblank.
  unfold Run.lift. rewrite Hload. done.
Qed.

Lemma verify_yaml_loaded yaml_path verbose w content data :
  Fs.stat (files w) yaml_path = Some (Fs.File content) →
  Py.strip content ≠ "" →
  safe_load content = Ok data →
  verify_yaml yaml_path verbose w =
    match data with
    | Value.PNone =>
        (Ok (false, None,
             Some "YAML file is empty or contains only comments"), w)
    | Value.PDict items =>
        match Value.lookup "name" items with
        | None => (Ok (false, None, Some "Missing required field: 'name'"), w)
        | Some name =>
            if negb (Value.truthy name) || negb (Value.isinstance_str name)
            then (Ok (false, None,
                      Some "Field 'name' must be a non-empty string"), w)
            else (Ok (true, Some items, None),
                  if verbose
                  then World (files w)
                         (printed w
                          ++ [ValidYaml (Posix.name yaml_path) name])
                  else w)
        end
    | _ =>
        (Ok (false, None,
             Some ("YAML root must be a dictionary, got "
                   +:+ Value.type_name data)), w)
    end.
Proof.
  intros Hstat Hblank Hload. read_file Hstat.
  apply String.eqb_neq in Hblank. rewrite Hblank.
  unfold Run.lift. rewrite Hload.
  destruct data as [| | | | |items]; try done.
  rewrite has_key_lookup. cbn.
  destruct (Value.lookup "name" items) as [name|]; cbn; [|done].
  destruct (negb (Value.truthy name) || negb (Value.isinstance_str name));
    [done|].
  by destruct verbose.
Qed.

(** C2.  [verify_yaml] returns a triple that is either valid with the
    parsed mapping and no reason, or invalid with no data and a reason,
    and leaves the files alone.  It rejects in this order: a missing
    file, blank content, a YAML syntax error, an empty document (a file
    of comments only: reason "empty"), a root that is no mapping, a
    mapping without [name] (reason "Missing required field"), a [name]
    that is empty or no string, as in [name: 123] (reason "must be a
    non-empty string"); anything else is valid. *)
Theorem verify_yaml_order (yaml_path : path) (verbose : bool) (w : world)
    (Hload : ∀ s e, safe_load s = Raise e → Exn.is_Exception e = true) :
  let r := (verify_yaml yaml_path verbose w).1 in
  files (verify_yaml yaml_path verbose w).2 = files w ∧
  (∃ is_valid data reason,
      r = Ok (is_valid, data, reason) ∧
      (if is_valid then is_Some data ∧ reason = None
       else data = None ∧ is_Some reason)) ∧
  (Fs.stat (files w) yaml_path = None →
     r = Ok (false, None,
             Some ("File does not exist: " +:+ Posix.render yaml_path))) ∧
  (∀ content,
      Fs.stat (files w) yaml_path = Some (Fs.File content) →
      (Py.strip content = "" →
         r = Ok (false, None, Some "YAML file is empty")) ∧
      (Py.strip content ≠ "" →
         (∀ msg, safe_load content = Raise (Exn.YAMLError msg) →
            r = Ok (false, None, Some ("YAML syntax error: " +:+ msg))) ∧
         (safe_load content = Ok Value.PNone →
            r = Ok (false, None,
                    Some "YAML file is empty or contains only comments")) ∧
         (∀ data, safe_load content = Ok data →
            data ≠ Value.PNone → (∀ items, data ≠ Value.PDict items) →
            r = Ok (false, None,
                    Some ("YAML root must be a dictionary, got "
                          +:+ Value.type_name data))) ∧
         (∀ items, safe_load content = Ok (Value.PDict items) →
            (Value.lookup "name" items = None →
               r = Ok (false, None, Some "Missing required field: 'name'")) ∧
            (∀ name, Value.lookup "name" items = Some name →
               (∀ s, name = Value.PStr s → s = "") →
               r = Ok (false, None,
                       Some "Field 'name' must be a non-empty string")) ∧
            (∀ s, Value.lookup "name" items = Some (Value.PStr s) →
               s ≠ "" →
               r = Ok (true, Some items, None))))).
Proof.
  cbn zeta.
  destruct (Fs.stat (files w) yaml_path) as [[content|]|] eqn:Hstat.
  - (* a file *)
    assert (Hcases :
      Py.strip content = "" ∨
      Py.strip content ≠ "" ∧
      ((∃ e, safe_load content = Raise e) ∨
       (∃ data, safe_load content = Ok data))).
    { destruct (decide (Py.strip content = "")); [by left|right].
      split; [done|]. destruct (safe_load content); eauto. }
    destruct Hcases as [Hblank|[Hblank [[e He]|[data Hdata]]]].
    + rewrite (verify_yaml_blank _ _ _ _ Hstat Hblank). cbn.
      split; [done|]. split; [by eexists _, _, _|]. split; [done|].
      intros ? [= <-]. split; [done|]. intros; done.
    + rewrite (verify_yaml_raises _ _ _ _ _ Hstat Hblank He).
      pose proof (Hload _ _ He) as Hexc.
      split; [|split; [|split; [done|]]].
      * destruct (Exn.is_YAMLError e); [done|]. by rewrite Hexc.
      * destruct (Exn.is_YAMLError e); [by eexists _, _, _|].
        rewrite Hexc. by eexists _, _, _.
      * intros ? [= <-]. split; [done|]. intros _.
        split; [|split; [|split]].
        -- intros msg Hmsg. rewrite Hmsg in He. by injection He as <-.
        -- intros Hnone. by rewrite Hnone in He.
        -- intros data Hdata. by rewrite Hdata in He.
        -- intros items Hitems. by rewrite Hitems in He.
    + rewrite (verify_yaml_loaded _ _ _ _ _ Hstat Hblank Hdata).
      split; [|split; [|split; [done|]]].
      * destruct data as [| | | | |items]; try done.
        destruct (Value.lookup "name" items) as [name|]; [|done].
        destruct (negb _ || negb _); [done|]. by destruct verbose.
      * destruct data as [| | | | |items]; try by eexists _, _, _.
        destruct (Value.lookup "name" items) as [name|];
          [|by eexists _, _, _].
        destruct (negb _ || negb _); by eexists _, _, _.
      * intros ? [= <-]. split; [done|]. intros _.
        split; [|split; [|split]].
        -- intros msg Hmsg. by rewrite Hmsg in Hdata.
        -- intros Hnone. rewrite Hnone in Hdata. by injection Hdata as <-.
        -- intros data' Hdata' Hnn Hnd. rewrite Hdata' in Hdata.
           injection Hdata as <-.
           destruct data' as [| | | | |items]; try done.
           by destruct (Hnd items).
        -- intros items Hitems. rewrite Hitems in Hdata.
           injection Hdata as <-. split; [|split].
           ++ by intros ->.
           ++ intros name -> Hname. by rewrite (invalid_name _ Hname).
           ++ intros s -> Hs. cbn.
              destruct (String.eqb_spec s ""); done.
  - (* a directory *)
    rewrite (verify_yaml_directory _ _ _ Hstat). cbn.
    split; [done|]. split; [by eexists _, _, _|]. done.
  - (* nothing *)
    rewrite (verify_yaml_missing _ _ _ Hstat). cbn.
    split; [done|]. split; [by eexists _, _, _|]. done.
Qed.

(** *** [load_manifest] and the exit status of [main] *)

(** The path of the file [load_manifest] reads, as it is written. *)
Definition manifest_path_of (manifest_file_path : option string) : string :=
  match manifest_file_path with
  | Some s => if String.eqb s "" then "packages.manifest.yaml" else s
  | None => "packages.manifest.yaml"
  end.

(** What [load_manifest] prints before it exits. *)
Definition load_error (l : line) : Prop :=
  match l with
  | DefaultManifestNotFound | ManifestNotFound _ | ManifestUnreadable _ =>
      True
  | _ => False
  end.

Lemma load_manifest_cases manifest_file_path w :
  let manifest_path := manifest_path_of manifest_file_path in
  ∃ l, load_error l ∧ let lines := [l] in
    load_manifest manifest_file_path w =
      match written_stat (files w) manifest_path with
      | Some (Fs.File content) =>
          match safe_load content with
          | Ok loaded =>
              match with_manifest_dir loaded
                      (Posix.render (parent_resolved manifest_path)) with
              | Ok manifest => (Ok manifest, w)
              | Raise e =>
                  (Raise (Exn.SystemExit 1),
                   World (files w) (printed w ++ lines))
              end
          | Raise e =>
              if Exn.is_Exception e
              then (Raise (Exn.SystemExit 1),
                    World (files w) (printed w ++ lines))
              else (Raise e, w)
          end
      | _ => (Raise (Exn.SystemExit 1), World (files w) (printed w ++ lines))
      end.
Proof.
  cbn zeta.
  assert (Hpath : ∃ found_line, load_error found_line ∧
    load_manifest manifest_file_path w =
      Run.bind
        (let manifest_path := manifest_path_of manifest_file_path in
         let* found := written_exists manifest_path in
         if found then Run.ret manifest_path
         else print found_line >> Run.raise (Exn.SystemExit 1))
        (λ manifest_path,
           Run.try
             (let* content := read_written manifest_path in
              let* loaded := Run.lift (safe_load content) in
              Run.lift (with_manifest_dir loaded
                          (Posix.render (parent_resolved manifest_path))))
             (λ e,
                if Exn.is_Exception e
                then print (ManifestUnreadable (Exn.str e)) >>
                     Run.raise (Exn.SystemExit 1)
                else Run.raise e)) w).
  { unfold load_manifest, manifest_path_of.
    destruct manifest_file_path as [s|]; cbn.
    - destruct (String.eqb s ""); [by exists DefaultManifestNotFound|].
      exists (ManifestNotFound (Posix.normal s)). split; [done|].
      unfold Run.bind, written_exists. by destruct (bool_decide _).
    - by exists DefaultManifestNotFound. }
  destruct Hpath as (found_line & Hfound & ->).
  unfold Run.bind, Run.try, Run.lift, written_exists, read_written, print,
    Run.raise, written_stat, Fs.find, Fs.read_as.
  cbn [files printed].
  destruct (Fs.follow (files w) _ _) as [loc|kind] eqn:Hfollow;
    [|by exists found_line].
  destruct (Fs.stat (files w) loc) as [[content|]|] eqn:Hstat; cbn;
    rewrite ?Hfollow, ?Hstat; cbn.
  - destruct (safe_load content) as [loaded|e]; cbn.
    + destruct (with_manifest_dir loaded _) as [manifest|e] eqn:Hm; cbn.
      * by exists found_line.
      * assert (Exn.is_Exception e = true) as ->;
          [|by exists (ManifestUnreadable (Exn.str e))].
        unfold with_manifest_dir in Hm.
        by destruct (if Value.truthy loaded then loaded else _);
          simplify_eq.
    + destruct (Exn.is_Exception e);
        [by exists (ManifestUnreadable (Exn.str e))|by exists found_line].
  - by eexists (ManifestUnreadable _).
  - by exists found_line.
Qed.

(** C1.  When the manifest is missing, is no regular file, does not
    parse, or parses to something truthy that is no mapping, [main] exits
    with status 1 and has touched no file: it has only printed the
    banner and the error.  When the manifest loads and the gathering
    returns [count], the exit status is 0 for a positive [count] and 1
    for zero, whatever the number of errors. *)
Theorem main_exit_status (a : args) (w : world)
    (Hload : ∀ s e, safe_load s = Raise e → Exn.is_Exception e = true) :
  let manifest_path := manifest_path_of (manifest_file a) in
  let started := World (files w) (printed w ++ [Title; Rule]) in
  ((written_stat (files w) manifest_path = None ∨
    written_stat (files w) manifest_path = Some Fs.Dir ∨
    ∃ content,
      written_stat (files w) manifest_path = Some (Fs.File content) ∧
      ((∃ e, safe_load content = Raise e) ∨
       (∃ loaded, safe_load content = Ok loaded ∧
                  Value.truthy loaded = true ∧
                  ∀ items, loaded ≠ Value.PDict items))) →
   exit_status (main a w).1 = 1%Z ∧
   files (main a w).2 = files w ∧
   ∃ l, load_error l ∧ printed (main a w).2 = printed w ++ [Title; Rule; l]) ∧
  (∀ manifest w1 manifest_dir cache_dir count w2,
     load_manifest (manifest_file a) started = (Ok manifest, w1) →
     cache_dir_of manifest = Ok (manifest_dir, cache_dir) →
     gather_packages_from_manifest manifest cache_dir (clean a) (verbose a)
       (if verbose a
        then World (files w1)
               (printed w1 ++ [ManifestDirectory manifest_dir;
                               CacheDirectory cache_dir])
        else w1) = (Ok count, w2) →
     exit_status (main a w).1 = (if (0 <? count)%nat then 0 else 1)%Z).
Proof.
  cbn zeta. split.
  - intros Hbad.
    destruct (load_manifest_cases (manifest_file a)
                (World (files w) (printed w ++ [Title; Rule])))
      as (l & Hl & Hlm). cbn in Hlm.
    assert (Hfatal :
      load_manifest (manifest_file a)
        (World (files w) (printed w ++ [Title; Rule])) =
      (Raise (Exn.SystemExit 1),
       World (files w) ((printed w ++ [Title; Rule]) ++ [l]))).
    { rewrite Hlm.
      destruct Hbad as [->|[->|(content & -> & Hbad)]]; [done|done|].
      destruct Hbad as [[e He]|(loaded & Hloaded & Htrue & Hnd)].
      - rewrite He, (Hload _ _ He). done.
      - rewrite Hloaded. unfold with_manifest_dir. rewrite Htrue.
        destruct loaded; try done. by destruct (Hnd items). }
    assert (Hmain :
      main a w =
      (Raise (Exn.SystemExit 1),
       World (files w) ((printed w ++ [Title; Rule]) ++ [l]))).
    { unfold main, Run.bind at 1 2 3, print at 1 2. cbn.
      rewrite <- (app_assoc (printed w) [Title] [Rule]). cbn.
      by rewrite Hfatal. }
    rewrite Hmain. cbn. split; [done|]. split; [done|].
    exists l. split; [done|]. by rewrite <- app_assoc.
  - intros manifest w1 manifest_dir cache_dir count w2 Hlm Hdirs Hg.
    enough (Hmain : ∃ w3,
      main a w =
      (Raise (Exn.SystemExit (if (0 <? count)%nat then 0 else 1)), w3)).
    { destruct Hmain as [w3 ->]. cbn. by destruct (0 <? count)%nat. }
    unfold main, Run.bind at 1 2 3, print at 1 2. cbn.
    rewrite <- (app_assoc (printed w) [Title] [Rule]). cbn.
    rewrite Hlm, Hdirs. unfold Run.bind at 1.
    assert (Hverbose :
      Run.when (verbose a)
        (print (ManifestDirectory manifest_dir) >>
         print (CacheDirectory cache_dir)) w1 =
      (Ok (),
       if verbose a
       then World (files w1)
              (printed w1 ++ [ManifestDirectory manifest_dir;
                              CacheDirectory cache_dir])
       else w1)).
    { destruct (verbose a); cbn; [|done].
      unfold Run.bind, print. cbn. by rewrite <- app_assoc. }
    rewrite Hverbose. unfold Run.bind at 1. rewrite Hg.
    unfold Run.bind, print, Run.raise. cbn.
    destruct count; by eexists.
Qed.

(** *** The counters *)

Ltac run_unfold :=
  unfold Run.bind, Run.lift, Run.ret, Run.raise, Run.when, print,
    path_exists, on_files in *.

Lemma gather_local_counts cache_dir verbose total cs idx package_path w cs' w' :
  gather_local cache_dir verbose total cs idx package_path w = (Ok cs', w') →
  cs' = copied cs ∨ cs' = errored cs.
Proof.
  unfold gather_local. run_unfold. intros Hrun.
  repeat case_match; simplify_eq; auto.
Qed.

Lemma process_entry_counts manifest_dir cache_dir verbose total cs idx entry
    w cs' w' :
  process_entry manifest_dir cache_dir verbose total cs idx entry w
    = (Ok cs', w') →
  cs' = copied cs ∨ cs' = skipped cs ∨ cs' = errored cs.
Proof.
  unfold process_entry. unfold Run.bind at 1. unfold Run.lift at 1.
  destruct (Value.contains "local" entry) as [[|]|]; [| |done].
  - unfold Run.bind at 1 2, Run.lift at 1 2.
    destruct (Value.subscript entry "local") as [local_path|]; [|done].
    destruct (Value.str_receiver local_path) as [s|]; [|done].
    intros Hrun. apply gather_local_counts in Hrun. tauto.
  - run_unfold. intros Hrun. repeat case_match; simplify_eq; auto.
Qed.

Definition tally (cs : counters) : nat :=
  copied_count cs + skipped_count cs + error_count cs.

Lemma for_entries_tally manifest_dir cache_dir verbose total entries :
  ∀ idx cs w cs' w',
    for_entries (process_entry manifest_dir cache_dir verbose total)
      idx entries cs w = (Ok cs', w') →
    tally cs' = tally cs + length entries.
Proof.
  induction entries as [|entry rest IH]; intros idx cs w cs' w'; cbn.
  - intros [= <- <-]. lia.
  - unfold Run.bind at 1.
    destruct (process_entry _ _ _ _ cs idx entry w) as [[cs1|e] w1] eqn:Hstep;
      [|done].
    intros Hrest. apply IH in Hrest. rewrite Hrest.
    apply process_entry_counts in Hstep.
    destruct Hstep as [->|[->| ->]]; unfold tally; cbn; lia.
Qed.

(** The four lines and two rules the gatherer ends with. *)
Definition results (cs : counters) : list line :=
  [Rule; ResultsHeader; CopiedLine (copied_count cs);
   SkippedLine (skipped_count cs); ErrorsLine (error_count cs); Rule].

(** The clean step and the making of the cache directory. *)
Definition prepare (cache_dir : path) (clean verbose : bool) : M () :=
  let* found := (if clean then path_exists cache_dir else Run.ret false) in
  (if clean && found
   then Run.when verbose (print (CleaningCache cache_dir)) >>
        on_files (Fs.rmtree cache_dir)
   else Run.ret ()) >>
  on_files (Fs.mkdir_parents cache_dir).

(** A run over a non-empty list, taken apart. *)
Lemma gather_inv manifest cache_dir clean verbose w count w' :
  Value.truthy (Value.get "packages" (Value.PList []) manifest) = true →
  gather_packages_from_manifest manifest cache_dir clean verbose w
    = (Ok count, w') →
  ∃ manifest_dir entries w1 cs w2,
    resolve_value (Value.get "_manifest_dir" (Value.PStr ".") manifest)
      = Ok manifest_dir ∧
    Value.iter (Value.get "packages" (Value.PList []) manifest)
      = Ok entries ∧
    prepare cache_dir clean verbose w = (Ok (), w1) ∧
    for_entries
      (process_entry manifest_dir cache_dir verbose (length entries))
      1 entries (Counters 0 0 0)
      (World (files w1) (printed w1 ++ [ProcessingEntries (length entries)]))
      = (Ok cs, w2) ∧
    count = copied_count cs ∧
    w' = World (files w2) (printed w2 ++ results cs).
Proof.
  intros Htruthy. unfold gather_packages_from_manifest.
  unfold Run.bind at 1, Run.lift at 1.
  destruct (resolve_value _) as [manifest_dir|]; [|by cbn].
  rewrite Htruthy. cbn [negb].
  unfold Run.bind at 1.
  match goal with
  | |- (let (_, _) := ?m in _) = _ → _ =>
      destruct m as [[found|e] w0] eqn:Hfound; [|by cbn]
  end.
  unfold Run.bind at 1.
  match goal with
  | |- (let (_, _) := ?m in _) = _ → _ =>
      destruct m as [[[]|e] w0'] eqn:Hclean; [|by cbn]
  end.
  unfold Run.bind at 1.
  destruct (on_files (Fs.mkdir_parents cache_dir) w0')
    as [[[]|e] w1] eqn:Hmkdir; [|by cbn].
  unfold Run.bind at 1, Run.lift at 1.
  destruct (Value.len _) as [total|] eqn:Hlen; [|by cbn].
  unfold Run.bind at 1, print at 1. unfold Run.bind at 1, Run.lift at 1.
  destruct (Value.iter _) as [entries|] eqn:Hiter; [|by cbn].
  assert (total = length entries) as ->.
  { revert Hlen Hiter.
    destruct (Value.get "packages" _ manifest) as [| | |s| |];
      intros [= <-] [= <-]; rewrite ?length_map; try done.
    clear. induction s; cbn; congruence. }
  unfold Run.bind at 1.
  destruct (for_entries _ 1 entries _ _) as [[cs|e] w2] eqn:Hloop;
    [|by cbn].
  unfold Run.bind, print, Run.ret. cbn. intros [= <- <-].
  exists manifest_dir, entries, w1, cs, w2.
  split_and!; try done.
  - unfold prepare. unfold Run.bind at 1. rewrite Hfound.
    unfold Run.bind at 1. by rewrite Hclean.
  - unfold results. by rewrite <- !app_assoc.
Qed.

(** C10.  For a manifest with a non-empty [packages] list, the three
    counters printed at the end of a run add up to the number of
    entries, the returned count is the copied one, and every entry
    increments exactly one counter by one. *)
Theorem counters_partition manifest cache_dir clean verbose w count w'
    (Hsome :
       Value.truthy (Value.get "packages" (Value.PList []) manifest) = true)
    (Hrun :
       gather_packages_from_manifest manifest cache_dir clean verbose w
         = (Ok count, w')) :
  (∃ entries cs before,
      Value.iter (Value.get "packages" (Value.PList []) manifest)
        = Ok entries ∧
      printed w' = before ++ results cs ∧
      count = copied_count cs ∧
      copied_count cs + skipped_count cs + error_count cs = length entries) ∧
  (∀ manifest_dir total cs idx entry w1 cs' w2,
      process_entry manifest_dir cache_dir verbose total cs idx entry w1
        = (Ok cs', w2) →
      (cs' = Counters (S (copied_count cs)) (skipped_count cs) (error_count cs)
       ∨ cs' = Counters (copied_count cs) (S (skipped_count cs)) (error_count cs)
       ∨ cs' = Counters (copied_count cs) (skipped_count cs) (S (error_count cs)))).
Proof.
  split.
  - destruct (gather_inv _ _ _ _ _ _ _ Hsome Hrun)
      as (manifest_dir & entries & w1 & cs & w2 & _ & Hiter & _ & Hloop
          & -> & ->).
    exists entries, cs, (printed w2). split_and!; try done.
    apply for_entries_tally in Hloop. unfold tally in Hloop. cbn in Hloop.
    done.
  - intros manifest_dir total cs idx entry w1 cs' w2 Hstep.
    apply process_entry_counts in Hstep. done.
Qed.

(** *** A manifest without packages *)

(** C8.  With a [packages] list that is missing or empty the gathering
    prints one line and returns 0; the file system is the one it
    started with, also when [clean] is set. *)
Theorem no_packages_no_effect manifest cache_dir clean verbose w
    (Hdir : ∀ v, Value.lookup "_manifest_dir" manifest = Some v →
                 Value.isinstance_str v = true)
    (Hnone : Value.lookup "packages" manifest = None ∨
             Value.lookup "packages" manifest = Some (Value.PList [])) :
  gather_packages_from_manifest manifest cache_dir clean verbose w =
    (Ok 0, World (files w) (printed w ++ [NoPackagesDefined])).
Proof.
  unfold gather_packages_from_manifest, Value.get.
  assert (∃ manifest_dir,
    resolve_value (default (Value.PStr ".")
                     (Value.lookup "_manifest_dir" manifest))
      = Ok manifest_dir) as [manifest_dir Hmd].
  { destruct (Value.lookup "_manifest_dir" manifest) as [v|]; cbn.
    - specialize (Hdir v eq_refl). destruct v; try done. by eexists.
    - by eexists. }
  unfold Run.bind at 1, Run.lift at 1. rewrite Hmd.
  by destruct Hnone as [-> | ->].
Qed.

(** *** Entries tagged [git] *)

(** C7.  An entry that is a mapping with a [git] URL and no [local] tag
    increments the skipped counter only, and changes no file; the name
    derived from the URL is printed in verbose mode only. *)
Theorem git_entry_is_skipped manifest_dir cache_dir verbose total cs idx
    items url w
    (Hlocal : Value.lookup "local" items = None)
    (Hgit : Value.lookup "git" items = Some (Value.PStr url)) :
  process_entry manifest_dir cache_dir verbose total cs idx
    (Value.PDict items) w =
    (Ok (Counters (copied_count cs) (S (skipped_count cs)) (error_count cs)),
     World (files w)
       (printed w ++
        if verbose then [SkippingGit idx total (repo_name_of url)] else [])).
Proof.
  unfold process_entry. cbn.
  apply has_key_false in Hlocal.
  assert (Value.has_key "git" items = true) as Hhas.
  { apply has_key_true. by rewrite Hgit. }
  unfold Run.bind at 1, Run.lift at 1. rewrite Hlocal.
  unfold Run.bind at 1, Run.lift at 1. rewrite Hhas.
  unfold Run.bind, Run.lift. rewrite Hgit. cbn.
  destruct verbose; cbn; [done|].
  rewrite app_nil_r. by destruct w.
Qed.

(** *** Two runs in a row, and copies under one name *)


(** A descriptor [d] that passes [verify_yaml] and declares [name]. *)
Definition declares (d : string) (name : string) : Prop :=
  Py.strip d ≠ "" ∧
  ∃ items, safe_load d = Ok (Value.PDict items) ∧
           Value.lookup "name" items = Some (Value.PStr name) ∧
           name ≠ "".

Lemma verify_yaml_valid_inv yaml_path verbose w data msg w' :
  verify_yaml yaml_path verbose w = (Ok (true, Some data, msg), w') →
  ∃ d name,
    Fs.stat (files w) yaml_path = Some (Fs.File d) ∧
    Py.strip d ≠ "" ∧
    safe_load d = Ok (Value.PDict data) ∧
    Value.lookup "name" data = Some (Value.PStr name) ∧
    name ≠ "".
Proof.
  destruct (Fs.stat (files w) yaml_path) as [[d|]|] eqn:Hstat.
  - destruct (decide (Py.strip d = "")) as [Hblank|Hblank].
    { by rewrite (verify_yaml_blank _ _ _ _ Hstat Hblank). }
    destruct (safe_load d) as [loaded|e] eqn:Hload.
    + rewrite (verify_yaml_loaded _ _ _ _ _ Hstat Hblank Hload).
      destruct loaded as [| | | | |items]; try done.
      destruct (Value.lookup "name" items) as [name|] eqn:Hname; [|done].
      destruct (negb (Value.truthy name) || negb (Value.isinstance_str name))
        eqn:Hvalid; [done|].
      apply valid_name_inv in Hvalid as (s & -> & Hs).
      intros [= <- <-]. by exists d, s.
    + rewrite (verify_yaml_raises _ _ _ _ _ Hstat Hblank Hload).
      by destruct (Exn.is_YAMLError e), (Exn.is_Exception e).
  - by rewrite (verify_yaml_directory _ _ _ Hstat).
  - by rewrite (verify_yaml_missing _ _ _ Hstat).
Qed.

(** Without [verbose], [verify_yaml] leaves the world alone, and what it
    returns depends on nothing but what is at [yaml_path]. *)
Lemma verify_yaml_stat yaml_path s t r s' :
  Fs.stat (files t) yaml_path = Fs.stat (files s) yaml_path →
  verify_yaml yaml_path false s = (r, s') →
  s' = s ∧ verify_yaml yaml_path false t = (r, t).
Proof.
  intros Hview.
  destruct (Fs.stat (files s) yaml_path) as [[d|]|] eqn:Hstat.
  - destruct (decide (Py.strip d = "")) as [Hblank|Hblank].
    { rewrite (verify_yaml_blank _ _ _ _ Hstat Hblank),
        (verify_yaml_blank _ _ _ _ Hview Hblank). by intros [= <- <-]. }
    destruct (safe_load d) as [loaded|e] eqn:Hload.
    + rewrite (verify_yaml_loaded _ _ _ _ _ Hstat Hblank Hload),
        (verify_yaml_loaded _ _ _ _ _ Hview Hblank Hload).
      destruct loaded as [| | | | |items]; try by intros [= <- <-].
      destruct (Value.lookup "name" items) as [name|];
        [|by intros [= <- <-]].
      destruct (negb _ || negb _); by intros [= <- <-].
    + rewrite (verify_yaml_raises _ _ _ _ _ Hstat Hblank Hload),
        (verify_yaml_raises _ _ _ _ _ Hview Hblank Hload).
      destruct (Exn.is_YAMLError e), (Exn.is_Exception e);
        by intros [= <- <-].
  - rewrite (verify_yaml_directory _ _ _ Hstat),
      (verify_yaml_directory _ _ _ Hview). by intros [= <- <-].
  - rewrite (verify_yaml_missing _ _ _ Hstat),
      (verify_yaml_missing _ _ _ Hview). by intros [= <- <-].
Qed.

Lemma exists_stat fs (p : path) :
  Fs.exists_ fs p = match Fs.stat fs p with Some _ => true | None => false end.
Proof. unfold Fs.exists_. by destruct (Fs.stat fs p). Qed.

(** The end of the loop body, from the point where the descriptor has
    been found valid. *)
Definition install (cache_dir : path) (verbose : bool) (total : nat)
    (cs : counters) (idx : nat) (arieo_yaml_path : path)
    (pkg_data : option Value.dict) : M counters :=
  let* pkg_name :=
    Run.lift
      (match pkg_data with
       | Some data => Value.subscript (Value.PDict data) "name"
       | None => Raise Exn.TypeError
       end) in
  let* dest_folder := Run.lift (div_value cache_dir pkg_name) in
  on_files (Fs.mkdir_parents dest_folder) >>
  let dest_path := Posix.div dest_folder "ArieoPackage.yaml" in
  on_files (Fs.copy2 arieo_yaml_path dest_path) >>
  let cs := copied cs in
  (if verbose
   then
     let* shown := Run.lift (relative_to dest_path cache_dir) in
     print (Gathered idx total (name_string pkg_name) (Some shown))
   else print (Gathered idx total (name_string pkg_name) None)) >>
  Run.ret cs.

Lemma gather_local_unfold cache_dir verbose total cs idx package_path w :
  let yaml := package_path ++ ["ArieoPackage.yaml"] in
  gather_local cache_dir verbose total cs idx package_path w =
    match Fs.stat (files w) package_path with
    | None =>
        (Ok (errored cs),
         World (files w)
           (printed w ++ [PackageFolderNotFound idx total package_path]))
    | Some _ =>
        match Fs.stat (files w) yaml with
        | None =>
            (Ok (errored cs),
             World (files w)
               (printed w ++ [DescriptorNotFound idx total package_path]))
        | Some _ =>
            match verify_yaml yaml false w with
            | (Ok (false, _, error_msg), w') =>
                (Ok (errored cs),
                 World (files w')
                   (printed w' ++ [InvalidYaml idx total error_msg]))
            | (Ok (true, pkg_data, _), w') =>
                install cache_dir verbose total cs idx yaml pkg_data w'
            | (Raise e, w') => (Raise e, w')
            end
        end
    end.
Proof.
  cbn zeta. unfold gather_local. rewrite div_descriptor.
  unfold Run.bind at 1. unfold path_exists at 1. rewrite exists_stat.
  destruct (Fs.stat (files w) package_path) as [node|]; [|done].
  cbn [negb].
  unfold Run.bind at 1. unfold path_exists at 1. rewrite exists_stat.
  destruct (Fs.stat (files w) _) as [ynode|]; [|done]. cbn [negb].
  unfold Run.bind at 1.
  destruct (verify_yaml _ false w) as [[[[[|] pkg_data] error_msg]|e] w'];
    done.
Qed.

Lemma install_unfold cache_dir verbose total cs idx yaml data name :
  Value.lookup "name" data = Some (Value.PStr name) →
  ∃ announce : result (option path),
    ∀ w : world,
    install cache_dir verbose total cs idx yaml (Some data) w =
      match Fs.mkdir_parents (Posix.div cache_dir name) (files w) with
      | (Ok _, made) =>
          match Fs.copy2 yaml
                  (Posix.div cache_dir name ++ ["ArieoPackage.yaml"]) made with
          | (Ok _, fs') =>
              match announce with
              | Ok shown =>
                  (Ok (copied cs),
                   World fs' (printed w ++ [Gathered idx total name shown]))
              | Raise e => (Raise e, World fs' (printed w))
              end
          | (Raise e, fs') => (Raise e, World fs' (printed w))
          end
      | (Raise e, made) => (Raise e, World made (printed w))
      end.
Proof.
  intros Hname.
  exists (if verbose
          then match relative_to
                       (Posix.div cache_dir name ++ ["ArieoPackage.yaml"])
                       cache_dir with
               | Ok shown => Ok (Some shown)
               | Raise e => Raise e
               end
          else Ok None).
  intros w0. unfold install.
  unfold Run.bind at 1. unfold Run.lift at 1. cbn [Value.subscript].
  rewrite Hname.
  unfold Run.bind at 1. unfold Run.lift at 1. cbn [div_value].
  unfold Run.bind at 1. unfold on_files at 1.
  destruct (Fs.mkdir_parents _ (files w0)) as [[[]|e] made]; [|done].
  unfold Run.bind at 1. unfold on_files at 1. cbn [files printed].
  rewrite div_descriptor.
  destruct (Fs.copy2 _ _ made) as [[[]|e] fs']; [|done].
  unfold Run.bind, Run.lift, print, Run.ret.
  destruct verbose; [|done].
  by destruct (relative_to _ cache_dir).
Qed.

(** What a [local] entry reads: its package folder and the descriptor in
    it. *)
Definition sources (manifest_dir : path) (entry : Value.t) : list path :=
  match entry with
  | Value.PDict items =>
      match Value.lookup "local" items with
      | Some (Value.PStr local_path) =>
          let package_path := package_path_of manifest_dir local_path in
          [package_path; package_path ++ ["ArieoPackage.yaml"]]
      | _ => []
      end
  | _ => []
  end.

(** Lines that tell of no copy. *)
Definition quiet (lines : list line) : Prop :=
  ∀ idx total name shown, Gathered idx total name shown ∉ lines.

Lemma quiet_singleton l :
  (∀ idx total name shown, l ≠ Gathered idx total name shown) → quiet [l].
Proof.
  intros Hl idx total name shown Hin%list_elem_of_singleton.
  by destruct (Hl idx total name shown).
Qed.

Lemma process_entry_unfold manifest_dir cache_dir verbose total cs idx entry
    (w : world) :
  process_entry manifest_dir cache_dir verbose total cs idx entry w =
    match Value.contains "local" entry with
    | Ok true =>
        match Value.subscript entry "local" with
        | Ok local_value =>
            match Value.str_receiver local_value with
            | Ok local_path =>
                gather_local cache_dir verbose total cs idx
                  (package_path_of manifest_dir local_path) w
            | Raise e => (Raise e, w)
            end
        | Raise e => (Raise e, w)
        end
    | Ok false =>
        match Value.contains "git" entry with
        | Ok true =>
            match Value.subscript entry "git" with
            | Ok git_url =>
                match Value.str_receiver git_url with
                | Ok git_url =>
                    (Ok (skipped cs),
                     World (files w)
                       (printed w ++
                        if verbose
                        then [SkippingGit idx total (repo_name_of git_url)]
                        else []))
                | Raise e => (Raise e, w)
                end
            | Raise e => (Raise e, w)
            end
        | Ok false =>
            (Ok (errored cs),
             World (files w) (printed w ++ [UnknownEntryFormat idx total entry]))
        | Raise e => (Raise e, w)
        end
    | Raise e => (Raise e, w)
    end.
Proof.
  unfold process_entry. unfold Run.bind at 1. unfold Run.lift at 1.
  destruct (Value.contains "local" entry) as [[|]|]; [| |done].
  - unfold Run.bind at 1. unfold Run.lift at 1.
    destruct (Value.subscript entry "local") as [local_value|]; [|done].
    unfold Run.bind at 1. unfold Run.lift at 1.
    by destruct (Value.str_receiver local_value).
  - unfold Run.bind at 1. unfold Run.lift at 1.
    destruct (Value.contains "git" entry) as [[|]|]; [|done|done].
    unfold Run.bind at 1. unfold Run.lift at 1.
    destruct (Value.subscript entry "git") as [git_url|]; [|done].
    unfold Run.bind at 1. unfold Run.lift at 1.
    destruct (Value.str_receiver git_url) as [url|]; [|done].
    unfold Run.bind, Run.when, print, Run.ret.
    destruct verbose; cbn; [done|]. by rewrite app_nil_r; destruct w.
Qed.

(** An iteration that returns either copies nothing, and then does the
    same in any world where the sources look the same; or it copies a
    valid descriptor into the folder of its name, and then does so in any
    world where the sources look the same and the folder can be made and
    the file copied. *)
Lemma process_entry_step manifest_dir cache_dir verbose total cs idx entry
    s cs1 s1 :
  process_entry manifest_dir cache_dir verbose total cs idx entry s
    = (Ok cs1, s1) →
  (∃ lines,
      s1 = World (files s) (printed s ++ lines) ∧ quiet lines ∧
      copied_count cs1 = copied_count cs ∧
      ∀ t,
        (∀ q, q ∈ sources manifest_dir entry →
              Fs.stat (files t) q = Fs.stat (files s) q) →
        process_entry manifest_dir cache_dir verbose total cs idx entry t
          = (Ok cs1, World (files t) (printed t ++ lines)))
  ∨
  (∃ local_path d name shown made,
      let yaml :=
        package_path_of manifest_dir local_path ++ ["ArieoPackage.yaml"] in
      let dest_path :=
        Posix.div cache_dir name ++ ["ArieoPackage.yaml"] in
      sources manifest_dir entry =
        [package_path_of manifest_dir local_path; yaml] ∧
      cs1 = copied cs ∧
      Fs.stat (files s) yaml = Some (Fs.File d) ∧
      declares d name ∧
      Fs.mkdir_parents (Posix.div cache_dir name) (files s) = (Ok (), made) ∧
      Fs.copy2 yaml dest_path made = (Ok (), files s1) ∧
      printed s1 = printed s ++ [Gathered idx total name shown] ∧
      ∀ t made' fs',
        (∀ q, q ∈ sources manifest_dir entry →
              Fs.stat (files t) q = Fs.stat (files s) q) →
        Fs.mkdir_parents (Posix.div cache_dir name) (files t)
          = (Ok (), made') →
        Fs.copy2 yaml dest_path made' = (Ok (), fs') →
        process_entry manifest_dir cache_dir verbose total cs idx entry t
          = (Ok cs1, World fs' (printed t ++ [Gathered idx total name shown]))).
Proof.
  rewrite process_entry_unfold.
  destruct (Value.contains "local" entry) as [[|]|] eqn:Hlocal; [| |done].
  - (* a local entry *)
    destruct (Value.subscript entry "local") as [local_value|] eqn:Hsub;
      [|done].
    destruct (Value.str_receiver local_value) as [local_path|] eqn:Hstr;
      [|done].
    assert (Hsources : sources manifest_dir entry =
      [package_path_of manifest_dir local_path;
       package_path_of manifest_dir local_path ++ ["ArieoPackage.yaml"]]).
    { unfold sources. destruct entry as [| | | | |items]; try done.
      cbn in Hsub. destruct (Value.lookup "local" items); [|done].
      injection Hsub as ->. destruct local_value; try done.
      by injection Hstr as ->. }
    assert (Hentry : ∀ t : world,
      process_entry manifest_dir cache_dir verbose total cs idx entry t =
      gather_local cache_dir verbose total cs idx
        (package_path_of manifest_dir local_path) t).
    { intros t. by rewrite process_entry_unfold, Hlocal, Hsub, Hstr. }
    set (package_path := package_path_of manifest_dir local_path) in *.
    rewrite Hsources. clear Hlocal Hsub Hstr Hsources.
    assert (Hviews : ∀ t,
      (∀ q, q ∈ [package_path; package_path ++ ["ArieoPackage.yaml"]] →
            Fs.stat (files t) q = Fs.stat (files s) q) →
      Fs.stat (files t) package_path = Fs.stat (files s) package_path ∧
      Fs.stat (files t) (package_path ++ ["ArieoPackage.yaml"]) =
        Fs.stat (files s) (package_path ++ ["ArieoPackage.yaml"])).
    { intros t Ht. split; apply Ht; set_solver. }
    rewrite gather_local_unfold. cbn zeta.
    destruct (Fs.stat (files s) package_path) as [node|] eqn:Hnode.
    2:{ intros [= <- <-]. left. eexists. split_and!; [done| |done|].
        - by apply quiet_singleton.
        - intros t [Ht _]%Hviews.
          rewrite Hentry, gather_local_unfold. cbn zeta. by rewrite Ht. }
    destruct (Fs.stat (files s) (package_path ++ ["ArieoPackage.yaml"]))
      as [ynode|] eqn:Hynode.
    2:{ intros [= <- <-]. left. eexists. split_and!; [done| |done|].
        - by apply quiet_singleton.
        - intros t [Ht Hty]%Hviews.
          rewrite Hentry, gather_local_unfold. cbn zeta.
          by rewrite Ht, Hty. }
    destruct (verify_yaml (package_path ++ ["ArieoPackage.yaml"]) false s)
      as [[[[is_valid pkg_data] error_msg]|e] s'] eqn:Hverify; [|done].
    assert (Hquiet : s' = s ∧ ∀ t,
      (∀ q, q ∈ [package_path; package_path ++ ["ArieoPackage.yaml"]] →
            Fs.stat (files t) q = Fs.stat (files s) q) →
      process_entry manifest_dir cache_dir verbose total cs idx entry t =
        if is_valid
        then install cache_dir verbose total cs idx
               (package_path ++ ["ArieoPackage.yaml"]) pkg_data t
        else (Ok (errored cs),
              World (files t) (printed t ++ [InvalidYaml idx total error_msg]))).
    { split.
      - by destruct (verify_yaml_stat _ s s _ _ eq_refl Hverify).
      - intros t [Ht Hty]%Hviews.
        rewrite Hentry, gather_local_unfold. cbn zeta.
        rewrite Ht, Hty.
        assert (Hyaml :
          Fs.stat (files t) (package_path ++ ["ArieoPackage.yaml"]) =
          Fs.stat (files s) (package_path ++ ["ArieoPackage.yaml"]))
          by (by rewrite Hty, Hynode).
        destruct (verify_yaml_stat _ _ _ _ _ Hyaml Hverify) as [_ ->].
        by destruct is_valid. }
    destruct Hquiet as [-> Hreplay].
    destruct is_valid.
    2:{ intros [= <- <-]. left. eexists. split_and!; [done| |done|].
        - by apply quiet_singleton.
        - done. }
    destruct pkg_data as [data|]; [|done].
    apply verify_yaml_valid_inv in Hverify
      as (d & name & Hstat & Hblank & Hload & Hname & Hne).
    destruct (install_unfold cache_dir verbose total cs idx
                (package_path ++ ["ArieoPackage.yaml"]) data name Hname)
      as [announce Hinstall].
    rewrite Hinstall.
    destruct (Fs.mkdir_parents (Posix.div cache_dir name) (files s))
      as [[[]|e] made] eqn:Hmade; [|done].
    destruct (Fs.copy2 _ _ made) as [[[]|e] fs1] eqn:Hcopy; [|done].
    destruct announce as [shown|e]; [|done].
    intros [= <- <-]. right.
    exists local_path, d, name, shown, made. cbn zeta.
    split_and!; try done.
    + split; [done|]. by exists data.
    + intros t made' fs' Ht Hmade' Hcopy'.
      rewrite (Hreplay t Ht), Hinstall, Hmade'. unfold package_path.
      by rewrite Hcopy'.
  - (* not a local entry *)
    assert (Hentry : ∀ t : world,
      process_entry manifest_dir cache_dir verbose total cs idx entry t =
      match Value.contains "git" entry with
      | Ok true =>
          match Value.subscript entry "git" with
          | Ok git_url =>
              match Value.str_receiver git_url with
              | Ok git_url =>
                  (Ok (skipped cs),
                   World (files t)
                     (printed t ++
                      if verbose
                      then [SkippingGit idx total (repo_name_of git_url)]
                      else []))
              | Raise e => (Raise e, t)
              end
          | Raise e => (Raise e, t)
          end
      | Ok false =>
          (Ok (errored cs),
           World (files t) (printed t ++ [UnknownEntryFormat idx total entry]))
      | Raise e => (Raise e, t)
      end).
    { intros t. by rewrite process_entry_unfold, Hlocal. }
    destruct (Value.contains "git" entry) as [[|]|] eqn:Hgit; [| |done].
    + destruct (Value.subscript entry "git") as [git_url|]; [|done].
      destruct (Value.str_receiver git_url) as [url|]; [|done].
      intros [= <- <-]. left. eexists. split_and!; [done| |done|done].
      destruct verbose; [by apply quiet_singleton|].
      intros ????. apply not_elem_of_nil.
    + intros [= <- <-]. left. eexists. split_and!; [done| |done|done].
      by apply quiet_singleton.
Qed.

Lemma process_entry_grows manifest_dir cache_dir verbose total cs idx entry
    s cs1 s1 :
  process_entry manifest_dir cache_dir verbose total cs idx entry s
    = (Ok cs1, s1) →
  grows (files s) (files s1).
Proof.
  intros [(lines & -> & _)|Hcopy]%process_entry_step; [apply grows_refl|].
  destruct Hcopy as (local_path & d & name & shown & made & Hcopy).
  cbn zeta in Hcopy. destruct Hcopy as (_ & _ & _ & _ & Hmade & Hcopy & _).
  eapply grows_trans; [by eapply mkdir_grows|by eapply copy2_grows].
Qed.

Lemma for_entries_grows manifest_dir cache_dir verbose total entries :
  ∀ idx cs s cs' s',
    for_entries (process_entry manifest_dir cache_dir verbose total)
      idx entries cs s = (Ok cs', s') →
    grows (files s) (files s').
Proof.
  induction entries as [|entry rest IH]; intros idx cs s cs' s'; cbn.
  - intros [= <- <-]. apply grows_refl.
  - unfold Run.bind at 1.
    destruct (process_entry _ _ _ _ cs idx entry s) as [[cs1|e] s1] eqn:Hstep;
      [|done].
    intros Hrest. eapply grows_trans; [by eapply process_entry_grows|].
    by eapply IH.
Qed.


Lemma len_iter (v : Value.t) entries :
  Value.iter v = Ok entries → Value.len v = Ok (length entries).
Proof.
  destruct v as [| | |s| |]; intros [= <-]; cbn; rewrite ?length_map;
    try done.
  f_equal. induction s; cbn; congruence.
Qed.

Lemma gather_falsy manifest cache_dir clean verbose (w : world) :
  Value.truthy (Value.get "packages" (Value.PList []) manifest) = false →
  gather_packages_from_manifest manifest cache_dir clean verbose w =
    match resolve_value
            (Value.get "_manifest_dir" (Value.PStr ".") manifest) with
    | Ok _ => (Ok 0, World (files w) (printed w ++ [NoPackagesDefined]))
    | Raise e => (Raise e, w)
    end.
Proof.
  intros Hfalsy. unfold gather_packages_from_manifest.
  unfold Run.bind at 1. unfold Run.lift at 1.
  destruct (resolve_value _); [|done]. by rewrite Hfalsy.
Qed.

Lemma gather_unfold manifest cache_dir clean verbose manifest_dir entries
    (w : world) :
  resolve_value (Value.get "_manifest_dir" (Value.PStr ".") manifest)
    = Ok manifest_dir →
  Value.truthy (Value.get "packages" (Value.PList []) manifest) = true →
  Value.iter (Value.get "packages" (Value.PList []) manifest) = Ok entries →
  gather_packages_from_manifest manifest cache_dir clean verbose w =
    match prepare cache_dir clean verbose w with
    | (Ok _, w1) =>
        match for_entries
                (process_entry manifest_dir cache_dir verbose (length entries))
                1 entries (Counters 0 0 0)
                (World (files w1)
                   (printed w1 ++ [ProcessingEntries (length entries)])) with
        | (Ok cs, w2) =>
            (Ok (copied_count cs), World (files w2) (printed w2 ++ results cs))
        | (Raise e, w2) => (Raise e, w2)
        end
    | (Raise e, w1) => (Raise e, w1)
    end.
Proof.
  intros Hdir Htruthy Hiter. unfold gather_packages_from_manifest, prepare.
  unfold Run.bind, Run.lift. rewrite Hdir, Htruthy, (len_iter _ _ Hiter), Hiter.
  cbn [negb].
  match goal with
  | |- (let (_, _) := ?m in _) = _ =>
      destruct m as [[found|e] w0]; cbn beta iota; [|done]
  end.
  match goal with
  | |- (let (_, _) := ?m in _) = _ =>
      destruct m as [[[]|e] w0']; cbn beta iota; [|done]
  end.
  destruct (on_files (Fs.mkdir_parents cache_dir) w0') as [[[]|e] w1];
    cbn beta iota; [|done].
  unfold print at 1. cbn beta iota. cbn [files printed].
  destruct (for_entries _ 1 entries _ _) as [[cs|e] w2]; cbn beta iota;
    [|done].
  unfold print, Run.ret, results. cbn.
  by rewrite <- !app_assoc.
Qed.

Lemma prepare_without_clean cache_dir verbose (w : world) :
  prepare cache_dir false verbose w =
    let '(r, fs) := Fs.mkdir_parents cache_dir (files w) in
    (r, World fs (printed w)).
Proof.
  unfold prepare, Run.bind, on_files, Run.ret. cbn.
  by destruct (Fs.mkdir_parents cache_dir (files w)) as [[[]|] ?].
Qed.


(** *** Later copies replace earlier ones *)

(** A name that is a single segment of a path. *)
Definition plain_name (name : string) : Prop :=
  Posix.is_absolute name = false ∧ Posix.segments name = [name] ∧
  name ≠ "..".

Lemma two_slashes_absolute s :
  Posix.is_absolute s = false → Posix.two_slashes s = false.
Proof.
  unfold Posix.is_absolute, Posix.two_slashes.
  destruct s as [|a s]; [done|]. cbn. rewrite andb_true_r. by intros ->.
Qed.

Lemma div_relative (base : path) s :
  Posix.is_absolute s = false → Posix.div base s = base ++ Posix.segments s.
Proof.
  intros Hrel. unfold Posix.div.
  by rewrite (two_slashes_absolute _ Hrel), Hrel.
Qed.

Lemma div_plain (cache_dir : path) name :
  plain_name name → Posix.div cache_dir name = cache_dir ++ [name].
Proof.
  intros (Habs & Hsegs & Hdots). by rewrite div_relative, Hsegs.
Qed.

Lemma declares_one d name name' :
  declares d name → declares d name' → name' = name.
Proof.
  intros (_ & items & Hload & Hname & _) (_ & items' & Hload' & Hname' & _).
  congruence.
Qed.

Lemma for_entries_lines manifest_dir cache_dir verbose total entries :
  ∀ idx cs s cs' s',
    for_entries (process_entry manifest_dir cache_dir verbose total)
      idx entries cs s = (Ok cs', s') →
    ∃ lines, printed s' = printed s ++ lines.
Proof.
  induction entries as [|entry rest IH]; intros idx cs s cs' s'; cbn.
  - intros [= <- <-]. exists []. by rewrite app_nil_r.
  - unfold Run.bind at 1.
    destruct (process_entry _ _ _ _ cs idx entry s) as [[cs1|e] s1] eqn:Hstep;
      [|done].
    intros (lines & ->)%IH.
    destruct (process_entry_step _ _ _ _ _ _ _ _ _ _ Hstep)
      as [(l & -> & _)|Hcopy].
    + eexists. cbn. by rewrite <- app_assoc.
    + destruct Hcopy as (? & ? & ? & ? & ? & Hcopy). cbn zeta in Hcopy.
      destruct Hcopy as (_ & _ & _ & _ & _ & _ & -> & _).
      eexists. by rewrite <- app_assoc.
Qed.

(** The folder a package called [name] is copied into: the location
    that [cache_dir / name] leads to. *)
Definition folder_of (cache_dir : path) (name : string) : path :=
  Posix.walk [] (Posix.div cache_dir name).

Lemma descriptor_name (package_path : path) :
  Posix.name (package_path ++ ["ArieoPackage.yaml"]) = "ArieoPackage.yaml".
Proof. unfold Posix.name. apply last_last. Qed.

Lemma target_free fs src loc :
  Fs.stat fs loc ≠ Some Fs.Dir → target_of fs src loc = loc.
Proof. unfold target_of. by destruct (Fs.stat fs loc) as [[?|]|]. Qed.

Lemma target_cases fs src loc :
  target_of fs src loc = loc ∨ target_of fs src loc = loc ++ [Posix.name src].
Proof. unfold target_of. destruct (Fs.stat fs loc) as [[?|]|]; auto. Qed.

(** What the copy of a descriptor under [name] does to the files: the
    folder is a directory, the descriptor is written to its place in
    the folder, or into a directory that stands in that place, and no
    other file changes. *)
Lemma copy_lands (cache_dir : path) name yaml fs made fs' d :
  Posix.name yaml = "ArieoPackage.yaml" →
  Fs.mkdir_parents (Posix.div cache_dir name) fs = (Ok (), made) →
  Fs.copy2 yaml (Posix.div cache_dir name ++ ["ArieoPackage.yaml"]) made
    = (Ok (), fs') →
  Fs.stat fs yaml = Some (Fs.File d) →
  let dest := folder_of cache_dir name ++ ["ArieoPackage.yaml"] in
  ∃ target,
    (target = dest ∨ target = dest ++ ["ArieoPackage.yaml"]) ∧
    (Fs.stat fs' dest ≠ Some Fs.Dir → target = dest) ∧
    Fs.stat fs' (folder_of cache_dir name) = Some Fs.Dir ∧
    fs' !! target = Some (Fs.File d) ∧
    (∀ q, q ≠ target → is_file (fs !! q) → fs' !! q = fs !! q).
Proof.
  intros Hyaml Hmade Hcopy Hd. cbn zeta.
  pose proof (copy2_grows _ _ _ _ Hcopy) as Hgrows.
  destruct (mkdir_inv _ _ _ Hmade) as [Hfiles Hlook].
  pose proof (made_folder _ _ _ Hmade) as Hfolder.
  destruct (copy2_inv _ _ _ _ Hcopy)
    as (content & loc & Hloc & Hcontent & Hne & Htarget & ->).
  rewrite (follow_made _ _ _ Hmade) in Hloc. injection Hloc as <-.
  fold (folder_of cache_dir name) in *.
  pose proof (target_nonempty _ _ _ Htarget) as Hnonempty.
  set (dest := folder_of cache_dir name ++ ["ArieoPackage.yaml"]) in *.
  set (target := target_of made yaml dest) in *.
  assert (Hyaml_kept : content = d).
  { destruct yaml as [|seg yaml]; [done|]. rewrite stat_lookup in * by done.
    rewrite Hlook in Hcontent.
    destruct (decide (_ ∈ _)); [done|]. congruence. }
  subst content. exists target. split_and!.
  - destruct (target_cases made yaml dest) as [Ht|Ht]; [by left|right].
    by rewrite Hyaml in Ht.
  - intros Hnodir. apply target_free. intros Hdir. apply Hnodir.
    by eapply grows_stat.
  - by eapply grows_stat.
  - by rewrite lookup_insert_eq.
  - intros q Hq Hfile. rewrite lookup_insert_ne by done.
    rewrite Hlook. destruct (decide (q ∈ chain [] (Posix.div cache_dir name)))
      as [Hin|]; [|done]. by destruct (Hfiles q Hin).
Qed.

(** A descriptor in the cache stays as it is while the entries
    processed are copied elsewhere. *)
Lemma for_entries_keeps manifest_dir cache_dir verbose total dest d entries :
  ∀ idx cs s cs' s' lines,
    for_entries (process_entry manifest_dir cache_dir verbose total)
      idx entries cs s = (Ok cs', s') →
    printed s' = printed s ++ lines →
    (∀ idx' total' name' shown,
        Gathered idx' total' name' shown ∈ lines →
        let dest' := folder_of cache_dir name' ++ ["ArieoPackage.yaml"] in
        dest' ≠ dest ∧ dest' ++ ["ArieoPackage.yaml"] ≠ dest) →
    files s !! dest = Some (Fs.File d) →
    files s' !! dest = Some (Fs.File d).
Proof.
  induction entries as [|entry rest IH]; intros idx cs s cs' s' lines; cbn.
  - by intros [= <- <-].
  - unfold Run.bind at 1.
    destruct (process_entry _ _ _ _ cs idx entry s) as [[cs1|e] s1] eqn:Hstep;
      [|done].
    intros Hrest Hlines Hothers Hkept.
    destruct (for_entries_lines _ _ _ _ _ _ _ _ _ _ Hrest) as [lines' Hlines'].
    destruct (process_entry_step _ _ _ _ _ _ _ _ _ _ Hstep)
      as [(l & -> & _)|Hcopy].
    + cbn in Hlines'. rewrite Hlines', <- app_assoc in Hlines.
      apply app_inv_head in Hlines as <-.
      apply (IH _ _ _ _ _ _ Hrest Hlines'); [|done].
      intros ???? Hin. eapply Hothers, elem_of_app. by right.
    + destruct Hcopy as (local_path & d' & name' & shown & made & Hcopy).
      cbn zeta in Hcopy.
      destruct Hcopy as (_ & _ & Hd' & _ & Hmade & Hcopy & Hprinted & _).
      rewrite Hlines', Hprinted, <- app_assoc in Hlines.
      apply app_inv_head in Hlines as <-.
      destruct (Hothers idx total name' shown) as [Hne Hne'];
        [apply elem_of_cons; by left|].
      apply (IH _ _ _ _ _ _ Hrest Hlines').
      { intros ???? Hin. eapply Hothers, elem_of_cons. by right. }
      destruct (copy_lands _ _ _ _ _ _ _ (descriptor_name _)
                  Hmade Hcopy Hd') as (target & Htarget & _ & _ & _ & Hsame).
      rewrite Hsame; [done| |by rewrite Hkept].
      by destruct Htarget as [-> | ->].
Qed.

(** C5.  Let a local entry be copied under [name] into the folder that
    [cache_dir / name] leads to, not into a directory standing in the
    place of the descriptor, and let every entry copied after it in the
    run be written elsewhere.  Then at the end of the run the cache has
    that folder and in it the descriptor of that entry: of the entries
    copied to one destination, the last one wins. *)
Theorem later_descriptor_wins manifest_dir cache_dir verbose total idx cs
    items local_path rest w0 cs1 w1 cs2 w2 lines d name
    (Hentry :
       process_entry manifest_dir cache_dir verbose total cs idx
         (Value.PDict items) w0 = (Ok cs1, w1))
    (Hrest :
       for_entries (process_entry manifest_dir cache_dir verbose total)
         (S idx) rest cs1 w1 = (Ok cs2, w2))
    (Hlines : printed w2 = printed w1 ++ lines)
    (Hlocal : Value.lookup "local" items = Some (Value.PStr local_path))
    (Hcopied : copied_count cs1 = S (copied_count cs))
    (Hdescriptor :
       Fs.stat (files w0)
         (package_path_of manifest_dir local_path ++ ["ArieoPackage.yaml"])
       = Some (Fs.File d))
    (Hname : declares d name)
    (Hfree :
       Fs.stat (files w1) (folder_of cache_dir name ++ ["ArieoPackage.yaml"])
       ≠ Some Fs.Dir)
    (Hothers : ∀ idx' total' name' shown,
       Gathered idx' total' name' shown ∈ lines →
       let dest' := folder_of cache_dir name' ++ ["ArieoPackage.yaml"] in
       dest' ≠ folder_of cache_dir name ++ ["ArieoPackage.yaml"] ∧
       dest' ++ ["ArieoPackage.yaml"]
       ≠ folder_of cache_dir name ++ ["ArieoPackage.yaml"]) :
  files w2 !! (folder_of cache_dir name ++ ["ArieoPackage.yaml"])
    = Some (Fs.File d) ∧
  Fs.stat (files w2) (folder_of cache_dir name) = Some Fs.Dir.
Proof.
  destruct (process_entry_step _ _ _ _ _ _ _ _ _ _ Hentry)
    as [(l & -> & _ & Hsame & _)|Hcopy]; [lia|].
  destruct Hcopy as (local_path' & d' & name' & shown & made & Hcopy).
  cbn zeta in Hcopy.
  destruct Hcopy as (Hsrc & _ & Hd' & Hname' & Hmade & Hcopy & _).
  assert (Hyaml :
    package_path_of manifest_dir local_path' ++ ["ArieoPackage.yaml"] =
    package_path_of manifest_dir local_path ++ ["ArieoPackage.yaml"]).
  { unfold sources in Hsrc. rewrite Hlocal in Hsrc. cbn zeta in Hsrc.
    by injection Hsrc as <- _. }
  rewrite Hyaml in *. rewrite Hdescriptor in Hd'. injection Hd' as <-.
  rewrite (declares_one _ _ _ Hname Hname') in *.
  destruct (copy_lands _ _ _ _ _ _ _ (descriptor_name _)
              Hmade Hcopy Hdescriptor)
    as (target & _ & Htarget & Hfolder & Hdest & _).
  rewrite (Htarget Hfree) in Hdest.
  split.
  - by apply (for_entries_keeps _ _ _ _ _ _ _ _ _ _ _ _ _ Hrest Hlines Hothers).
  - eapply grows_stat; [|done].
    by apply (for_entries_grows _ _ _ _ _ _ _ _ _ _ Hrest).
Qed.

End GathererFacts.

Lemma sample_load_raises (s : string) (e : Exn.t) :
  Sample.load s = Raise e → Exn.is_Exception e = true.
Proof.
  unfold Sample.load. destruct (Sample.assoc s Sample.documents); [done|].
  by intros [= <-].
Qed.

Lemma stray_load_raises (s : string) (e : Exn.t) :
  Stray.load s = Raise e → Exn.is_Exception e = true.
Proof.
  unfold Stray.load. destruct (Sample.assoc s Stray.documents); [done|].
  apply sample_load_raises.
Qed.

(** A descriptor that holds only a comment, one without [name], one
    whose [name] is the number 123, and one that holds a no-break space,
    a next-line control and a space. *)
Lemma verify_yaml_order_witness :
  let verdict_of := λ package,
    (verify_yaml (H := Sample.host) ["src"; package; "ArieoPackage.yaml"]
       false Sample.start).1 in
  verdict_of "blank" =
    Ok (false, None, Some "YAML file is empty or contains only comments") ∧
  verdict_of "anonymous" =
    Ok (false, None, Some "Missing required field: 'name'") ∧
  verdict_of "numbered" =
    Ok (false, None, Some "Field 'name' must be a non-empty string") ∧
  (verify_yaml (H := Stray.host) ["src"; "hollow"; "ArieoPackage.yaml"]
     false Stray.start).1 =
    Ok (false, None, Some "YAML file is empty").
Proof.
  cbn zeta. split_and!; cycle 3.
  - destruct (verify_yaml_order (H := Stray.host)
                ["src"; "hollow"; "ArieoPackage.yaml"] false Stray.start
                stray_load_raises) as (_ & _ & _ & Hfile).
    destruct (Hfile Stray.blank) as [Hblank _]; [by_evaluation|].
    apply Hblank. by_evaluation.
  - destruct (verify_yaml_order (H := Sample.host)
                ["src"; "blank"; "ArieoPackage.yaml"] false Sample.start
                sample_load_raises) as (_ & _ & _ & Hfile).
    destruct (Hfile "# nothing here yet") as [_ Hfilled];
      [by_evaluation|].
    destruct Hfilled as (_ & Hnone & _); [vm_compute; discriminate|].
    apply Hnone. by_evaluation.
  - destruct (verify_yaml_order (H := Sample.host)
                ["src"; "anonymous"; "ArieoPackage.yaml"] false Sample.start
                sample_load_raises) as (_ & _ & _ & Hfile).
    destruct (Hfile "version: 1") as [_ Hfilled];
      [by_evaluation|].
    destruct Hfilled as (_ & _ & _ & Hdict); [vm_compute; discriminate|].
    destruct (Hdict [(Value.PStr "version", Value.PInt 1)]) as (Hmissing & _);
      [by_evaluation|].
    apply Hmissing. by_evaluation.
  - destruct (verify_yaml_order (H := Sample.host)
                ["src"; "numbered"; "ArieoPackage.yaml"] false Sample.start
                sample_load_raises) as (_ & _ & _ & Hfile).
    destruct (Hfile "name: 123") as [_ Hfilled];
      [by_evaluation|].
    destruct Hfilled as (_ & _ & _ & Hdict); [vm_compute; discriminate|].
    destruct (Hdict [(Value.PStr "name", Value.PInt 123)])
      as (_ & Hbad & _); [by_evaluation|].
    apply (Hbad (Value.PInt 123)); [by_evaluation|].
    intros s. discriminate.
Defined.

(** The sample manifest lists a local package, a [git] entry and an entry
    of neither kind: one package is copied and the status is 0.  A
    manifest without packages gives status 1, as does a missing one,
    and as does the path of the sample manifest written through a
    directory that is not there. *)
Lemma main_exit_status_witness :
  exit_status
    (main (H := Sample.host) (Args None false false) Sample.start).1 = 0%Z ∧
  exit_status
    (main (H := Sample.host) (Args (Some "empty.manifest.yaml") false false)
       Sample.start).1 = 1%Z ∧
  exit_status
    (main (H := Sample.host) (Args (Some "broken.manifest.yaml") false false)
       Sample.start).1 = 1%Z ∧
  exit_status
    (main (H := Sample.host) (Args (Some "nowhere.yaml") false false)
       Sample.start).1 = 1%Z ∧
  exit_status
    (main (H := Sample.host)
       (Args (Some "nowhere/../packages.manifest.yaml") false false)
       Sample.start).1 = 1%Z.
Proof.
  split_and!.
  - destruct (main_exit_status (H := Sample.host) (Args None false false)
                Sample.start sample_load_raises) as [_ Hgathered].
    eapply (Hgathered _ _ ["work"] Sample.cache 1 _);
      [by_run|by_evaluation|by_run].
  - destruct (main_exit_status (H := Sample.host)
                (Args (Some "empty.manifest.yaml") false false)
                Sample.start sample_load_raises) as [_ Hgathered].
    eapply (Hgathered _ _ ["work"] Sample.cache 0 _);
      [by_run|by_evaluation|by_run].
  - destruct (main_exit_status (H := Sample.host)
                (Args (Some "broken.manifest.yaml") false false)
                Sample.start sample_load_raises) as [Hfatal _].
    apply Hfatal. right. right. exists "packages: [".
    split; [by_evaluation|]. left.
    exists (Exn.YAMLError "could not parse the document"). by_evaluation.
  - destruct (main_exit_status (H := Sample.host)
                (Args (Some "nowhere.yaml") false false)
                Sample.start sample_load_raises) as [Hfatal _].
    apply Hfatal. left. by_evaluation.
  - destruct (main_exit_status (H := Sample.host)
                (Args (Some "nowhere/../packages.manifest.yaml") false false)
                Sample.start sample_load_raises) as [Hfatal _].
    apply Hfatal. left. by_evaluation.
Defined.

Lemma counters_partition_witness :
  let manifest :=
    Sample.manifest_of
      [Sample.local "/src/core";
       Sample.mapping [("git", Sample.str "https://example.org/x.git")];
       Sample.mapping [("url", Sample.str "x")]] in
  let w' :=
    (gather_packages_from_manifest (H := Sample.host) manifest Sample.cache
       false false Sample.start).2 in
  ∃ entries cs before,
    Value.iter (Value.get "packages" (Value.PList []) manifest) = Ok entries ∧
    printed w' = before ++ results cs ∧
    1 = copied_count cs ∧
    copied_count cs + skipped_count cs + error_count cs = length entries.
Proof.
  apply (counters_partition (H := Sample.host) _ Sample.cache false false
           Sample.start 1 _); [by_evaluation|by_run].
Defined.

Lemma no_packages_no_effect_witness :
  gather_packages_from_manifest (H := Sample.host)
    (Sample.manifest_of []) Sample.cache true true Sample.start =
  (Ok 0, World Sample.tree [NoPackagesDefined]).
Proof.
  apply (no_packages_no_effect (H := Sample.host)).
  - intros v [= <-]. reflexivity.
  - right. reflexivity.
Defined.

Lemma git_entry_is_skipped_witness :
  process_entry (H := Sample.host) ["work"] Sample.cache true 3
    (Counters 1 0 0) 2
    (Sample.mapping [("git", Sample.str "https://example.org/x.git")])
    Sample.start =
  (Ok (Counters 1 1 0), World Sample.tree [SkippingGit 2 3 "x"]).
Proof.
  exact (git_entry_is_skipped (H := Sample.host) ["work"] Sample.cache true 3
           (Counters 1 0 0) 2
           [(Value.PStr "git", Value.PStr "https://example.org/x.git")]
           "https://example.org/x.git" Sample.start eq_refl eq_refl).
Defined.


(** The package [regrouped] declares the name [group/core] of [grouped]
    and is listed after it; [render], listed last, declares another
    name. *)
Lemma later_descriptor_wins_witness :
  let body := process_entry (H := Stray.host) ["work"] Sample.cache false 3 in
  let prepared := (prepare Sample.cache false false Stray.start).2 in
  let w0 :=
    (body (Counters 0 0 0) 1 (Sample.local "/src/grouped") prepared).2 in
  let w1 := (body (Counters 1 0 0) 2 (Sample.local "/src/regrouped") w0).2 in
  let w2 :=
    (for_entries body 3 [Sample.local "/src/render"] (Counters 2 0 0) w1).2 in
  files w2 !! (folder_of Sample.cache "group/core" ++ ["ArieoPackage.yaml"])
    = Some (Fs.File "name: group/core  # fork") ∧
  Fs.stat (files w2) (folder_of Sample.cache "group/core") = Some Fs.Dir.
Proof.
  intros body prepared w0 w1 w2.
  apply (later_descriptor_wins (H := Stray.host) ["work"] Sample.cache false
           3 2 (Counters 1 0 0)
           [(Value.PStr "local", Value.PStr "/src/regrouped")]
           "/src/regrouped"
           [Sample.local "/src/render"] w0 (Counters 2 0 0) w1
           (Counters 3 0 0) w2 [Gathered 3 3 "render" None]
           "name: group/core  # fork" "group/core").
  - by_run.
  - by_run.
  - by_evaluation.
  - reflexivity.
  - reflexivity.
  - by_evaluation.
  - split; [vm_compute; discriminate|].
    exists [(Value.PStr "name", Value.PStr "group/core")].
    split_and!; [by_evaluation|reflexivity|discriminate].
  - intros Hdir.
    assert (Hfile :
      Fs.stat (files w1)
        (folder_of Sample.cache "group/core" ++ ["ArieoPackage.yaml"])
      = Some (Fs.File "name: group/core  # fork")) by by_evaluation.
    rewrite Hfile in Hdir. discriminate Hdir.
  - intros idx' total' name' shown Hin.
    apply list_elem_of_singleton in Hin. injection Hin as _ _ -> _.
    split; intros Heq; vm_compute in Heq; discriminate Heq.
Defined.

(** Three local packages declare the name [core].  Of the pair [core] and
    [fork] the later one is [fork], yet the cache ends up with the
    descriptor of [vendored], which is listed after both. *)
Lemma later_of_a_pair_is_overwritten :
  let run :=
    gather_packages_from_manifest (H := Sample.host)
      (Sample.manifest_of
         [Sample.local "/src/core"; Sample.local "/src/fork";
          Sample.local "/src/vendored"])
      Sample.cache false false Sample.start in
  Sample.tree !! ["src"; "core"; "ArieoPackage.yaml"]
    = Some (Fs.File "name: core") ∧
  Sample.tree !! ["src"; "fork"; "ArieoPackage.yaml"]
    = Some (Fs.File "name: core  # fork") ∧
  Sample.load "name: core"
    = Ok (Value.PDict [(Value.PStr "name", Value.PStr "core")]) ∧
  Sample.load "name: core  # fork"
    = Ok (Value.PDict [(Value.PStr "name", Value.PStr "core")]) ∧
  run.1 = Ok 3 ∧
  files run.2 !! (Sample.cache ++ ["core"; "ArieoPackage.yaml"])
    = Some (Fs.File "name: core  # vendored") ∧
  files run.2 !! (Sample.cache ++ ["core"; "ArieoPackage.yaml"])
    ≠ Some (Fs.File "name: core  # fork").
Proof.
  cbn zeta.
  assert (Hheld :
    files
      (gather_packages_from_manifest (H := Sample.host)
         (Sample.manifest_of
            [Sample.local "/src/core"; Sample.local "/src/fork";
             Sample.local "/src/vendored"])
         Sample.cache false false Sample.start).2
      !! (Sample.cache ++ ["core"; "ArieoPackage.yaml"])
    = Some (Fs.File "name: core  # vendored")) by by_evaluation.
  split_and!; [by_evaluation|by_evaluation|by_evaluation|by_evaluation|
               by_evaluation|exact Hheld|].
  rewrite Hheld. discriminate.
Qed.

(** An entry that carries both tags is taken for a local one: here it is
    copied and counted so, although it carries the [git] tag. *)
Lemma git_tag_with_local_tag_is_copied :
  let entry :=
    Sample.mapping [("local", Sample.str "/src/core");
                    ("git", Sample.str "https://example.org/core.git")] in
  Value.contains "git" entry = Ok true ∧
  (process_entry (H := Sample.host) ["work"] Sample.cache false 1
     (Counters 0 0 0) 1 entry Sample.start).1 = Ok (Counters 1 0 0) ∧
  (gather_packages_from_manifest (H := Sample.host)
     (Sample.manifest_of [entry]) Sample.cache false false Sample.start).1
  = Ok 1.
Proof. cbn zeta. split_and!; by_evaluation. Qed.


(** ** More about the gatherer *)

Section GathererMore.
Context `{Host}.

(** What the verbose run shows for a copy. *)
Definition announce (cache_dir : path) (verbose : bool) (name : string)
  : result (option path) :=
  if verbose
  then match relative_to
               (Posix.div cache_dir name ++ ["ArieoPackage.yaml"])
               cache_dir with
       | Ok shown => Ok (Some shown)
       | Raise e => Raise e
       end
  else Ok None.

Lemma install_eq cache_dir verbose total cs idx yaml data name (w : world) :
  Value.lookup "name" data = Some (Value.PStr name) →
  install cache_dir verbose total cs idx yaml (Some data) w =
    match Fs.mkdir_parents (Posix.div cache_dir name) (files w) with
    | (Ok _, made) =>
        match Fs.copy2 yaml
                (Posix.div cache_dir name ++ ["ArieoPackage.yaml"]) made with
        | (Ok _, fs') =>
            match announce cache_dir verbose name with
            | Ok shown =>
                (Ok (copied cs),
                 World fs' (printed w ++ [Gathered idx total name shown]))
            | Raise e => (Raise e, World fs' (printed w))
            end
        | (Raise e, fs') => (Raise e, World fs' (printed w))
        end
    | (Raise e, made) => (Raise e, World made (printed w))
    end.
Proof.
  intros Hname. unfold install.
  unfold Run.bind at 1. unfold Run.lift at 1. cbn [Value.subscript].
  rewrite Hname.
  unfold Run.bind at 1. unfold Run.lift at 1. cbn [div_value].
  unfold Run.bind at 1. unfold on_files at 1.
  destruct (Fs.mkdir_parents _ (files w)) as [[[]|e] made]; [|done].
  rewrite div_descriptor.
  unfold Run.bind at 1. unfold on_files at 1. cbn [files printed].
  destruct (Fs.copy2 _ _ made) as [[[]|e] fs']; [|done].
  unfold announce. destruct verbose.
  - unfold Run.bind at 1. unfold Run.bind at 1. unfold Run.lift at 1.
    destruct (relative_to _ cache_dir) as [shown|e]; done.
  - done.
Qed.

(** A [local] entry whose descriptor is valid, up to the copy. *)
Lemma local_entry_eq manifest_dir cache_dir verbose total cs idx items
    local_path (w : world) node d name :
  let package_path := package_path_of manifest_dir local_path in
  let yaml := package_path ++ ["ArieoPackage.yaml"] in
  Value.lookup "local" items = Some (Value.PStr local_path) →
  Fs.stat (files w) package_path = Some node →
  Fs.stat (files w) yaml = Some (Fs.File d) →
  declares d name →
  process_entry manifest_dir cache_dir verbose total cs idx
    (Value.PDict items) w =
    match Fs.mkdir_parents (Posix.div cache_dir name) (files w) with
    | (Ok _, made) =>
        match Fs.copy2 yaml
                (Posix.div cache_dir name ++ ["ArieoPackage.yaml"]) made with
        | (Ok _, fs') =>
            match announce cache_dir verbose name with
            | Ok shown =>
                (Ok (copied cs),
                 World fs' (printed w ++ [Gathered idx total name shown]))
            | Raise e => (Raise e, World fs' (printed w))
            end
        | (Raise e, fs') => (Raise e, World fs' (printed w))
        end
    | (Raise e, made) => (Raise e, World made (printed w))
    end.
Proof.
  intros package_path yaml Hlocal Hnode Hyaml (Hblank & data & Hload & Hname & Hne).
  rewrite process_entry_unfold. cbn [Value.contains Value.subscript].
  rewrite (proj2 (has_key_true "local" items)) by (by rewrite Hlocal).
  rewrite Hlocal. cbn [Value.str_receiver].
  rewrite gather_local_unfold. cbn zeta.
  fold package_path. rewrite Hnode. fold yaml. rewrite Hyaml.
  rewrite (verify_yaml_loaded _ _ _ _ _ Hyaml Hblank Hload), Hname.
  assert (negb (Value.truthy (Value.PStr name))
          || negb (Value.isinstance_str (Value.PStr name)) = false) as ->.
  { cbn. apply String.eqb_neq in Hne. by rewrite Hne. }
  by apply install_eq.
Qed.


Lemma descriptor_nonempty (folder : path) : folder ++ ["ArieoPackage.yaml"] ≠ [].
Proof. by destruct folder. Qed.





(** *** Entries that end the run *)

(** Entries the loop body cannot handle, with the exception each one
    raises: an object that is no container; a string or a list in which
    [local] or [git] is found, which cannot be subscripted by a string;
    a mapping whose [local] or [git] value is no string. *)
Inductive malformed : Value.t → Exn.t → Prop :=
| entry_none : malformed Value.PNone Exn.TypeError
| entry_bool b : malformed (Value.PBool b) Exn.TypeError
| entry_int n : malformed (Value.PInt n) Exn.TypeError
| entry_str s :
    Py.contains "local" s || Py.contains "git" s = true →
    malformed (Value.PStr s) Exn.TypeError
| entry_list items :
    existsb (Value.is_str "local") items
    || existsb (Value.is_str "git") items = true →
    malformed (Value.PList items) Exn.TypeError
| entry_local_value items v :
    Value.lookup "local" items = Some v →
    Value.isinstance_str v = false →
    malformed (Value.PDict items) Exn.AttributeError
| entry_git_value items v :
    Value.lookup "local" items = None →
    Value.lookup "git" items = Some v →
    Value.isinstance_str v = false →
    malformed (Value.PDict items) Exn.AttributeError.

Lemma malformed_raises manifest_dir cache_dir verbose total cs idx entry e
    (w : world) :
  malformed entry e →
  process_entry manifest_dir cache_dir verbose total cs idx entry w
    = (Raise e, w).
Proof.
  intros Hentry. rewrite process_entry_unfold.
  destruct Hentry as [|b|n|s Hs|items Hitems|items v Hlocal Hv
                      |items v Hlocal Hgit Hv]; try done.
  - cbn. destruct (Py.contains "local" s); [done|].
    cbn in Hs. by rewrite Hs.
  - cbn. destruct (existsb (Value.is_str "local") items); [done|].
    cbn in Hitems. by rewrite Hitems.
  - cbn. rewrite (proj2 (has_key_true "local" items)) by (by rewrite Hlocal).
    rewrite Hlocal. by destruct v.
  - cbn. rewrite (proj2 (has_key_false "local" items)) by done.
    rewrite (proj2 (has_key_true "git" items)) by (by rewrite Hgit).
    rewrite Hgit. by destruct v.
Qed.

Lemma for_entries_app (body : counters → nat → Value.t → M counters)
    before rest :
  ∀ idx cs (w : world),
    for_entries body idx (before ++ rest) cs w =
      match for_entries body idx before cs w with
      | (Ok cs1, w1) => for_entries body (idx + length before) rest cs1 w1
      | (Raise e, w1) => (Raise e, w1)
      end.
Proof.
  induction before as [|entry before IH]; intros idx cs w;
    cbn [app for_entries length].
  - by rewrite Nat.add_0_r.
  - unfold Run.bind.
    destruct (body cs idx entry w) as [[cs1|e] w1]; [|done].
    rewrite IH. by rewrite Nat.add_succ_r.
Qed.

(** X4.  The loop isolates the errors it tests for, and no others: at
    an entry that is [None], a number, a string or list holding a tag,
    or a mapping whose tag has a value that is no string, the loop ends
    with the exception; the entries after it are not processed, and the
    world is as the entries before it left it. *)
Theorem malformed_entry_ends_the_run manifest_dir cache_dir verbose total
    idx before entry after cs (w : world) cs1 w1 e
    (Hbefore :
       for_entries (process_entry manifest_dir cache_dir verbose total)
         idx before cs w = (Ok cs1, w1))
    (Hentry : malformed entry e) :
  for_entries (process_entry manifest_dir cache_dir verbose total)
    idx (before ++ entry :: after) cs w = (Raise e, w1).
Proof.
  rewrite for_entries_app, Hbefore. cbn [for_entries].
  unfold Run.bind at 1. by rewrite (malformed_raises _ _ _ _ _ _ _ _ _ Hentry).
Qed.

(** *** A package that sits where its copy goes *)

(** X3.  A package that sits in the cache folder of its own name is
    not copied: once the directories on the way to the folder are
    made, [shutil.copy2] refuses to copy the descriptor onto itself,
    and the exception ends the run. *)
Theorem own_destination_raises manifest_dir cache_dir verbose total cs idx
    items local_path (w : world) d name
    (Hlocal : Value.lookup "local" items = Some (Value.PStr local_path))
    (Hdescriptor :
       Fs.stat (files w)
         (package_path_of manifest_dir local_path ++ ["ArieoPackage.yaml"])
       = Some (Fs.File d))
    (Hname : declares d name)
    (Hfolder :
       Fs.stat (files w) (package_path_of manifest_dir local_path)
       = Some Fs.Dir)
    (Hway : ∀ q, q ∈ chain [] (Posix.div cache_dir name) →
                 ¬ is_file (files w !! q))
    (Hsame : folder_of cache_dir name
             = package_path_of manifest_dir local_path) :
  let yaml :=
    package_path_of manifest_dir local_path ++ ["ArieoPackage.yaml"] in
  ∃ made,
    Fs.mkdir_parents (Posix.div cache_dir name) (files w) = (Ok (), made) ∧
    process_entry manifest_dir cache_dir verbose total cs idx
      (Value.PDict items) w
    = (Raise (Exn.SameFileError yaml
                (Posix.div cache_dir name ++ ["ArieoPackage.yaml"])),
       World made (printed w)) ∧
    (∀ q, made !! q = if decide (q ∈ chain [] (Posix.div cache_dir name))
                      then Some Fs.Dir else files w !! q).
Proof.
  intros yaml.
  rewrite (local_entry_eq _ _ _ _ _ _ _ _ _ _ _ _ Hlocal Hfolder Hdescriptor
             Hname).
  fold yaml.
  destruct (mkdir_ok (Posix.div cache_dir name) (files w) Hway)
    as [made Hmade].
  rewrite Hmade. exists made. split; [done|].
  destruct (mkdir_inv _ _ _ Hmade) as [_ Hlook]. split; [|done].
  assert (Hsrc : Fs.stat made yaml = Some (Fs.File d)).
  { rewrite stat_lookup in * by apply descriptor_nonempty.
    rewrite Hlook. rewrite decide_False; [done|].
    intros Hin%Hway. fold yaml in Hdescriptor. by rewrite Hdescriptor in Hin. }
  rewrite (copy2_same yaml _ made d); [done| |done].
  rewrite (follow_made _ _ _ Hmade).
  fold (folder_of cache_dir name). by rewrite Hsame.
Qed.


(** *** What a run writes and what it reports *)

Definition is_gathered (l : line) : bool :=
  match l with
  | Gathered _ _ _ _ => true
  | _ => false
  end.

Lemma quiet_not_gathered lines :
  quiet lines → List.filter is_gathered lines = [].
Proof.
  intros Hquiet. induction lines as [|l lines IH]; [done|]. cbn.
  destruct l; cbn; try (apply IH; intros ???? Hin;
                        eapply Hquiet, elem_of_cons; by right).
  exfalso. eapply Hquiet, elem_of_cons. by left.
Qed.

(** One entry: either no file changes and nothing is copied, or one
    line tells of the copy and the copied counter goes up by one. *)
Lemma process_entry_report manifest_dir cache_dir verbose total cs idx entry
    (s : world) cs1 s1 :
  process_entry manifest_dir cache_dir verbose total cs idx entry s
    = (Ok cs1, s1) →
  ∃ lines,
    printed s1 = printed s ++ lines ∧
    copied_count cs1
      = copied_count cs + length (List.filter is_gathered lines) ∧
    (copied_count cs1 = copied_count cs → files s1 = files s).
Proof.
  intros [(lines & -> & Hquiet & Hcount & _)
         |(local_path & d & name & shown & made & _ & -> & _ & _ & _ & _
           & Hprinted & _)]%process_entry_step.
  - exists lines. rewrite (quiet_not_gathered _ Hquiet). cbn. split_and!; [done|lia|done].
  - eexists. split; [done|]. cbn. split; [lia|lia].
Qed.

Lemma for_entries_report manifest_dir cache_dir verbose total entries :
  ∀ idx cs (s : world) cs' s',
    for_entries (process_entry manifest_dir cache_dir verbose total)
      idx entries cs s = (Ok cs', s') →
    ∃ lines,
      printed s' = printed s ++ lines ∧
      copied_count cs'
        = copied_count cs + length (List.filter is_gathered lines) ∧
      (copied_count cs' = copied_count cs → files s' = files s).
Proof.
  induction entries as [|entry entries IH]; intros idx cs s cs' s'; cbn.
  - intros [= <- <-]. exists []. by rewrite app_nil_r, Nat.add_0_r.
  - unfold Run.bind at 1.
    destruct (process_entry _ _ _ _ cs idx entry s) as [[cs1|e] s1] eqn:Hstep;
      [|done].
    intros (rest & Hrest & Hcount & Hsame)%IH.
    apply process_entry_report in Hstep as (lines & Hlines & Hone & Hfiles).
    exists (lines ++ rest). rewrite Hrest, Hlines, <- app_assoc.
    rewrite List.filter_app, length_app.
    split_and!; [done|lia|].
    intros Hnone. rewrite Hsame by lia. apply Hfiles. lia.
Qed.

Lemma prepare_lines cache_dir clean verbose (w : world) w1 :
  prepare cache_dir clean verbose w = (Ok (), w1) →
  ∃ lines, printed w1 = printed w ++ lines ∧
           List.filter is_gathered lines = [].
Proof.
  unfold prepare, Run.bind, Run.when, Run.ret, path_exists, print, on_files.
  destruct clean; cbn.
  - destruct (Fs.exists_ (files w) cache_dir); cbn.
    + destruct verbose; cbn.
      * destruct (Fs.rmtree cache_dir (files w)) as [[[]|e] fs1]; [|done].
        cbn. destruct (Fs.mkdir_parents cache_dir fs1) as [[[]|e] fs2];
          [|done].
        intros [= <-]. by exists [CleaningCache cache_dir].
      * destruct (Fs.rmtree cache_dir (files w)) as [[[]|e] fs1]; [|done].
        cbn. destruct (Fs.mkdir_parents cache_dir fs1) as [[[]|e] fs2];
          [|done].
        intros [= <-]. exists []. by rewrite app_nil_r.
    + destruct (Fs.mkdir_parents cache_dir (files w)) as [[[]|e] fs2];
        [|done].
      intros [= <-]. exists []. by rewrite app_nil_r.
  - destruct (Fs.mkdir_parents cache_dir (files w)) as [[[]|e] fs2];
      [|done].
    intros [= <-]. exists []. by rewrite app_nil_r.
Qed.

(** X5.  The count a run returns is the number of lines it printed
    for a gathered package. *)
Theorem count_is_the_number_of_copies manifest cache_dir clean verbose
    (w : world) count w'
    (Hrun :
       gather_packages_from_manifest manifest cache_dir clean verbose w
         = (Ok count, w')) :
  ∃ lines,
    printed w' = printed w ++ lines ∧
    count = length (List.filter is_gathered lines).
Proof.
  destruct (Value.truthy (Value.get "packages" (Value.PList []) manifest))
    eqn:Hsome.
  - destruct (gather_inv _ _ _ _ _ _ _ Hsome Hrun)
      as (manifest_dir & entries & w1 & cs & w2 & _ & _ & Hprepare & Hloop
          & -> & ->).
    apply prepare_lines in Hprepare as (first & Hfirst & Hnone).
    apply for_entries_report in Hloop as (lines & Hlines & Hcount & _).
    cbn in Hlines, Hcount.
    exists (first ++ [ProcessingEntries (length entries)] ++ lines
            ++ results cs).
    cbn [printed]. rewrite Hlines, Hfirst, <- !app_assoc. split; [done|].
    rewrite !List.filter_app, !length_app, Hnone. cbn. lia.
  - rewrite (gather_falsy _ _ _ _ _ Hsome) in Hrun.
    destruct (resolve_value _); [|done]. injection Hrun as <- <-.
    by exists [NoPackagesDefined].
Qed.

(** X6.  A run without [clean] that returns 0 has written nothing: the
    files are as they were, but for the cache directory, which has been
    made when the manifest lists entries. *)
Theorem nothing_copied_nothing_written manifest cache_dir verbose
    (w : world) w'
    (Hrun :
       gather_packages_from_manifest manifest cache_dir false verbose w
         = (Ok 0, w')) :
  files w' = files w ∨
  Fs.mkdir_parents cache_dir (files w) = (Ok (), files w').
Proof.
  destruct (Value.truthy (Value.get "packages" (Value.PList []) manifest))
    eqn:Hsome.
  - right.
    destruct (gather_inv _ _ _ _ _ _ _ Hsome Hrun)
      as (manifest_dir & entries & w1 & cs & w2 & _ & _ & Hprepare & Hloop
          & Hcount & ->).
    rewrite prepare_without_clean in Hprepare.
    destruct (Fs.mkdir_parents cache_dir (files w)) as [r fs1] eqn:Hmade.
    injection Hprepare as -> <-.
    apply for_entries_report in Hloop as (_ & _ & _ & Hsame).
    cbn in Hsame. cbn [files]. by rewrite Hsame.
  - left. rewrite (gather_falsy _ _ _ _ _ Hsome) in Hrun.
    destruct (resolve_value _); [|done]. by injection Hrun as <-.
Qed.

(** X7.  Without [clean] a run removes nothing: a directory stays a
    directory and a file stays a file, with its content or another. *)
Theorem without_clean_nothing_is_removed manifest cache_dir verbose
    (w : world) count w'
    (Hrun :
       gather_packages_from_manifest manifest cache_dir false verbose w
         = (Ok count, w')) :
  ∀ q,
    (files w !! q = Some Fs.Dir → files w' !! q = Some Fs.Dir) ∧
    (∀ content, files w !! q = Some (Fs.File content) →
                ∃ content', files w' !! q = Some (Fs.File content')).
Proof.
  assert (Hgrows : grows (files w) (files w')).
  { destruct (Value.truthy (Value.get "packages" (Value.PList []) manifest))
      eqn:Hsome.
    - destruct (gather_inv _ _ _ _ _ _ _ Hsome Hrun)
        as (manifest_dir & entries & w1 & cs & w2 & _ & _ & Hprepare & Hloop
            & _ & ->).
      rewrite prepare_without_clean in Hprepare.
      destruct (Fs.mkdir_parents cache_dir (files w)) as [r fs1] eqn:Hmade.
      injection Hprepare as -> <-.
      apply for_entries_grows in Hloop. cbn in Hloop.
      eapply grows_trans; [by eapply mkdir_grows|done].
    - rewrite (gather_falsy _ _ _ _ _ Hsome) in Hrun.
      destruct (resolve_value _); [|done]. injection Hrun as _ <-.
      apply grows_refl. }
  intros q. destruct (Hgrows q) as [Hdir Hfile]. split; [done|].
  intros content Hq. rewrite Hq in Hfile. specialize (Hfile I).
  destruct (files w' !! q) as [[content'|]|]; [by eexists|done|done].
Qed.


(** *** The clean step *)









(** *** What [verbose] changes *)

Lemma gather_local_quietly cache_dir total cs idx package_path
    (s t : world) cs1 s1 :
  files t = files s →
  gather_local cache_dir true total cs idx package_path s = (Ok cs1, s1) →
  ∃ t1,
    gather_local cache_dir false total cs idx package_path t = (Ok cs1, t1) ∧
    files t1 = files s1.
Proof.
  intros Hfiles. rewrite !gather_local_unfold. cbn zeta. rewrite Hfiles.
  destruct (Fs.stat (files s) package_path) as [node|].
  2:{ intros [= <- <-]. by eexists. }
  destruct (Fs.stat (files s) (package_path ++ ["ArieoPackage.yaml"]))
    as [ynode|] eqn:Hynode.
  2:{ intros [= <- <-]. by eexists. }
  destruct (verify_yaml (package_path ++ ["ArieoPackage.yaml"]) false s)
    as [[[[is_valid pkg_data] error_msg]|e] s'] eqn:Hverify; [|done].
  assert (Hview :
    Fs.stat (files t) (package_path ++ ["ArieoPackage.yaml"]) =
    Fs.stat (files s) (package_path ++ ["ArieoPackage.yaml"]))
    by (by rewrite Hfiles).
  destruct (verify_yaml_stat _ _ _ _ _ Hview Hverify) as [-> ->].
  destruct is_valid.
  2:{ intros [= <- <-]. eexists. split; [done|]. by cbn. }
  destruct pkg_data as [data|]; [|done].
  apply verify_yaml_valid_inv in Hverify
    as (d & name & _ & _ & _ & Hname & _).
  rewrite !(install_eq _ _ _ _ _ _ _ _ _ Hname). rewrite Hfiles.
  destruct (Fs.mkdir_parents _ (files s)) as [[[]|e] made]; [|done].
  destruct (Fs.copy2 _ _ made) as [[[]|e] fs']; [|done].
  destruct (announce cache_dir true name) as [shown|e]; [|done].
  intros [= <- <-]. by eexists.
Qed.

Lemma process_entry_quietly manifest_dir cache_dir total cs idx entry
    (s t : world) cs1 s1 :
  files t = files s →
  process_entry manifest_dir cache_dir true total cs idx entry s
    = (Ok cs1, s1) →
  ∃ t1,
    process_entry manifest_dir cache_dir false total cs idx entry t
      = (Ok cs1, t1) ∧
    files t1 = files s1.
Proof.
  intros Hfiles. rewrite !process_entry_unfold.
  destruct (Value.contains "local" entry) as [[|]|]; [| |done].
  - destruct (Value.subscript entry "local") as [local_value|]; [|done].
    destruct (Value.str_receiver local_value) as [local_path|]; [|done].
    by apply gather_local_quietly.
  - destruct (Value.contains "git" entry) as [[|]|]; [| |done].
    + destruct (Value.subscript entry "git") as [git_url|]; [|done].
      destruct (Value.str_receiver git_url) as [url|]; [|done].
      intros [= <- <-]. by eexists.
    + intros [= <- <-]. by eexists.
Qed.

Lemma for_entries_quietly manifest_dir cache_dir total entries :
  ∀ idx cs (s t : world) cs' s',
    files t = files s →
    for_entries (process_entry manifest_dir cache_dir true total)
      idx entries cs s = (Ok cs', s') →
    ∃ t',
      for_entries (process_entry manifest_dir cache_dir false total)
        idx entries cs t = (Ok cs', t') ∧
      files t' = files s'.
Proof.
  induction entries as [|entry entries IH]; intros idx cs s t cs' s' Hfiles;
    cbn [for_entries].
  - intros [= <- <-]. by exists t.
  - unfold Run.bind.
    destruct (process_entry _ _ true _ cs idx entry s) as [[cs1|e] s1]
      eqn:Hstep; [|done].
    destruct (process_entry_quietly _ _ _ _ _ _ _ _ _ _ Hfiles Hstep)
      as (t1 & -> & Hfiles1).
    by apply IH.
Qed.

(** What the clean step and the making of the cache directory do to
    the files. *)
Definition prepared (cache_dir : path) (clean : bool)
    (fs : gmap path Fs.node) : result () * gmap path Fs.node :=
  if clean && Fs.exists_ fs cache_dir
  then match Fs.rmtree cache_dir fs with
       | (Ok _, fs1) => Fs.mkdir_parents cache_dir fs1
       | (Raise e, fs1) => (Raise e, fs1)
       end
  else Fs.mkdir_parents cache_dir fs.

Lemma prepare_eq cache_dir clean verbose (w : world) :
  prepare cache_dir clean verbose w =
    let '(r, fs) := prepared cache_dir clean (files w) in
    (r, World fs
          (printed w ++
           if clean && Fs.exists_ (files w) cache_dir && verbose
           then [CleaningCache cache_dir] else [])).
Proof.
  unfold prepare, prepared, Run.bind, Run.when, Run.ret, path_exists, print,
    on_files.
  destruct clean; cbn.
  - destruct (Fs.exists_ (files w) cache_dir); cbn.
    + destruct verbose; cbn.
      * destruct (Fs.rmtree cache_dir (files w)) as [[[]|e] fs1]; [|done].
        cbn. by destruct (Fs.mkdir_parents cache_dir fs1) as [[[]|e] fs2].
      * destruct (Fs.rmtree cache_dir (files w)) as [[[]|e] fs1];
          [|by rewrite app_nil_r].
        cbn. rewrite app_nil_r.
        by destruct (Fs.mkdir_parents cache_dir fs1) as [[[]|e] fs2].
    + rewrite app_nil_r.
      by destruct (Fs.mkdir_parents cache_dir (files w)) as [[[]|e] fs2].
  - rewrite app_nil_r.
    by destruct (Fs.mkdir_parents cache_dir (files w)) as [[[]|e] fs2].
Qed.

(** X9.  When a verbose run returns, the run without [verbose] returns
    the same count and leaves the same files. *)
Theorem verbose_changes_no_file manifest cache_dir clean (w : world) count w'
    (Hrun :
       gather_packages_from_manifest manifest cache_dir clean true w
         = (Ok count, w')) :
  ∃ w'',
    gather_packages_from_manifest manifest cache_dir clean false w
      = (Ok count, w'') ∧
    files w'' = files w'.
Proof.
  destruct (Value.truthy (Value.get "packages" (Value.PList []) manifest))
    eqn:Hsome.
  - destruct (gather_inv _ _ _ _ _ _ _ Hsome Hrun)
      as (manifest_dir & entries & w1 & cs & w2 & Hdir & Hiter & Hprepare
          & Hloop & -> & ->).
    rewrite (gather_unfold _ _ _ _ _ _ _ Hdir Hsome Hiter).
    rewrite prepare_eq in Hprepare |- *.
    destruct (prepared cache_dir clean (files w)) as [[[]|e] fs1]; [|done].
    injection Hprepare as <-.
    cbn [files printed] in Hloop |- *.
    match goal with
    | |- context [for_entries _ 1 entries _ ?quiet] =>
        eapply for_entries_quietly with (t := quiet) in Hloop
          as (t' & -> & Hfiles); [|done]
    end.
    eexists. split; [done|]. by cbn.
  - rewrite (gather_falsy _ _ _ true _ Hsome) in Hrun.
    rewrite (gather_falsy _ _ _ false _ Hsome).
    destruct (resolve_value _); [|done]. injection Hrun as <- <-.
    by eexists.
Qed.

(** *** A name that is an absolute path *)





(** *** The manifest and its directory *)

Lemma is_str_eq k (v : Value.t) : Value.is_str k v = true ↔ v = Value.PStr k.
Proof.
  destruct v; cbn; try (split; [done|congruence]).
  rewrite String.eqb_eq. split; [by intros ->|by intros [= ->]].
Qed.

Lemma lookup_set_item_eq k v (d : Value.dict) :
  Value.lookup k (Value.set_item k v d) = Some v.
Proof.
  induction d as [|[k' v'] d IH]; cbn.
  - by rewrite String.eqb_refl.
  - destruct (Value.is_str k k') eqn:Hk; cbn; by rewrite Hk.
Qed.

Lemma lookup_set_item_ne k k' v (d : Value.dict) :
  k ≠ k' → Value.lookup k' (Value.set_item k v d) = Value.lookup k' d.
Proof.
  intros Hne. induction d as [|[key v'] d IH]; cbn.
  - apply String.eqb_neq in Hne. by rewrite Hne.
  - destruct (Value.is_str k key) eqn:Hk; cbn; [|by rewrite IH].
    apply is_str_eq in Hk as ->. cbn.
    apply String.eqb_neq in Hne. by rewrite Hne.
Qed.

(** The items of the object a manifest file holds; an object that is
    falsy stands for the empty dict. *)
Definition items_of (loaded : Value.t) : Value.dict :=
  match loaded with
  | Value.PDict items => items
  | _ => []
  end.

Lemma with_manifest_dir_inv loaded d manifest :
  with_manifest_dir loaded d = Ok manifest →
  manifest = Value.set_item "_manifest_dir" (Value.PStr d) (items_of loaded).
Proof.
  unfold with_manifest_dir.
  destruct loaded as [|[]|n|str|[]|[]]; cbn [Value.truthy items_of];
    try destruct (negb _); try done; by intros [= <-].
Qed.

(** X10.  A manifest that loads is the mapping of its file, or the
    empty one for a falsy document, with the directory of the file
    under [_manifest_dir], also when the file has that key; loading
    prints nothing and changes no file. *)
Theorem load_manifest_records_the_directory manifest_file_path (w : world)
    manifest w'
    (Hload : load_manifest manifest_file_path w = (Ok manifest, w')) :
  let manifest_path := manifest_path_of manifest_file_path in
  w' = w ∧
  ∃ content loaded,
    written_stat (files w) manifest_path = Some (Fs.File content) ∧
    safe_load content = Ok loaded ∧
    Value.lookup "_manifest_dir" manifest
      = Some (Value.PStr (Posix.render (parent_resolved manifest_path))) ∧
    ∀ k, k ≠ "_manifest_dir" →
         Value.lookup k manifest = Value.lookup k (items_of loaded).
Proof.
  intros manifest_path.
  destruct (load_manifest_cases manifest_file_path w) as (l & _ & Hcases).
  cbn zeta in Hcases. fold manifest_path in Hcases.
  rewrite Hcases in Hload. clear Hcases.
  destruct (written_stat (files w) manifest_path) as [[content|]|]; try done.
  destruct (safe_load content) as [loaded|e] eqn:Hloaded.
  2:{ by destruct (Exn.is_Exception e). }
  destruct (with_manifest_dir loaded _) as [m|e] eqn:Hwith; [|done].
  injection Hload as <- <-. split; [done|].
  apply with_manifest_dir_inv in Hwith as ->.
  exists content, loaded. split_and!; try done.
  - apply lookup_set_item_eq.
  - intros k Hk. by apply lookup_set_item_ne.
Qed.


(** *** Paths written out and read back *)

Fixpoint free_of (c : ascii) (s : string) : bool :=
  match s with
  | EmptyString => true
  | String a s' => negb (Ascii.eqb a c) && free_of c s'
  end.

(** A segment as a resolved path has them. *)
Definition proper (s : string) : Prop :=
  s ≠ "" ∧ s ≠ "." ∧ s ≠ ".." ∧ free_of "/" s = true.

Definition canonical (p : path) : Prop := Forall proper p.

Lemma split_free c s : free_of c s = true → Py.split c s = [s].
Proof.
  induction s as [|a s IH]; cbn [Py.split free_of]; [done|].
  intros [Ha Hs]%andb_prop. apply negb_true_iff in Ha. rewrite Ha.
  by rewrite (IH Hs).
Qed.

Lemma split_app c p x :
  free_of c p = true → Py.split c (p +:+ String c x) = p :: Py.split c x.
Proof.
  induction p as [|a p IH]; simpl.
  - by rewrite Ascii.eqb_refl.
  - intros [Ha Hp]%andb_prop. apply negb_true_iff in Ha. rewrite Ha.
    by rewrite (IH Hp).
Qed.

Lemma split_pieces_free c s :
  Forall (λ piece, free_of c piece = true) (Py.split c s).
Proof.
  induction s as [|a s IH]; cbn [Py.split].
  - by constructor.
  - destruct (Ascii.eqb a c) eqn:Ha.
    + by constructor.
    + destruct (Py.split c s) as [|piece pieces].
      * constructor; [|done]. cbn [free_of]. by rewrite Ha.
      * inversion IH; subst. constructor; [|done]. cbn [free_of].
        by rewrite Ha.
Qed.

Lemma split_join (p : path) :
  Forall (λ seg, free_of "/" seg = true) p → p ≠ [] →
  Py.split "/" (Py.join "/" p) = p.
Proof.
  induction p as [|seg [|next rest] IH]; [done|..].
  - intros Hp _. cbn. apply split_free. by inversion Hp.
  - intros Hp _. inversion Hp as [|?? Hseg Hrest]; subst.
    change (Py.join "/" (seg :: next :: rest))
      with (seg +:+ String "/" (Py.join "/" (next :: rest))).
    rewrite split_app by done. by rewrite IH.
Qed.

Lemma render_canonical (p : path) :
  canonical p → Posix.render p = "/" +:+ Py.join "/" p.
Proof.
  intros Hp. destruct p as [|seg rest]; [done|].
  inversion Hp as [|?? (Hempty & _) _]; subst. by destruct seg.
Qed.

Lemma segments_render (p : path) :
  canonical p → Posix.segments (Posix.render p) = p.
Proof.
  intros Hp. rewrite render_canonical by done. unfold Posix.segments.
  change ("/" +:+ Py.join "/" p) with (String "/" (Py.join "/" p)).
  cbn [Py.split]. rewrite Ascii.eqb_refl. cbn [List.filter String.eqb negb andb].
  destruct (decide (p = [])) as [->|Hne]; [done|].
  rewrite split_join; [|by eapply Forall_impl; [done|]; intros ? (_&_&_&?)|done].
  induction Hp as [|seg p (Hempty & Hdot & _) _ IH]; [done|]. cbn.
  apply String.eqb_neq in Hempty, Hdot. rewrite Hempty, Hdot. cbn.
  destruct p; [done|]. by rewrite IH.
Qed.

Lemma walk_plain here segs :
  Forall (λ seg, seg ≠ ".." ∧ seg ≠ "") segs →
  Posix.walk here segs = here ++ segs.
Proof.
  intros Hsegs. revert here.
  induction Hsegs as [|seg segs [Hup Hempty] _ IH]; intros here; cbn.
  - by rewrite app_nil_r.
  - apply String.eqb_neq in Hup, Hempty. unfold Posix.step.
    rewrite Hup, Hempty, IH. by rewrite <- app_assoc.
Qed.

Lemma canonical_plain (p : path) :
  canonical p → Forall (λ seg, seg ≠ ".." ∧ seg ≠ "") p.
Proof. intros Hp. eapply Forall_impl; [done|]. by intros ? (?&_&?&_). Qed.

(** [Path(str(p)).resolve()] is [p] again. *)
Lemma resolve_render base (p : path) :
  canonical p → Posix.resolve base (Posix.render p) = p.
Proof.
  intros Hp. unfold Posix.resolve. rewrite segments_render by done.
  assert (Posix.is_absolute (Posix.render p) = true) as ->
    by (by rewrite render_canonical).
  rewrite walk_plain; [done|]. by apply canonical_plain.
Qed.

Lemma segments_kept s :
  Forall (λ seg, seg ≠ "" ∧ seg ≠ "." ∧ free_of "/" seg = true)
    (Posix.segments s).
Proof.
  unfold Posix.segments. apply List.Forall_forall.
  intros seg [Hin Hkept]%List.filter_In.
  apply andb_prop in Hkept as [Hempty%negb_true_iff Hdot%negb_true_iff].
  apply String.eqb_neq in Hempty, Hdot. split_and!; [done|done|].
  pose proof (split_pieces_free "/" s) as Hfree.
  by eapply List.Forall_forall in Hfree.
Qed.

Lemma canonical_removelast (p : path) : canonical p → canonical (removelast p).
Proof.
  intros Hp. induction Hp as [|seg p Hseg Hp IH]; [constructor|]. cbn.
  destruct p; [constructor|]. by constructor.
Qed.

Lemma kept_removelast (segs : list string) :
  Forall (λ seg, seg ≠ "" ∧ seg ≠ "." ∧ free_of "/" seg = true) segs →
  Forall (λ seg, seg ≠ "" ∧ seg ≠ "." ∧ free_of "/" seg = true)
    (removelast segs).
Proof.
  intros Hp. induction Hp as [|seg p Hseg Hp IH]; [constructor|]. cbn.
  destruct p; [constructor|]. by constructor.
Qed.

Lemma canonical_walk here segs :
  canonical here →
  Forall (λ seg, seg ≠ "" ∧ seg ≠ "." ∧ free_of "/" seg = true) segs →
  canonical (Posix.walk here segs).
Proof.
  intros Hhere Hsegs. revert here Hhere.
  induction Hsegs as [|seg segs (Hempty & Hdot & Hfree) _ IH];
    intros here Hhere; cbn; [done|].
  unfold Posix.step. destruct (String.eqb seg "..") eqn:Hup.
  - by apply IH, canonical_removelast.
  - rewrite (proj2 (String.eqb_neq seg "") Hempty).
    apply IH. apply Forall_app. split; [done|]. constructor; [|constructor].
    apply String.eqb_neq in Hup. by split_and!.
Qed.

Lemma canonical_resolve base s :
  canonical base → canonical (Posix.resolve base s).
Proof.
  intros Hbase. unfold Posix.resolve.
  apply canonical_walk; [|apply segments_kept].
  destruct (Posix.is_absolute s); [constructor|done].
Qed.

Lemma canonical_parent_resolved s :
  canonical cwd → canonical (parent_resolved s).
Proof.
  intros Hcwd. unfold parent_resolved, start_of.
  apply canonical_walk; [|apply kept_removelast, segments_kept].
  destruct (Posix.is_absolute s); [constructor|done].
Qed.

(** X11.  The directory that [gather_packages_from_manifest] and
    [main] read back from a loaded manifest is the directory of the
    manifest file: writing the path out and parsing it again loses
    nothing. *)
Theorem manifest_dir_is_read_back manifest_file_path (w : world) manifest w'
    (Hcwd : canonical cwd)
    (Hload : load_manifest manifest_file_path w = (Ok manifest, w')) :
  resolve_value (Value.get "_manifest_dir" (Value.PStr ".") manifest)
    = Ok (parent_resolved (manifest_path_of manifest_file_path)).
Proof.
  destruct (load_manifest_cases manifest_file_path w) as (l & _ & Hcases).
  cbn zeta in Hcases. rewrite Hcases in Hload. clear Hcases.
  destruct (written_stat (files w) _) as [[content|]|]; try done.
  destruct (safe_load content) as [loaded|e].
  2:{ by destruct (Exn.is_Exception e). }
  destruct (with_manifest_dir loaded _) as [m|e] eqn:Hwith; [|done].
  injection Hload as <- <-.
  apply with_manifest_dir_inv in Hwith as ->.
  unfold Value.get. rewrite lookup_set_item_eq.
  cbn [default from_option id resolve_value].
  unfold resolve. rewrite resolve_render; [done|].
  by apply canonical_parent_resolved.
Qed.


(** *** [main], from the manifest to the exit status *)

Definition closing (count : nat) (cache_dir : path) : list line :=
  [Rule;
   if (0 <? count)%nat then GatheringComplete count cache_dir
   else NothingGathered;
   Rule].

Lemma main_eq (a : args) (w : world) :
  main a w =
    match load_manifest (manifest_file a)
            (World (files w) (printed w ++ [Title; Rule])) with
    | (Ok manifest, w1) =>
        match cache_dir_of manifest with
        | Ok (manifest_dir, cache_dir) =>
            match gather_packages_from_manifest manifest cache_dir
                    (clean a) (verbose a)
                    (if verbose a
                     then World (files w1)
                            (printed w1 ++ [ManifestDirectory manifest_dir;
                                            CacheDirectory cache_dir])
                     else w1) with
            | (Ok count, w2) =>
                (Raise (Exn.SystemExit (if (0 <? count)%nat then 0 else 1)),
                 World (files w2) (printed w2 ++ closing count cache_dir))
            | (Raise e, w2) => (Raise e, w2)
            end
        | Raise e => (Raise e, w1)
        end
    | (Raise e, w1) => (Raise e, w1)
    end.
Proof.
  unfold main, Run.bind, print, Run.lift, Run.raise, closing.
  cbn [files printed].
  rewrite <- (app_assoc (printed w) [Title] [Rule]). cbn [app].
  destruct (load_manifest _ _) as [[manifest|e] w1]; [|done].
  destruct (cache_dir_of manifest) as [[manifest_dir cache_dir]|e]; [|done].
  destruct (verbose a); cbn [Run.when Run.ret files printed];
    rewrite <- ?app_assoc; cbn [app];
    destruct (gather_packages_from_manifest _ _ _ _ _) as [[count|e] w2];
    try done;
    destruct count; cbn [files printed Nat.ltb Nat.leb];
    by rewrite <- !app_assoc.
Qed.

(** A run, taken apart with nothing assumed. *)
Lemma gather_eq manifest cache_dir clean verbose (w : world) :
  let packages_list := Value.get "packages" (Value.PList []) manifest in
  gather_packages_from_manifest manifest cache_dir clean verbose w =
    match resolve_value
            (Value.get "_manifest_dir" (Value.PStr ".") manifest) with
    | Raise e => (Raise e, w)
    | Ok manifest_dir =>
        if negb (Value.truthy packages_list)
        then (Ok 0, World (files w) (printed w ++ [NoPackagesDefined]))
        else
          match prepare cache_dir clean verbose w with
          | (Raise e, w1) => (Raise e, w1)
          | (Ok _, w1) =>
              match Value.len packages_list with
              | Raise e => (Raise e, w1)
              | Ok total =>
                  let started :=
                    World (files w1)
                      (printed w1 ++ [ProcessingEntries total]) in
                  match Value.iter packages_list with
                  | Raise e => (Raise e, started)
                  | Ok entries =>
                      match for_entries
                              (process_entry manifest_dir cache_dir verbose
                                 total)
                              1 entries (Counters 0 0 0) started with
                      | (Ok cs, w2) =>
                          (Ok (copied_count cs),
                           World (files w2) (printed w2 ++ results cs))
                      | (Raise e, w2) => (Raise e, w2)
                      end
                  end
              end
          end
    end.
Proof.
  cbn zeta. unfold gather_packages_from_manifest, prepare.
  unfold Run.bind, Run.lift.
  destruct (resolve_value _) as [manifest_dir|e]; [|done].
  destruct (negb (Value.truthy _)); [done|].
  match goal with
  | |- (let (_, _) := ?m in _) = _ =>
      destruct m as [[found|e] w0]; cbn beta iota; [|done]
  end.
  match goal with
  | |- (let (_, _) := ?m in _) = _ =>
      destruct m as [[[]|e] w0']; cbn beta iota; [|done]
  end.
  destruct (on_files (Fs.mkdir_parents cache_dir) w0') as [[[]|e] w1];
    cbn beta iota; [|done].
  destruct (Value.len _) as [total|e]; [|done].
  unfold print at 1. cbn beta iota. cbn [files printed].
  destruct (Value.iter _) as [entries|e]; [|done].
  destruct (for_entries _ 1 entries _ _) as [[cs|e] w2]; cbn beta iota;
    [|done].
  unfold print, Run.ret, results. cbn.
  by rewrite <- !app_assoc.
Qed.

(** *** The exceptions a run can end with *)

Section Raised.
Hypothesis Hload : ∀ s e, safe_load s = Raise e → Exn.is_Exception e = true.

Lemma mkdir_from_raised again seen here segs fs e fs' :
  Fs.mkdir_from again seen here segs fs = (Raise e, fs') →
  Exn.is_Exception e = true.
Proof.
  revert again seen here fs.
  induction segs as [|seg rest IH]; intros again seen here fs; cbn; [done|].
  destruct (String.eqb seg ".." || String.eqb seg ""); [apply IH|].
  destruct (fs !! (here ++ [seg])) as [[content|]|]; [|apply IH..].
  intros [= <- <-]. by destruct again.
Qed.

Lemma copy2_raised src dst fs e fs' :
  Fs.copy2 src dst fs = (Raise e, fs') → Exn.is_Exception e = true.
Proof.
  unfold Fs.copy2. repeat case_match; by intros [= <- <-].
Qed.

Lemma rmtree_raised p fs e fs' :
  Fs.rmtree p fs = (Raise e, fs') → Exn.is_Exception e = true.
Proof.
  unfold Fs.rmtree. repeat case_match; by intros [= <- <-].
Qed.

Lemma prepare_raised cache_dir clean verbose (w : world) e w' :
  prepare cache_dir clean verbose w = (Raise e, w') →
  Exn.is_Exception e = true.
Proof.
  rewrite prepare_eq. unfold prepared.
  destruct (clean && Fs.exists_ (files w) cache_dir).
  - destruct (Fs.rmtree cache_dir (files w)) as [[[]|e1] fs1] eqn:Hrm.
    + destruct (Fs.mkdir_parents cache_dir fs1) as [[[]|e2] fs2] eqn:Hmk;
        [done|].
      intros [= <- <-]. by eapply mkdir_from_raised.
    + intros [= <- <-]. by eapply rmtree_raised.
  - destruct (Fs.mkdir_parents cache_dir (files w)) as [[[]|e2] fs2] eqn:Hmk;
      [done|].
    intros [= <- <-]. by eapply mkdir_from_raised.
Qed.

Lemma verify_yaml_returns yaml_path verbose (w : world) e w' :
  verify_yaml yaml_path verbose w ≠ (Raise e, w').
Proof using Hload.
  destruct (Fs.stat (files w) yaml_path) as [[d|]|] eqn:Hstat.
  - destruct (decide (Py.strip d = "")) as [Hblank|Hblank].
    { by rewrite (verify_yaml_blank _ _ _ _ Hstat Hblank). }
    destruct (safe_load d) as [loaded|e'] eqn:Hloaded.
    + rewrite (verify_yaml_loaded _ _ _ _ _ Hstat Hblank Hloaded).
      destruct loaded as [| | | | |items]; try done.
      destruct (Value.lookup "name" items) as [name|]; [|done].
      by destruct (negb _ || negb _).
    + rewrite (verify_yaml_raises _ _ _ _ _ Hstat Hblank Hloaded).
      rewrite (Hload _ _ Hloaded). by destruct (Exn.is_YAMLError e').
  - by rewrite (verify_yaml_directory _ _ _ Hstat).
  - by rewrite (verify_yaml_missing _ _ _ Hstat).
Qed.

Ltac value_raised H :=
  unfold Value.subscript, Value.str_receiver, Value.contains in H;
  repeat case_match; simplify_eq.

Lemma process_entry_raised manifest_dir cache_dir verbose total cs idx entry
    (w : world) e w' :
  process_entry manifest_dir cache_dir verbose total cs idx entry w
    = (Raise e, w') →
  Exn.is_Exception e = true.
Proof using Hload.
  rewrite process_entry_unfold.
  destruct (Value.contains "local" entry) as [[|]|e0] eqn:Hlocal.
  - destruct (Value.subscript entry "local") as [local_value|e1] eqn:Hsub.
    2:{ intros [= <- <-]. by value_raised Hsub. }
    destruct (Value.str_receiver local_value) as [local_path|e2] eqn:Hstr.
    2:{ intros [= <- <-]. by value_raised Hstr. }
    rewrite gather_local_unfold. cbn zeta.
    destruct (Fs.stat (files w) _) as [node|]; [|done].
    destruct (Fs.stat (files w) _) as [ynode|]; [|done].
    destruct (verify_yaml _ false w)
      as [[[[[|] pkg_data] error_msg]|e3] w1] eqn:Hverify.
    + destruct pkg_data as [data|].
      2:{ unfold install, Run.bind, Run.lift. by intros [= <- <-]. }
      apply verify_yaml_valid_inv in Hverify
        as (d & name & _ & _ & _ & Hname & _).
      rewrite (install_eq _ _ _ _ _ _ _ _ _ Hname).
      destruct (Fs.mkdir_parents _ (files w1)) as [[[]|e4] made] eqn:Hmk.
      2:{ intros [= <- <-]. by eapply mkdir_from_raised. }
      destruct (Fs.copy2 _ _ made) as [[[]|e5] fs'] eqn:Hcopy.
      2:{ intros [= <- <-]. by eapply copy2_raised. }
      unfold announce, relative_to. destruct verbose; [|done].
      destruct (Posix.relative_to _ cache_dir); [done|].
      by intros [= <- <-].
    + done.
    + by destruct (verify_yaml_returns _ _ _ _ _ Hverify).
  - destruct (Value.contains "git" entry) as [[|]|e1] eqn:Hgit; [|done|].
    + destruct (Value.subscript entry "git") as [git_url|e2] eqn:Hsub.
      2:{ intros [= <- <-]. by value_raised Hsub. }
      destruct (Value.str_receiver git_url) as [url|e3] eqn:Hstr; [done|].
      intros [= <- <-]. by value_raised Hstr.
    + intros [= <- <-]. by value_raised Hgit.
  - intros [= <- <-]. by value_raised Hlocal.
Qed.

Lemma for_entries_raised manifest_dir cache_dir verbose total entries :
  ∀ idx cs (w : world) e w',
    for_entries (process_entry manifest_dir cache_dir verbose total)
      idx entries cs w = (Raise e, w') →
    Exn.is_Exception e = true.
Proof using Hload.
  induction entries as [|entry entries IH]; intros idx cs w e w';
    cbn [for_entries]; [done|].
  unfold Run.bind.
  destruct (process_entry _ _ _ _ cs idx entry w) as [[cs1|e1] w1] eqn:Hstep.
  - apply IH.
  - intros [= <- <-]. by eapply process_entry_raised.
Qed.

Lemma gather_raised manifest cache_dir clean verbose (w : world) e w' :
  gather_packages_from_manifest manifest cache_dir clean verbose w
    = (Raise e, w') →
  Exn.is_Exception e = true.
Proof using Hload.
  rewrite gather_eq. cbn zeta.
  destruct (resolve_value _) as [manifest_dir|e0] eqn:Hdir.
  2:{ intros [= <- <-]. unfold resolve_value in Hdir.
      by repeat case_match; simplify_eq. }
  destruct (negb _); [done|].
  destruct (prepare _ _ _ w) as [[[]|e1] w1] eqn:Hprepare.
  2:{ intros [= <- <-]. by eapply prepare_raised. }
  destruct (Value.len _) as [total|e2] eqn:Hlen.
  2:{ intros [= <- <-]. unfold Value.len in Hlen.
      by repeat case_match; simplify_eq. }
  destruct (Value.iter _) as [entries|e3] eqn:Hiter.
  2:{ intros [= <- <-]. unfold Value.iter in Hiter.
      by repeat case_match; simplify_eq. }
  destruct (for_entries _ _ _ _ _) as [[cs|e4] w2] eqn:Hloop; [done|].
  intros [= <- <-]. by eapply for_entries_raised.
Qed.

Lemma cache_dir_of_raised manifest e :
  cache_dir_of manifest = Raise e → Exn.is_Exception e = true.
Proof.
  unfold cache_dir_of.
  destruct (resolve_value _) as [manifest_dir|e0] eqn:Hdir.
  - destruct (Value.str_receiver _) as [raw|e1] eqn:Hraw; [done|].
    intros [= <-]. by value_raised Hraw.
  - intros [= <-]. unfold resolve_value in Hdir.
    by repeat case_match; simplify_eq.
Qed.

Lemma raised_status {A} (e : Exn.t) :
  Exn.is_Exception e = true → exit_status (Raise e : result A) = 1%Z.
Proof. by destruct e. Qed.

(** X14.  Once [parse_args] has returned the arguments, whatever they
    and the files are, the gatherer exits with status 0 or 1, and
    status 0 comes with the closing lines that tell of a positive
    number of packages.  (A loader is assumed that raises nothing but
    exceptions of the class [Exception].) *)
Theorem exit_status_is_0_or_1 (a : args) (w : world) :
  (exit_status (main a w).1 = 0%Z ∨ exit_status (main a w).1 = 1%Z) ∧
  (exit_status (main a w).1 = 0%Z →
   ∃ count cache_dir before,
     0 < count ∧
     printed (main a w).2
       = before ++ [Rule; GatheringComplete count cache_dir; Rule]).
Proof using Hload.
  rewrite main_eq.
  destruct (load_manifest_cases (manifest_file a)
              (World (files w) (printed w ++ [Title; Rule])))
    as (l & _ & Hcases).
  cbn zeta in Hcases.
  destruct (load_manifest _ _) as [[manifest|e] w1] eqn:Hloaded.
  - destruct (cache_dir_of manifest) as [[manifest_dir cache_dir]|e] eqn:Hdirs.
    + destruct (gather_packages_from_manifest _ _ _ _ _) as [[count|e] w2]
        eqn:Hgather.
      * cbn. destruct count as [|count]; cbn.
        -- split; [by right|done].
        -- split; [by left|]. intros _.
           exists (S count), cache_dir, (printed w2). split; [lia|done].
      * cbn [fst snd].
        rewrite raised_status by (by eapply gather_raised).
        split; [by right|done].
    + cbn [fst snd].
      rewrite raised_status by (by eapply cache_dir_of_raised).
      split; [by right|done].
  - assert (e = Exn.SystemExit 1) as ->.
    { destruct (written_stat _ _) as [[content|]|];
        [|by injection Hcases as <-..].
      destruct (safe_load content) as [loaded|e'] eqn:Hloaded'.
      - destruct (with_manifest_dir _ _); [done|]. by injection Hcases as <-.
      - rewrite (Hload _ _ Hloaded') in Hcases. by injection Hcases as <-. }
    split; [by right|done].
Qed.

End Raised.



Lemma with_manifest_dir_ok loaded d :
  Value.truthy loaded = false ∨ (∃ items, loaded = Value.PDict items) →
  with_manifest_dir loaded d =
    Ok (Value.set_item "_manifest_dir" (Value.PStr d) (items_of loaded)).
Proof.
  unfold with_manifest_dir. intros [Hfalsy|[items ->]].
  - rewrite Hfalsy. by destruct loaded as [| | | | |[]].
  - by destruct items.
Qed.

(** X13.  For a manifest that names no package and no cache folder,
    [main] exits with status 1 and touches no file, also with
    [--clean]: it prints the banner, in verbose mode the manifest
    directory and the default cache directory [.cache] next to the
    manifest, and that nothing was gathered. *)
Theorem manifest_without_packages (a : args) (w : world) content loaded
    (Hcwd : canonical cwd)
    (Hvars : expandvars "./.cache" = "./.cache")
    (Hmanifest :
       written_stat (files w) (manifest_path_of (manifest_file a))
       = Some (Fs.File content))
    (Hloaded : safe_load content = Ok loaded)
    (Hmapping :
       Value.truthy loaded = false ∨ ∃ items, loaded = Value.PDict items)
    (Hpackages :
       Value.truthy
         (Value.get "packages" (Value.PList []) (items_of loaded)) = false)
    (Hfolder :
       Value.lookup "pachages_cache_folder" (items_of loaded) = None) :
  let manifest_dir := parent_resolved (manifest_path_of (manifest_file a)) in
  let cache_dir := manifest_dir ++ [".cache"] in
  main a w =
    (Raise (Exn.SystemExit 1),
     World (files w)
       (printed w ++ [Title; Rule] ++
        (if verbose a
         then [ManifestDirectory manifest_dir; CacheDirectory cache_dir]
         else []) ++
        [NoPackagesDefined; Rule; NothingGathered; Rule])).
Proof.
  intros manifest_dir cache_dir. rewrite main_eq.
  destruct (load_manifest_cases (manifest_file a)
              (World (files w) (printed w ++ [Title; Rule])))
    as (l & _ & ->).
  cbn [files printed]. rewrite Hmanifest, Hloaded.
  rewrite (with_manifest_dir_ok _ _ Hmapping).
  set (manifest := Value.set_item "_manifest_dir" _ _).
  assert (Hdir :
    resolve_value (Value.get "_manifest_dir" (Value.PStr ".") manifest)
    = Ok manifest_dir).
  { unfold manifest, Value.get. rewrite lookup_set_item_eq.
    cbn [default from_option id resolve_value].
    unfold resolve. rewrite resolve_render; [done|].
    by apply canonical_parent_resolved. }
  assert (Hdirs : cache_dir_of manifest = Ok (manifest_dir, cache_dir)).
  { unfold cache_dir_of. rewrite Hdir.
    unfold manifest at 1, Value.get.
    rewrite lookup_set_item_ne, Hfolder by done.
    cbn [default from_option id Value.str_receiver].
    assert (Py.replace "${CUR_MANIFEST_FILE_DIR}"
              (Posix.render manifest_dir) "./.cache" = "./.cache") as ->
      by done.
    rewrite Hvars.
    assert (Posix.is_absolute "./.cache" = false) as -> by done.
    cbn [negb]. done. }
  rewrite Hdirs.
  assert (Hnone :
    Value.truthy (Value.get "packages" (Value.PList []) manifest) = false).
  { unfold manifest, Value.get. rewrite lookup_set_item_ne by done.
    apply Hpackages. }
  rewrite (gather_falsy _ _ _ _ _ Hnone), Hdir.
  cbn [Nat.ltb Nat.leb closing files printed].
  destruct (verbose a); cbn [files printed]; by rewrite <- !app_assoc.
Qed.



(** *** [verify_yaml] and its only side effect *)

(** X15.  [verify_yaml] changes no file; without [verbose] it leaves
    the world as it is; with [verbose] the verdict is the same, and one
    line is printed exactly when the descriptor is valid. *)
Theorem verify_yaml_only_prints yaml_path (w : world) :
  let quietly := verify_yaml yaml_path false w in
  let loudly := verify_yaml yaml_path true w in
  quietly.2 = w ∧
  loudly.1 = quietly.1 ∧
  files loudly.2 = files w ∧
  printed loudly.2 =
    printed w ++
    match quietly.1 with
    | Ok (true, Some data, _) =>
        [ValidYaml (Posix.name yaml_path)
           (Value.get "name" Value.PNone data)]
    | _ => []
    end.
Proof.
  cbn zeta.
  destruct (Fs.stat (files w) yaml_path) as [[d|]|] eqn:Hstat.
  - destruct (decide (Py.strip d = "")) as [Hblank|Hblank].
    { rewrite !(verify_yaml_blank _ _ _ _ Hstat Hblank). cbn.
      by rewrite app_nil_r. }
    destruct (safe_load d) as [loaded|e] eqn:Hload.
    + rewrite !(verify_yaml_loaded _ _ _ _ _ Hstat Hblank Hload).
      destruct loaded as [| | | | |items]; cbn; try by rewrite app_nil_r.
      unfold Value.get.
      destruct (Value.lookup "name" items) as [name|] eqn:Hname; cbn;
        [|by rewrite app_nil_r].
      destruct (negb _ || negb _); cbn; [by rewrite app_nil_r|].
      by rewrite Hname.
    + rewrite !(verify_yaml_raises _ _ _ _ _ Hstat Hblank Hload).
      destruct (Exn.is_YAMLError e), (Exn.is_Exception e); cbn;
        by rewrite app_nil_r.
  - rewrite !(verify_yaml_directory _ _ _ Hstat). cbn. by rewrite app_nil_r.
  - rewrite !(verify_yaml_missing _ _ _ Hstat). cbn. by rewrite app_nil_r.
Qed.

(** X16.  A descriptor that cannot be read is an invalid one: for a
    directory in its place, and for an exception of the loader that is
    no YAML error, the reason is [Error reading file] with the text of
    the exception. *)
Theorem verify_yaml_reading_errors yaml_path verbose (w : world) :
  (Fs.stat (files w) yaml_path = Some Fs.Dir →
   verify_yaml yaml_path verbose w =
     (Ok (false, None,
          Some ("Error reading file: [Errno 21] Is a directory: '"
                +:+ Posix.render yaml_path +:+ "'")), w)) ∧
  (∀ content e,
     Fs.stat (files w) yaml_path = Some (Fs.File content) →
     Py.strip content ≠ "" →
     safe_load content = Raise e →
     Exn.is_YAMLError e = false →
     Exn.is_Exception e = true →
     verify_yaml yaml_path verbose w =
       (Ok (false, None, Some ("Error reading file: " +:+ Exn.str e)), w)).
Proof.
  split.
  - intros Hstat. by rewrite (verify_yaml_directory _ _ _ Hstat).
  - intros content e Hstat Hblank Hload Hyaml Hexception.
    rewrite (verify_yaml_raises _ _ _ _ _ Hstat Hblank Hload).
    by rewrite Hyaml, Hexception.
Qed.

End GathererMore.

(** ** More about strings and paths *)

Lemma append_cons (h : ascii) (a b : string) :
  String h a +:+ b = String h (a +:+ b).
Proof. reflexivity. Qed.

Lemma append_assoc (a b c : string) : (a +:+ b) +:+ c = a +:+ b +:+ c.
Proof.
  induction a as [|h a IH]; [done|]. by rewrite !append_cons, IH.
Qed.

Lemma free_of_app c (a b : string) :
  free_of c (a +:+ b) = free_of c a && free_of c b.
Proof.
  induction a as [|h a IH]; [done|]. rewrite append_cons. cbn [free_of].
  by rewrite IH, andb_assoc.
Qed.

Lemma chars_app (a b : string) : Py.chars (a +:+ b) = Py.chars a ++ Py.chars b.
Proof.
  induction a as [|h a IH]; [done|]. rewrite append_cons. cbn [Py.chars app].
  by rewrite IH.
Qed.

Lemma of_chars_app (l k : list ascii) :
  Py.of_chars (l ++ k) = Py.of_chars l +:+ Py.of_chars k.
Proof.
  induction l as [|h l IH]; [done|]. cbn [app Py.of_chars].
  by rewrite append_cons, IH.
Qed.

Lemma chars_of_chars (l : list ascii) : Py.chars (Py.of_chars l) = l.
Proof. induction l as [|h l IH]; simpl; [done|]. by rewrite IH. Qed.

Lemma of_chars_chars (s : string) : Py.of_chars (Py.chars s) = s.
Proof. induction s as [|h s IH]; simpl; [done|]. by rewrite IH. Qed.

Lemma reverse_reverse (s : string) : Py.reverse (Py.reverse s) = s.
Proof.
  unfold Py.reverse. by rewrite chars_of_chars, rev_involutive, of_chars_chars.
Qed.

Lemma reverse_last (x : string) (a : ascii) :
  Py.reverse (x +:+ String a "") = String a (Py.reverse x).
Proof. unfold Py.reverse. by rewrite chars_app, rev_app_distr. Qed.

(** [s.rstrip(c)] leaves a string alone that does not end with [c]. *)
Lemma rstrip_char_last c (x : string) (a : ascii) :
  Ascii.eqb a c = false →
  Py.rstrip_char c (x +:+ String a "") = x +:+ String a "".
Proof.
  intros Ha. unfold Py.rstrip_char. rewrite reverse_last.
  cbn [Py.lstrip_char]. rewrite Ha.
  rewrite <- reverse_last. by rewrite reverse_reverse.
Qed.

Lemma last_char (s : string) :
  s ≠ "" → ∃ x a, s = x +:+ String a "".
Proof.
  induction s as [|h s IH]; [done|]. intros _.
  destruct s as [|h' s'].
  - by exists "", h.
  - destruct IH as (x & a & Hs); [done|]. exists (String h x), a.
    by rewrite append_cons, <- Hs.
Qed.

Lemma split_nonempty c s : Py.split c s ≠ [].
Proof.
  destruct s as [|a s]; simpl; [done|].
  destruct (Ascii.eqb a c); [done|]. by destruct (Py.split c s).
Qed.

(** A separator ends a piece and opens the next one. *)
Lemma split_sep c (a b : string) :
  Py.split c (a +:+ String c b) = Py.split c a ++ Py.split c b.
Proof.
  induction a as [|h a IH].
  - simpl. by rewrite Ascii.eqb_refl.
  - rewrite append_cons. cbn [Py.split].
    destruct (Ascii.eqb h c); [by rewrite IH|].
    rewrite IH. pose proof (split_nonempty c a).
    by destruct (Py.split c a).
Qed.

Lemma last_piece_app (l k : list string) :
  k ≠ [] → Py.last_piece (l ++ k) = Py.last_piece k.
Proof.
  intros Hk. unfold Py.last_piece. induction l as [|x l IH]; [done|].
  simpl. destruct (l ++ k) eqn:Hlk; [|done].
  by apply app_eq_nil in Hlk as [_ ->].
Qed.

Lemma eqb_first (a c : ascii) :
  negb (Ascii.eqb a c) = true → Ascii.eqb c a = false.
Proof. rewrite Ascii.eqb_sym. apply negb_true_iff. Qed.

(** Nothing is replaced in a string without the first character of
    [old]. *)
Lemma replace_free (c : ascii) (old new s : string) :
  free_of c s = true →
  Py.replace_from (String c old) new 0 s = s.
Proof.
  induction s as [|a s IH]; [done|]. cbn [free_of Py.replace_from Py.startswith].
  intros [Ha Hs]%andb_prop. rewrite (eqb_first _ _ Ha). cbn [andb].
  by rewrite IH.
Qed.

Lemma replace_suffix (stem : string) :
  free_of "." stem = true → Py.replace ".git" "" (stem +:+ ".git") = stem.
Proof.
  unfold Py.replace. induction stem as [|a stem IH]; [done|].
  rewrite append_cons. cbn [free_of Py.replace_from Py.startswith].
  intros [Ha Hs]%andb_prop. rewrite (eqb_first _ _ Ha). cbn [andb].
  by rewrite (IH Hs).
Qed.

(** ** The name shown for a [git] entry, on the usual URLs *)

Lemma repo_name_of_last_segment (front segment : string) :
  free_of "@" front = true → free_of "@" segment = true →
  free_of "/" segment = true → segment ≠ "" →
  repo_name_of (front +:+ String "/" segment) = Py.replace ".git" "" segment.
Proof.
  intros Hfront Hat Hslash Hne. unfold repo_name_of.
  rewrite (split_free "@")
    by (by rewrite free_of_app; cbn [free_of]; rewrite Hfront, Hat).
  cbn [hd].
  destruct (last_char segment Hne) as (x & a & ->).
  assert (Ha : Ascii.eqb a "/" = false).
  { rewrite free_of_app in Hslash. apply andb_prop in Hslash as [_ Hslash].
    simpl in Hslash. rewrite andb_true_r in Hslash.
    by apply negb_true_iff in Hslash. }
  change (front +:+ String "/" (x +:+ String a ""))
    with (front +:+ (String "/" x) +:+ String a "").
  rewrite <- append_assoc. rewrite rstrip_char_last by done.
  rewrite append_assoc.
  change (front +:+ String "/" x +:+ String a "")
    with (front +:+ String "/" (x +:+ String a "")).
  rewrite split_sep, last_piece_app by apply split_nonempty.
  by rewrite split_free.
Qed.

(** What follows the first [@] does not count. *)
Lemma repo_name_of_ref (url ref : string) :
  free_of "@" url = true →
  repo_name_of (url +:+ String "@" ref) = repo_name_of url.
Proof.
  intros Hurl. unfold repo_name_of.
  rewrite (split_app "@") by done. rewrite (split_free "@" url) by done.
  done.
Qed.

(** X18.  On a URL without [@] whose last segment is a name without
    dots, with or without [.git] after it, the name shown for a [git]
    entry is that name; a ref after [@] changes nothing. *)
Theorem repo_name_of_usual_url (front stem ref : string)
    (Hfront : free_of "@" front = true)
    (Hat : free_of "@" stem = true)
    (Hslash : free_of "/" stem = true)
    (Hdot : free_of "." stem = true)
    (Hstem : stem ≠ "") :
  repo_name_of (front +:+ "/" +:+ stem +:+ ".git") = stem ∧
  repo_name_of (front +:+ "/" +:+ stem) = stem ∧
  repo_name_of (front +:+ "/" +:+ stem +:+ ".git" +:+ "@" +:+ ref) = stem.
Proof.
  assert (Hgit : repo_name_of (front +:+ "/" +:+ stem +:+ ".git") = stem).
  { change (front +:+ "/" +:+ stem +:+ ".git")
      with (front +:+ String "/" (stem +:+ ".git")).
    rewrite repo_name_of_last_segment; [by apply replace_suffix|done|..].
    - by rewrite free_of_app, Hat.
    - by rewrite free_of_app, Hslash.
    - by destruct stem. }
  split_and!; [done|..].
  - change (front +:+ "/" +:+ stem) with (front +:+ String "/" stem).
    rewrite repo_name_of_last_segment by done.
    unfold Py.replace. by apply (replace_free "." "git" "").
  - assert (Hurl :
      (front +:+ "/" +:+ stem +:+ ".git") +:+ String "@" ref
      = front +:+ "/" +:+ stem +:+ ".git" +:+ "@" +:+ ref)
      by (by rewrite !append_assoc).
    rewrite <- Hurl, repo_name_of_ref; [done|].
    rewrite !free_of_app, Hfront, Hat. done.
Qed.


Lemma lstrip_blank (s : string) :
  forallb Py.isspace (Py.chars s) = true → Py.lstrip s = "".
Proof.
  induction s as [|a s IH]; [done|]. cbn [Py.chars forallb Py.lstrip].
  intros [Ha Hs]%andb_prop. rewrite Ha. by apply IH.
Qed.

Lemma strip_blank (s : string) :
  forallb Py.isspace (Py.chars s) = true → Py.strip s = "".
Proof. intros Hs. unfold Py.strip. by rewrite (lstrip_blank s Hs). Qed.

Lemma walk_app here (segs rest : list string) :
  Posix.walk here (segs ++ rest) = Posix.walk (Posix.walk here segs) rest.
Proof.
  revert here. induction segs as [|seg segs IH]; intros here; [done|].
  cbn [app Posix.walk]. by destruct (String.eqb seg "..").
Qed.

Lemma segments_sep (a b : string) :
  Posix.segments (a +:+ String "/" b) = Posix.segments a ++ Posix.segments b.
Proof. unfold Posix.segments. by rewrite split_sep, List.filter_app. Qed.

Section GathererStrings.
Context `{Host}.

(** X17.  A descriptor of white space only is an empty one; the
    loader does not see it. *)
Theorem blank_descriptor_is_empty yaml_path verbose (w : world) content
    (Hdescriptor : Fs.stat (files w) yaml_path = Some (Fs.File content))
    (Hblank : forallb Py.isspace (Py.chars content) = true) :
  verify_yaml yaml_path verbose w =
    (Ok (false, None, Some "YAML file is empty"), w).
Proof.
  apply (verify_yaml_blank _ _ _ _ Hdescriptor). by apply strip_blank.
Qed.

(** X12.  A [local] path that starts with
    [${CUR_MANIFEST_FILE_DIR}/] names what follows, walked from the
    manifest directory, when the environment expands nothing in it. *)
Theorem manifest_variable_is_expanded (manifest_dir : path) (sub : string)
    (Hdir : canonical manifest_dir)
    (Hsub : free_of "$" sub = true)
    (Hvars :
       expandvars (Posix.render manifest_dir +:+ "/" +:+ sub)
       = Posix.render manifest_dir +:+ "/" +:+ sub) :
  package_path_of manifest_dir ("${CUR_MANIFEST_FILE_DIR}/" +:+ sub)
  = Posix.walk manifest_dir (Posix.segments sub).
Proof.
  unfold package_path_of.
  assert (Hreplaced :
    Py.replace "${CUR_MANIFEST_FILE_DIR}" (Posix.render manifest_dir)
      ("${CUR_MANIFEST_FILE_DIR}/" +:+ sub)
    = Posix.render manifest_dir +:+ "/" +:+ sub).
  { unfold Py.replace. simpl.
    by rewrite (replace_free "$" "{CUR_MANIFEST_FILE_DIR}" _ sub Hsub). }
  rewrite Hreplaced, Hvars. unfold resolve, Posix.resolve.
  assert (Posix.is_absolute (Posix.render manifest_dir +:+ "/" +:+ sub)
          = true) as -> by (by rewrite render_canonical).
  change (Posix.render manifest_dir +:+ "/" +:+ sub)
    with (Posix.render manifest_dir +:+ String "/" sub).
  rewrite segments_sep, segments_render by done.
  rewrite walk_app. f_equal. rewrite walk_plain; [done|].
  by apply canonical_plain.
Qed.

End GathererStrings.

(** ** Errors, verdicts and the cache folder *)

Section GathererLast.
Context `{Host}.

(** *** Entries counted as errors *)


(** *** What a valid verdict stands for *)

(** X22.  When [verify_yaml] finds a descriptor valid, there is a file
    at the path, it is not blank, it loads to the mapping returned, and
    that mapping has a non-empty string under [name]; no reason comes
    with the verdict. *)
Theorem valid_verdict_is_sound yaml_path verbose (w : world) data reason w'
    (Hvalid :
       verify_yaml yaml_path verbose w = (Ok (true, data, reason), w')) :
  ∃ content items name,
    data = Some items ∧ reason = None ∧
    Fs.stat (files w) yaml_path = Some (Fs.File content) ∧
    Py.strip content ≠ "" ∧
    safe_load content = Ok (Value.PDict items) ∧
    Value.lookup "name" items = Some (Value.PStr name) ∧
    name ≠ "".
Proof.
  revert Hvalid.
  destruct (Fs.stat (files w) yaml_path) as [[d|]|] eqn:Hstat.
  - destruct (decide (Py.strip d = "")) as [Hblank|Hblank].
    { by rewrite (verify_yaml_blank _ _ _ _ Hstat Hblank). }
    destruct (safe_load d) as [loaded|e] eqn:Hload.
    + rewrite (verify_yaml_loaded _ _ _ _ _ Hstat Hblank Hload).
      destruct loaded as [| | | | |items]; try done.
      destruct (Value.lookup "name" items) as [name|] eqn:Hname; [|done].
      destruct (negb (Value.truthy name) || negb (Value.isinstance_str name))
        eqn:Hchecked; [done|].
      apply valid_name_inv in Hchecked as (s & -> & Hs).
      intros [= <- <- <-]. by exists d, items, s.
    + rewrite (verify_yaml_raises _ _ _ _ _ Hstat Hblank Hload).
      by destruct (Exn.is_YAMLError e), (Exn.is_Exception e).
  - by rewrite (verify_yaml_directory _ _ _ Hstat).
  - by rewrite (verify_yaml_missing _ _ _ Hstat).
Qed.

(** *** The cache folder of the manifest *)

(** X23.  The cache folder of the manifest, [./.cache] when it names
    none, is taken from the manifest directory and not from the current
    one, when it holds no [$]: [main] works out the manifest directory
    and the folder joined to it and resolved, an absolute folder
    standing for itself. *)
Theorem cache_folder_is_relative_to_the_manifest (manifest : Value.dict)
    (d s : string)
    (Hdir : Value.lookup "_manifest_dir" manifest = Some (Value.PStr d))
    (Hfolder :
       Value.get "pachages_cache_folder" (Value.PStr "./.cache") manifest
       = Value.PStr s)
    (Hplain : free_of "$" s = true)
    (Hvars : expandvars s = s) :
  cache_dir_of manifest = Ok (resolve d, Posix.resolve (resolve d) s).
Proof.
  unfold cache_dir_of, Value.get at 1. rewrite Hdir.
  cbn [default from_option id resolve_value]. rewrite Hfolder.
  cbn [Value.str_receiver].
  assert (Py.replace "${CUR_MANIFEST_FILE_DIR}" (Posix.render (resolve d)) s
          = s) as ->
    by apply (replace_free "$" "{CUR_MANIFEST_FILE_DIR}" _ s Hplain).
  rewrite Hvars. do 2 f_equal.
  destruct (Posix.is_absolute s) eqn:Habsolute; cbn [negb]; [|done].
  unfold resolve at 1, Posix.resolve. by rewrite Habsolute.
Qed.

End GathererLast.

(** *** The sample runs of these properties *)

Ltac not_a_file :=
  let Hfile := fresh "Hfile" in
  intros Hfile;
  lazymatch type of Hfile with
  | is_file ?n =>
      let v := eval vm_compute in n in
      let Hn := fresh "Hn" in
      assert (Hn : n = v) by evaluates_to v;
      rewrite Hn in Hfile; exact Hfile
  end.

Ltac not_that v :=
  let Hthat := fresh "Hthat" in
  intros Hthat;
  lazymatch type of Hthat with
  | ?lhs = _ =>
      let Hlhs := fresh "Hlhs" in
      assert (Hlhs : lhs = v) by evaluates_to v;
      rewrite Hlhs in Hthat; discriminate Hthat
  end.



Lemma malformed_entry_ends_the_run_witness :
  for_entries (process_entry (H := Sample.host) ["work"] Sample.cache false 3)
    1 ([Sample.local "/src/core"] ++ Value.PNone :: [Sample.local "/src/render"])
    (Counters 0 0 0) Sample.start
  = (Raise Exn.TypeError,
     (for_entries
        (process_entry (H := Sample.host) ["work"] Sample.cache false 3)
        1 [Sample.local "/src/core"] (Counters 0 0 0) Sample.start).2).
Proof.
  apply (malformed_entry_ends_the_run (H := Sample.host) ["work"] Sample.cache
           false 3 1 [Sample.local "/src/core"] Value.PNone
           [Sample.local "/src/render"] (Counters 0 0 0) Sample.start
           (Counters 1 0 0)).
  - by_run.
  - constructor.
Defined.

(** The cache as a run over the package called [tmp/../core] leaves it,
    with its folder [core] listed as a package of its own. *)
Lemma own_destination_raises_witness :
  let w :=
    (gather_packages_from_manifest (H := Stray.host)
       (Sample.manifest_of [Sample.local "/src/dotted"]) Sample.cache false
       false Stray.start).2 in
  let yaml :=
    package_path_of (H := Stray.host) ["work"] "/work/.cache/core"
    ++ ["ArieoPackage.yaml"] in
  ∃ made,
    Fs.mkdir_parents (Posix.div Sample.cache "tmp/../core") (files w)
    = (Ok (), made) ∧
    process_entry (H := Stray.host) ["work"] Sample.cache false 1
      (Counters 0 0 0) 1
      (Value.PDict [(Value.PStr "local", Value.PStr "/work/.cache/core")]) w
    = (Raise (Exn.SameFileError yaml
                (Posix.div Sample.cache "tmp/../core"
                 ++ ["ArieoPackage.yaml"])),
       World made (printed w)) ∧
    (∀ q, made !! q =
          if decide (q ∈ chain [] (Posix.div Sample.cache "tmp/../core"))
          then Some Fs.Dir else files w !! q).
Proof.
  intros w.
  apply (own_destination_raises (H := Stray.host) ["work"] Sample.cache false
           1 (Counters 0 0 0) 1
           [(Value.PStr "local", Value.PStr "/work/.cache/core")]
           "/work/.cache/core" w "name: tmp/../core" "tmp/../core").
  - reflexivity.
  - by_evaluation.
  - split; [not_that "name: tmp/../core"|].
    exists [(Value.PStr "name", Value.PStr "tmp/../core")].
    split_and!; [by_evaluation|reflexivity|discriminate].
  - by_evaluation.
  - intros q Hq. vm_compute in Hq. apply list_elem_of_In in Hq.
    destruct Hq as [<- |[<- |[<- |[<- |[]]]]]; not_a_file.
  - by_evaluation.
Defined.

Lemma count_is_the_number_of_copies_witness :
  let manifest :=
    Sample.manifest_of
      [Sample.local "/src/core";
       Sample.mapping [("git", Sample.str "https://example.org/x.git")];
       Sample.mapping [("url", Sample.str "x")]] in
  let w' :=
    (gather_packages_from_manifest (H := Sample.host) manifest Sample.cache
       false false Sample.start).2 in
  ∃ lines,
    printed w' = printed Sample.start ++ lines ∧
    1 = length (List.filter is_gathered lines).
Proof.
  intros manifest w'.
  apply (count_is_the_number_of_copies (H := Sample.host) manifest
           Sample.cache false false Sample.start 1 w').
  by_run.
Defined.

Lemma nothing_copied_nothing_written_witness :
  let manifest :=
    Sample.manifest_of
      [Sample.mapping [("git", Sample.str "https://example.org/x.git")];
       Sample.local "/src/blank"] in
  let w' :=
    (gather_packages_from_manifest (H := Sample.host) manifest Sample.cache
       false false Sample.start).2 in
  files w' = files Sample.start ∨
  Fs.mkdir_parents Sample.cache (files Sample.start) = (Ok (), files w').
Proof.
  intros manifest w'.
  apply (nothing_copied_nothing_written (H := Sample.host) manifest
           Sample.cache false Sample.start w').
  by_run.
Defined.

Lemma without_clean_nothing_is_removed_witness :
  let w' :=
    (gather_packages_from_manifest (H := Sample.host)
       (Sample.manifest_of [Sample.local "/src/core"]) Sample.cache false
       false Sample.start).2 in
  let q := ["src"; "core"; "ArieoPackage.yaml"] in
  (files Sample.start !! q = Some Fs.Dir → files w' !! q = Some Fs.Dir) ∧
  (∀ content, files Sample.start !! q = Some (Fs.File content) →
              ∃ content', files w' !! q = Some (Fs.File content')).
Proof.
  intros w' q.
  refine (without_clean_nothing_is_removed (H := Sample.host)
            (Sample.manifest_of [Sample.local "/src/core"]) Sample.cache
            false Sample.start 1 w' _ q).
  by_run.
Defined.


Lemma verbose_changes_no_file_witness :
  let manifest :=
    Sample.manifest_of
      [Sample.local "/src/core";
       Sample.mapping [("git", Sample.str "https://example.org/x.git")]] in
  let w' :=
    (gather_packages_from_manifest (H := Sample.host) manifest Sample.cache
       false true Sample.start).2 in
  ∃ w'',
    gather_packages_from_manifest (H := Sample.host) manifest Sample.cache
      false false Sample.start = (Ok 1, w'') ∧
    files w'' = files w'.
Proof.
  intros manifest w'.
  apply (verbose_changes_no_file (H := Sample.host) manifest Sample.cache
           false Sample.start 1 w').
  by_run.
Defined.


(** The manifest is named through the directory it lies in. *)
Lemma load_manifest_records_the_directory_witness :
  let written := "../work/./empty.manifest.yaml" in
  let w' := (load_manifest (H := Sample.host) (Some written) Sample.start).2 in
  let manifest_path := manifest_path_of (Some written) in
  w' = Sample.start ∧
  ∃ content loaded,
    written_stat (H := Sample.host) (files Sample.start) manifest_path
    = Some (Fs.File content) ∧
    safe_load (Host := Sample.host) content = Ok loaded ∧
    Value.lookup "_manifest_dir" (Sample.manifest_of [])
      = Some (Value.PStr
                (Posix.render
                   (parent_resolved (H := Sample.host) manifest_path))) ∧
    ∀ k, k ≠ "_manifest_dir" →
         Value.lookup k (Sample.manifest_of [])
         = Value.lookup k (items_of loaded).
Proof.
  apply (load_manifest_records_the_directory (H := Sample.host)
           (Some "../work/./empty.manifest.yaml") Sample.start
           (Sample.manifest_of []) _).
  by_run.
Defined.

Lemma sample_cwd : canonical (cwd (Host := Sample.host)).
Proof.
  constructor; [|constructor].
  split_and!; [discriminate|discriminate|discriminate|reflexivity].
Defined.

Lemma manifest_dir_is_read_back_witness :
  resolve_value (H := Sample.host)
    (Value.get "_manifest_dir" (Value.PStr ".") (Sample.manifest_of []))
  = Ok (parent_resolved (H := Sample.host)
          (manifest_path_of (Some "empty.manifest.yaml"))).
Proof.
  apply (manifest_dir_is_read_back (H := Sample.host)
           (Some "empty.manifest.yaml") Sample.start (Sample.manifest_of [])
           (load_manifest (H := Sample.host) (Some "empty.manifest.yaml")
              Sample.start).2).
  - exact sample_cwd.
  - by_run.
Defined.

Lemma manifest_without_packages_witness :
  let a := Args (Some "empty.manifest.yaml") true true in
  let manifest_dir :=
    parent_resolved (H := Sample.host) (manifest_path_of (manifest_file a)) in
  let cache_dir := manifest_dir ++ [".cache"] in
  main (H := Sample.host) a Sample.start =
    (Raise (Exn.SystemExit 1),
     World (files Sample.start)
       (printed Sample.start ++ [Title; Rule] ++
        (if verbose a
         then [ManifestDirectory manifest_dir; CacheDirectory cache_dir]
         else []) ++
        [NoPackagesDefined; Rule; NothingGathered; Rule])).
Proof.
  apply (manifest_without_packages (H := Sample.host)
           (Args (Some "empty.manifest.yaml") true true) Sample.start
           "packages: []"
           (Sample.mapping [("packages", Value.PList [])])).
  - exact sample_cwd.
  - reflexivity.
  - by_evaluation.
  - by_evaluation.
  - right. by eexists.
  - reflexivity.
  - reflexivity.
Defined.

Lemma exit_status_is_0_or_1_witness :
  let a := Args None false false in
  (exit_status (main (H := Sample.host) a Sample.start).1 = 0%Z ∨
   exit_status (main (H := Sample.host) a Sample.start).1 = 1%Z) ∧
  (exit_status (main (H := Sample.host) a Sample.start).1 = 0%Z →
   ∃ count cache_dir before,
     0 < count ∧
     printed (main (H := Sample.host) a Sample.start).2
       = before ++ [Rule; GatheringComplete count cache_dir; Rule]).
Proof.
  exact (exit_status_is_0_or_1 (H := Sample.host) sample_load_raises
           (Args None false false) Sample.start).
Defined.


Lemma repo_name_of_usual_url_witness :
  repo_name_of ("https://example.org/acme" +:+ "/" +:+ "core" +:+ ".git")
    = "core" ∧
  repo_name_of ("https://example.org/acme" +:+ "/" +:+ "core") = "core" ∧
  repo_name_of
    ("https://example.org/acme" +:+ "/" +:+ "core" +:+ ".git" +:+ "@"
     +:+ "v1.2") = "core".
Proof.
  apply (repo_name_of_usual_url "https://example.org/acme" "core" "v1.2");
    [reflexivity|reflexivity|reflexivity|reflexivity|discriminate].
Defined.

Lemma blank_descriptor_is_empty_witness :
  verify_yaml (H := Stray.host) ["src"; "hollow"; "ArieoPackage.yaml"] false
    Stray.start
  = (Ok (false, None, Some "YAML file is empty"), Stray.start).
Proof.
  apply (blank_descriptor_is_empty (H := Stray.host)
           ["src"; "hollow"; "ArieoPackage.yaml"] false Stray.start
           Stray.blank).
  - by_evaluation.
  - reflexivity.
Defined.

Lemma manifest_variable_is_expanded_witness :
  package_path_of (H := Sample.host) ["work"]
    ("${CUR_MANIFEST_FILE_DIR}/" +:+ "pkgs/core")
  = Posix.walk ["work"] (Posix.segments "pkgs/core").
Proof.
  apply (manifest_variable_is_expanded (H := Sample.host) ["work"]
           "pkgs/core").
  - exact sample_cwd.
  - reflexivity.
  - reflexivity.
Defined.



Lemma valid_verdict_is_sound_witness :
  ∃ content items name,
    Some [(Value.PStr "name", Value.PStr "core")] = Some items ∧
    @None string = None ∧
    Fs.stat (files Sample.start) ["src"; "core"; "ArieoPackage.yaml"]
    = Some (Fs.File content) ∧
    Py.strip content ≠ "" ∧
    safe_load (Host := Sample.host) content = Ok (Value.PDict items) ∧
    Value.lookup "name" items = Some (Value.PStr name) ∧
    name ≠ "".
Proof.
  apply (valid_verdict_is_sound (H := Sample.host)
           ["src"; "core"; "ArieoPackage.yaml"] false Sample.start
           (Some [(Value.PStr "name", Value.PStr "core")]) None
           (verify_yaml (H := Sample.host)
              ["src"; "core"; "ArieoPackage.yaml"] false Sample.start).2).
  by_run.
Defined.

Lemma cache_folder_is_relative_to_the_manifest_witness :
  cache_dir_of (H := Sample.host)
    [(Value.PStr "pachages_cache_folder", Value.PStr "../shared/cache");
     (Value.PStr "_manifest_dir", Value.PStr "/work")]
  = Ok (resolve (H := Sample.host) "/work",
        Posix.resolve (resolve (H := Sample.host) "/work") "../shared/cache").
Proof.
  apply (cache_folder_is_relative_to_the_manifest (H := Sample.host)
           [(Value.PStr "pachages_cache_folder",
             Value.PStr "../shared/cache");
            (Value.PStr "_manifest_dir", Value.PStr "/work")]
           "/work" "../shared/cache");
    reflexivity.
Defined.


(** ** The build driver *)

Import build_packages_v2.

Section DriverFacts.
Context {Ext : Type} `{Machine Ext}.

(** The lists and directories [main] works out from its arguments. *)
Definition cmake_dir_of (a : args) : path := resolve (cmake a).

Definition base_build_dir_of (a : args) : path :=
  match build_dir a with
  | Some d => if String.eqb d "" then Posix.div (cmake_dir_of a) "build"
              else resolve d
  | None => Posix.div (cmake_dir_of a) "build"
  end.

Definition presets_of (a : args) : list string :=
  match preset a with [] => ["default"] | _ => preset a end.

Definition build_types_of (a : args) : list string :=
  match build_type a with [] => ["Release"] | _ => build_type a end.

Definition packages_str_of (a : args) : string :=
  match package a with [] => "" | _ => Py.join ";" (package a) end.

(** What the driver does for a pair that configures and builds. *)
Definition pair_built (a : args) (pair : string * string) : list effect :=
  let '(preset, build_type) := pair in
  let build_dir := build_dir_of (base_build_dir_of a) preset build_type in
  [Mkdir build_dir;
   Print (Configuring preset build_type (packages_str_of a));
   Spawn (configure_cmd (cmake_dir_of a) build_dir preset build_type) 0;
   Print (Building preset build_type (packages_str_of a));
   Spawn (build_cmd build_dir (package a)) 0].

(** What it does for a pair whose configure or build step comes back
    with [code]. *)
Definition pair_failed (a : args) (pair : string * string) (code : Z)
    (l : list effect) : Prop :=
  let '(preset, build_type) := pair in
  let build_dir := build_dir_of (base_build_dir_of a) preset build_type in
  l = [Mkdir build_dir;
       Print (Configuring preset build_type (packages_str_of a));
       Spawn (configure_cmd (cmake_dir_of a) build_dir preset build_type)
         code;
       Print (ConfigureFailed preset build_type)]
  ∨
  l = [Mkdir build_dir;
       Print (Configuring preset build_type (packages_str_of a));
       Spawn (configure_cmd (cmake_dir_of a) build_dir preset build_type) 0;
       Print (Building preset build_type (packages_str_of a));
       Spawn (build_cmd build_dir (package a)) code;
       Print (BuildFailed preset build_type)].

(** An exception of the driver comes from the machine. *)
Definition raised_by_machine (e : Exn.t) : Prop :=
  (∃ p ext, (make_dirs p ext).1 = Raise e) ∨
  (∃ cmd ext, (subprocess_run cmd ext).1 = Raise e).

(** The directories made, as the log tells. *)
Definition made (l : list effect) : list path :=
  omap (λ ef, match ef with Mkdir d => Some d | _ => None end) l.

(** The return codes of the processes spawned, as the log tells. *)
Definition returncodes (l : list effect) : list Z :=
  omap (λ ef, match ef with Spawn _ code => Some code | _ => None end) l.

(** The commands of the processes spawned. *)
Definition commands (l : list effect) : list (list string) :=
  omap (λ ef, match ef with Spawn cmd _ => Some cmd | _ => None end) l.

Lemma build_pair_cases a preset build_type w :
  match build_pair (cmake_dir_of a) (base_build_dir_of a) (package a)
          (packages_str_of a) preset build_type w with
  | (Ok Next, w') => log w' = log w ++ pair_built a (preset, build_type)
  | (Ok (Return code), w') =>
      code ≠ 0%Z ∧
      ∃ l, pair_failed a (preset, build_type) code l ∧ log w' = log w ++ l
  | (Raise e, w') => raised_by_machine e
  end.
Proof.
  unfold build_pair, Run.bind, mkdir, run, print, Run.ret. cbn.
  destruct (make_dirs _ (outside w)) as [[[]|e] ext1] eqn:Hmk; cbn;
    [|left; exists (build_dir_of (base_build_dir_of a) preset build_type),
        (outside w); by rewrite Hmk].
  destruct (subprocess_run (configure_cmd _ _ _ _) ext1)
    as [[code|e] ext2] eqn:Hconf; cbn;
    [|right; eexists _, ext1; by rewrite Hconf].
  destruct (Z.eqb_spec code 0) as [->|Hcode]; cbn.
  - destruct (subprocess_run (build_cmd _ _) ext2)
      as [[code|e] ext3] eqn:Hbuild; cbn;
      [|right; eexists _, ext2; by rewrite Hbuild].
    destruct (Z.eqb_spec code 0) as [->|Hcode]; cbn.
    + by rewrite <- !app_assoc.
    + split; [done|]. eexists. split; [by right|].
      by rewrite <- !app_assoc.
  - split; [done|]. eexists. split; [by left|].
    by rewrite <- !app_assoc.
Qed.

(** A loop whose body either falls through, leaving [built x] in the
    log, or returns a code, leaving some [l] with [failed x code l]. *)
Lemma for_each_cases (body : string → M flow)
    (built : string → list effect)
    (failed : string → Z → list effect → Prop) :
  (∀ x (w : world Ext),
      match body x w with
      | (Ok Next, w') => log w' = log w ++ built x
      | (Ok (Return code), w') =>
          code ≠ 0%Z ∧ ∃ l, failed x code l ∧ log w' = log w ++ l
      | (Raise e, w') => raised_by_machine e
      end) →
  ∀ xs (w : world Ext),
    match for_each body xs w with
    | (Ok Next, w') => log w' = log w ++ flat_map built xs
    | (Ok (Return code), w') =>
        code ≠ 0%Z ∧
        ∃ before x after l,
          xs = before ++ x :: after ∧ failed x code l ∧
          log w' = log w ++ flat_map built before ++ l
    | (Raise e, w') => raised_by_machine e
    end.
Proof.
  intros Hbody xs. induction xs as [|x xs IH]; intros w; cbn.
  - by rewrite app_nil_r.
  - unfold Run.bind. specialize (Hbody x w).
    destruct (body x w) as [[[|code]|e] w1]; [| |done].
    + specialize (IH w1).
      destruct (for_each body xs w1) as [[[|code]|e] w2]; [| |done].
      * by rewrite IH, Hbody, <- app_assoc.
      * destruct IH as (Hcode & before & y & after & l & -> & Hl & ->).
        split; [done|]. exists (x :: before), y, after, l.
        split_and!; [done|done|]. cbn. by rewrite Hbody, <- !app_assoc.
    + cbn. destruct Hbody as (Hcode & l & Hl & ->). split; [done|].
      by exists [], x, xs, l.
Qed.

Lemma list_prod_split {A B : Type} (xs1 : list A) (x : A) (xs2 : list A)
    (ys1 : list B) (y : B) (ys2 : list B) :
  list_prod (xs1 ++ x :: xs2) (ys1 ++ y :: ys2) =
    (list_prod xs1 (ys1 ++ y :: ys2) ++ map (pair x) ys1)
    ++ (x, y) :: (map (pair x) ys2 ++ list_prod xs2 (ys1 ++ y :: ys2)).
Proof.
  induction xs1 as [|x1 xs1 IH]; cbn.
  - by rewrite map_app, <- app_assoc.
  - by rewrite IH, <- !app_assoc.
Qed.

Lemma flat_map_pairs {A B C : Type} (f : A * B → list C) (x : A)
    (ys : list B) :
  flat_map f (map (pair x) ys) = flat_map (λ y, f (x, y)) ys.
Proof. induction ys as [|y ys IH]; simpl; [done|]. by rewrite IH. Qed.

Lemma flat_map_list_prod {A B C : Type} (f : A * B → list C)
    (xs : list A) (ys : list B) :
  flat_map f (list_prod xs ys) =
    flat_map (λ x, flat_map (λ y, f (x, y)) ys) xs.
Proof.
  induction xs as [|x xs IH]; cbn; [done|].
  by rewrite flat_map_app, IH, flat_map_pairs.
Qed.

(** What the driver does for the build types of one preset. *)
Definition preset_built (a : args) (preset : string) : list effect :=
  flat_map (λ build_type, pair_built a (preset, build_type))
    (build_types_of a).

Definition preset_failed (a : args) (preset : string) (code : Z)
    (l : list effect) : Prop :=
  ∃ before build_type after l',
    build_types_of a = before ++ build_type :: after ∧
    pair_failed a (preset, build_type) code l' ∧
    l = flat_map (λ build_type, pair_built a (preset, build_type)) before
        ++ l'.

Lemma inner_loop_cases a preset (w : world Ext) :
  match for_each
          (λ build_type,
             build_pair (cmake_dir_of a) (base_build_dir_of a) (package a)
               (packages_str_of a) preset build_type)
          (build_types_of a) w with
  | (Ok Next, w') => log w' = log w ++ preset_built a preset
  | (Ok (Return code), w') =>
      code ≠ 0%Z ∧
      ∃ l, preset_failed a preset code l ∧ log w' = log w ++ l
  | (Raise e, w') => raised_by_machine e
  end.
Proof.
  pose proof (for_each_cases _
    (λ build_type, pair_built a (preset, build_type))
    (λ build_type code l, pair_failed a (preset, build_type) code l)
    (λ build_type w1, build_pair_cases a preset build_type w1)
    (build_types_of a) w) as Hinner.
  destruct (for_each _ (build_types_of a) w) as [[[|code]|e] w1];
    [done| |done].
  destruct Hinner as (Hcode & before & bt & after & l & Hbts & Hl & ->).
  split; [done|]. eexists. split; [|done].
  by exists before, bt, after, l.
Qed.

Lemma main_cases (a : args) (w : world Ext) :
  let pairs := list_prod (presets_of a) (build_types_of a) in
  match main a w with
  | (Ok code, w') =>
      if decide (code = 0%Z)
      then log w' = log w ++ flat_map (pair_built a) pairs
                          ++ [Print AllBuildsCompleted]
      else ∃ before pair after l,
             pairs = before ++ pair :: after ∧
             pair_failed a pair code l ∧
             log w' = log w ++ flat_map (pair_built a) before ++ l
  | (Raise e, w') => raised_by_machine e
  end.
Proof.
  cbn zeta.
  assert (Hmain : main a w =
    (Run.bind
       (for_each
          (λ preset, for_each
             (λ build_type,
                build_pair (cmake_dir_of a) (base_build_dir_of a)
                  (package a) (packages_str_of a) preset build_type)
             (build_types_of a))
          (presets_of a))
       (λ fl, match fl with
              | Return code => Run.ret code
              | Next => print AllBuildsCompleted >> Run.ret 0%Z
              end)) w) by done.
  rewrite Hmain. unfold Run.bind at 1.
  pose proof (for_each_cases _ (preset_built a) (preset_failed a)
                (inner_loop_cases a) (presets_of a) w) as Houter.
  destruct (for_each _ (presets_of a) w) as [[[|code]|e] w1]; [| |done].
  - unfold Run.bind, print, Run.ret. cbn.
    rewrite Houter, flat_map_list_prod, <- app_assoc. done.
  - cbn.
    destruct Houter as (Hcode & ps1 & preset & ps2 & l & Hps & Hl & ->).
    destruct Hl as (bts1 & build_type & bts2 & l' & Hbts & Hl' & ->).
    rewrite decide_False by done.
    exists (list_prod ps1 (build_types_of a) ++ map (pair preset) bts1),
      (preset, build_type),
      (map (pair preset) bts2 ++ list_prod ps2 (build_types_of a)), l'.
    split_and!; [|done|].
    + rewrite Hps. rewrite Hbts at 1. rewrite list_prod_split.
      by rewrite <- Hbts.
    + by rewrite flat_map_app, flat_map_list_prod, flat_map_pairs,
        <- !app_assoc.
Qed.

Lemma made_app (l1 l2 : list effect) : made (l1 ++ l2) = made l1 ++ made l2.
Proof. apply omap_app. Qed.

Lemma made_built a (pairs : list (string * string)) :
  made (flat_map (pair_built a) pairs) =
    map (λ pair, build_dir_of (base_build_dir_of a) pair.1 pair.2) pairs.
Proof.
  induction pairs as [|[preset build_type] pairs IH]; [done|].
  cbn [flat_map map]. rewrite made_app, IH. done.
Qed.

Lemma made_failed a pair code l :
  pair_failed a pair code l →
  made l = [build_dir_of (base_build_dir_of a) pair.1 pair.2].
Proof. destruct pair. by intros [-> | ->]. Qed.

Lemma plain_build_dir (base : path) :
  build_dir_of base "A" "Debug" = base ++ ["A"; "Debug"] ∧
  build_dir_of base "A" "Release" = base ++ ["A"; "Release"] ∧
  build_dir_of base "B" "Debug" = base ++ ["B"; "Debug"] ∧
  build_dir_of base "B" "Release" = base ++ ["B"; "Release"].
Proof.
  unfold build_dir_of, Posix.div. cbn. by rewrite <- !app_assoc.
Qed.

(** C3.  The driver walks the pairs of the product of presets and build
    types, presets outermost.  A run that returns 0 has configured and
    built every pair, in order, and made one directory per pair; a run
    that returns another code has fully built the pairs before some
    pair, failed in configuring or building that pair with this code as
    the last return code seen, and made no directory past that pair.
    For presets [A; B] and build types [Debug; Release] a successful
    run makes the four distinct directories A/Debug, A/Release, B/Debug
    and B/Release, and if configuring A/Debug fails the run returns the
    code and has made A/Debug only. *)
Theorem build_stops_at_first_failure (a : args) (w : world Ext) :
  let pairs := list_prod (presets_of a) (build_types_of a) in
  let dir_of := λ pair : string * string,
    build_dir_of (base_build_dir_of a) pair.1 pair.2 in
  (match main a w with
   | (Ok code, w') =>
       if decide (code = 0%Z)
       then ∃ l, log w' = log w ++ l ∧
              l = flat_map (pair_built a) pairs ++ [Print AllBuildsCompleted] ∧
              made l = map dir_of pairs
       else ∃ before pair after failed l,
              pairs = before ++ pair :: after ∧
              pair_failed a pair code failed ∧
              log w' = log w ++ l ∧
              l = flat_map (pair_built a) before ++ failed ∧
              made l = map dir_of (before ++ [pair]) ∧
              last (returncodes l) = Some code
   | (Raise e, w') => raised_by_machine e
   end) ∧
  (preset a = ["A"; "B"] → build_type a = ["Debug"; "Release"] →
   let base := base_build_dir_of a in
   (∀ w', main a w = (Ok 0%Z, w') →
      ∃ l, log w' = log w ++ l ∧
           made l = [base ++ ["A"; "Debug"]; base ++ ["A"; "Release"];
                     base ++ ["B"; "Debug"]; base ++ ["B"; "Release"]] ∧
           NoDup (made l)) ∧
   (∀ ext1 code ext2,
      make_dirs (base ++ ["A"; "Debug"]) (outside w) = (Ok (), ext1) →
      subprocess_run
        (configure_cmd (cmake_dir_of a) (base ++ ["A"; "Debug"]) "A" "Debug")
        ext1 = (Ok code, ext2) →
      code ≠ 0%Z →
      (main a w).1 = Ok code ∧
      ∃ l, log (main a w).2 = log w ++ l ∧
           made l = [base ++ ["A"; "Debug"]])).
Proof.
  cbn zeta. split.
  - pose proof (main_cases a w) as Hmain. cbn zeta in Hmain.
    destruct (main a w) as [[code|e] w']; [|done].
    destruct (decide (code = 0%Z)) as [->|Hcode].
    + eexists. split; [done|]. split; [done|].
      by rewrite made_app, made_built, app_nil_r.
    + destruct Hmain as (before & pair & after & failed & Hpairs & Hfailed & ->).
      exists before, pair, after, failed. eexists.
      split_and!; [done|done|done|done| |].
      * rewrite made_app, made_built, (made_failed _ _ _ _ Hfailed).
        by rewrite map_app.
      * unfold returncodes. rewrite omap_app.
        destruct pair. destruct Hfailed as [-> | ->]; cbn.
        -- apply last_snoc.
        -- rewrite (app_assoc _ [0%Z] [code]). apply last_snoc.
  - intros Hpresets Hbuild_types.
    destruct (plain_build_dir (base_build_dir_of a)) as (HAD & HAR & HBD & HBR).
    split.
    + intros w' Hrun. pose proof (main_cases a w) as Hmain.
      rewrite Hrun in Hmain. cbn [decide] in Hmain.
      rewrite decide_True in Hmain by done.
      unfold presets_of, build_types_of in Hmain.
      rewrite Hpresets, Hbuild_types in Hmain.
      eexists. split; [exact Hmain|].
      rewrite made_app, made_built, app_nil_r.
      cbn [list_prod map app fst snd].
      rewrite HAD, HAR, HBD, HBR. split; [done|].
      apply (NoDup_fmap_2 (app (base_build_dir_of a))
               [["A"; "Debug"]; ["A"; "Release"];
                ["B"; "Debug"]; ["B"; "Release"]]).
      compute_done.
    + intros ext1 code ext2 Hmk Hconf Hcode.
      assert (Hmain : main a w =
        (Ok code,
         World ext2
           (log w ++
            [Mkdir (base_build_dir_of a ++ ["A"; "Debug"]);
             Print (Configuring "A" "Debug" (packages_str_of a));
             Spawn (configure_cmd (cmake_dir_of a)
                      (base_build_dir_of a ++ ["A"; "Debug"]) "A" "Debug")
               code;
             Print (ConfigureFailed "A" "Debug")]))).
      { rewrite <- HAD in Hmk, Hconf |- *.
        unfold main. rewrite Hpresets, Hbuild_types.
        cbn [for_each]. fold (cmake_dir_of a). fold (base_build_dir_of a).
        unfold Run.bind at 1 2 3. unfold build_pair at 1.
        unfold Run.bind at 1, mkdir at 1. rewrite Hmk.
        unfold Run.bind at 1, print at 1. unfold Run.bind at 1, run at 1.
        cbn [outside]. rewrite Hconf.
        apply Z.eqb_neq in Hcode. rewrite Hcode. cbn [negb].
        unfold Run.bind, print, Run.ret. cbn [log outside].
        by rewrite <- !app_assoc. }
      rewrite Hmain. cbn. split; [done|]. by eexists.
Qed.










End DriverFacts.

(** Two presets and two build types, on a machine where configuring a
    [Debug] build returns 3: the run returns 3 and has made the
    directory of the first pair only. *)
Lemma build_stops_at_first_failure_witness :
  let a := Sample.two_by_two in
  let base := base_build_dir_of (H := Sample.machine Sample.debug_fails) a in
  (main (H := Sample.machine Sample.debug_fails) a Sample.idle).1 = Ok 3%Z ∧
  ∃ l,
    log (main (H := Sample.machine Sample.debug_fails) a Sample.idle).2
      = log Sample.idle ++ l ∧
    made l = [base ++ ["A"; "Debug"]].
Proof.
  intros a base.
  destruct (proj2 (build_stops_at_first_failure
                     (H := Sample.machine Sample.debug_fails)
                     Sample.two_by_two Sample.idle) eq_refl eq_refl)
    as [_ Hfails].
  apply (Hfails () 3%Z ()); [reflexivity|by_evaluation|discriminate].
Defined.



Example two_by_two_built :
  let run := main (H := Sample.machine Sample.all_pass) Sample.two_by_two
               Sample.idle in
  run.1 = Ok 0%Z ∧
  made (log run.2) =
    [["work"; "engine"; "build"; "A"; "Debug"];
     ["work"; "engine"; "build"; "A"; "Release"];
     ["work"; "engine"; "build"; "B"; "Debug"];
     ["work"; "engine"; "build"; "B"; "Release"]].
Proof. cbn zeta. split_and!; by_evaluation. Qed.

Example two_by_two_commands :
  let run := main (H := Sample.machine Sample.all_pass) Sample.two_by_two
               Sample.idle in
  let configure := λ dir build_type preset,
    ["cmake"; "-G"; "Ninja"; "-S"; "/work/engine"; "-B"; dir;
     "-DCMAKE_BUILD_TYPE=" +:+ build_type; "-DARIEO_PRESET=" +:+ preset] in
  let build := λ dir,
    ["cmake"; "--build"; dir; "--target"; "core"; "render"] in
  commands (log run.2) =
    [configure "/work/engine/build/A/Debug" "Debug" "A";
     build "/work/engine/build/A/Debug";
     configure "/work/engine/build/A/Release" "Release" "A";
     build "/work/engine/build/A/Release";
     configure "/work/engine/build/B/Debug" "Debug" "B";
     build "/work/engine/build/B/Debug";
     configure "/work/engine/build/B/Release" "Release" "B";
     build "/work/engine/build/B/Release"].
Proof. cbn zeta. by_evaluation. Qed.

Example two_by_two_first_configure_fails :
  let run := main (H := Sample.machine Sample.debug_fails) Sample.two_by_two
               Sample.idle in
  run.1 = Ok 3%Z ∧
  made (log run.2) = [["work"; "engine"; "build"; "A"; "Debug"]] ∧
  returncodes (log run.2) = [3%Z].
Proof. cbn zeta. split_and!; by_evaluation. Qed.

(** ** More about the build driver *)

Section DriverMore.
Context {Ext : Type} `{Machine Ext}.

Lemma NoDup_list_prod {A B : Type} (xs : list A) (ys : list B) :
  NoDup xs → NoDup ys → NoDup (list_prod xs ys).
Proof.
  intros Hxs Hys. induction Hxs as [|x xs Hx Hxs IH]; cbn; [constructor|].
  apply NoDup_app. split_and!; [|intros [x' y]|done].
  - apply (NoDup_fmap_2 (pair x)); first [done|by intros ?? [= ->]].
  - rewrite !list_elem_of_In. intros (y' & [= <- <-] & _)%in_map_iff.
    intros [Hin _]%in_prod_iff. apply Hx. by apply list_elem_of_In.
Qed.

Lemma plain_build_dir_of (base : path) preset build_type :
  plain_name preset → plain_name build_type →
  build_dir_of base preset build_type = base ++ [preset; build_type].
Proof.
  intros Hpreset Htype. unfold build_dir_of.
  rewrite !div_plain by done. by rewrite <- app_assoc.
Qed.

(** X19.  When the presets and the build types are single path
    segments and none is given twice, a successful run makes one
    directory per pair, [base/preset/build_type], and no two of them
    are the same. *)
Theorem build_dirs_are_distinct (a : args) (w w' : world Ext)
    (Hpresets : Forall plain_name (presets_of a))
    (Htypes : Forall plain_name (build_types_of a))
    (Hdistinct : NoDup (presets_of a))
    (Hdistinct' : NoDup (build_types_of a))
    (Hrun : main a w = (Ok 0%Z, w')) :
  ∃ l,
    log w' = log w ++ l ∧
    made l =
      map (λ pair : string * string,
             base_build_dir_of a ++ [pair.1; pair.2])
        (list_prod (presets_of a) (build_types_of a)) ∧
    NoDup (made l).
Proof.
  pose proof (main_cases a w) as Hcases. cbn zeta in Hcases.
  rewrite Hrun in Hcases. rewrite decide_True in Hcases by done.
  eexists. split; [done|].
  rewrite made_app, made_built. cbn [made omap]. rewrite app_nil_r.
  assert (Hdirs :
    map (λ pair : string * string,
           build_dir_of (base_build_dir_of a) pair.1 pair.2)
      (list_prod (presets_of a) (build_types_of a)) =
    map (λ pair : string * string, base_build_dir_of a ++ [pair.1; pair.2])
      (list_prod (presets_of a) (build_types_of a))).
  { apply map_ext_in. intros [preset build_type] [Hp Ht]%in_prod_iff.
    apply plain_build_dir_of.
    - by eapply List.Forall_forall in Hpresets.
    - by eapply List.Forall_forall in Htypes. }
  rewrite Hdirs. split; [done|].
  apply NoDup_fmap_2_strong; [|by apply NoDup_list_prod].
  intros [p b] [p' b'] _ _ Heq. apply app_inv_head in Heq. cbn in Heq.
  by injection Heq as -> ->.
Qed.

(** What the last line the driver prints tells. *)
Definition failure_line (l : line) : Prop :=
  match l with
  | ConfigureFailed _ _ | BuildFailed _ _ => True
  | _ => False
  end.

Lemma pair_built_lines a pairs l :
  Print l ∈ flat_map (pair_built a) pairs →
  l ≠ AllBuildsCompleted ∧ ¬ failure_line l.
Proof.
  intros Hin%list_elem_of_In%in_flat_map.
  destruct Hin as ([preset build_type] & _ & Hin). cbn in Hin.
  repeat destruct Hin as [Hin|Hin]; simplify_eq;
    try (cbn; split; [done|tauto]).
Qed.

Lemma pair_failed_lines a pair code failed l :
  pair_failed a pair code failed → Print l ∈ failed →
  l ≠ AllBuildsCompleted.
Proof.
  destruct pair as [preset build_type].
  intros [-> | ->] Hin%list_elem_of_In; cbn in Hin;
    repeat destruct Hin as [Hin|Hin]; simplify_eq; done.
Qed.

(** X20.  The driver prints the success banner exactly when it returns
    0, and a failure line exactly when it returns another code; that
    line is the last thing it does. *)
Theorem banner_tells_the_result (a : args) (w : world Ext) code w'
    (Hrun : main a w = (Ok code, w')) :
  ∃ l,
    log w' = log w ++ l ∧
    (Print AllBuildsCompleted ∈ l ↔ code = 0%Z) ∧
    ((∃ line, failure_line line ∧ Print line ∈ l) ↔ code ≠ 0%Z) ∧
    (code = 0%Z → last l = Some (Print AllBuildsCompleted)) ∧
    (code ≠ 0%Z → ∃ line, failure_line line ∧ last l = Some (Print line)).
Proof.
  pose proof (main_cases a w) as Hcases. cbn zeta in Hcases.
  rewrite Hrun in Hcases.
  destruct (decide (code = 0%Z)) as [->|Hcode].
  - eexists. split; [done|]. split_and!.
    + split; [done|]. intros _. apply elem_of_app. right.
      by apply list_elem_of_singleton.
    + split; [|done]. intros (line & Hline & Hin).
      apply elem_of_app in Hin as [Hin|Hin%list_elem_of_singleton].
      * apply pair_built_lines in Hin. by destruct Hin.
      * by simplify_eq.
    + intros _. by rewrite last_snoc.
    + done.
  - destruct Hcases as (before & pair & after & failed & _ & Hfailed & Hlog).
    eexists. split; [done|].
    assert (Hlast : ∃ line, failure_line line ∧
                            last failed = Some (Print line) ∧
                            Print line ∈ failed).
    { destruct pair as [preset build_type].
      destruct Hfailed as [-> | ->]; eexists; (split; [|split]);
        [|reflexivity| | |reflexivity|]; try done;
        rewrite !elem_of_cons; tauto. }
    destruct Hlast as (line & Hline & Hlast & Hin).
    split_and!.
    + split; [|done]. intros [Hbuilt|Hbad]%elem_of_app.
      * apply pair_built_lines in Hbuilt. by destruct Hbuilt.
      * by destruct (pair_failed_lines _ _ _ _ _ Hfailed Hbad).
    + split; [done|]. intros _. exists line. split; [done|].
      apply elem_of_app. by right.
    + done.
    + intros _. exists line. split; [done|].
      destruct failed as [|ef failed]; [done|].
      by rewrite last_app_cons.
Qed.

End DriverMore.


Lemma build_dirs_are_distinct_witness :
  let a := Sample.two_by_two in
  let w' := (main (H := Sample.machine Sample.all_pass) a Sample.idle).2 in
  ∃ l,
    log w' = log Sample.idle ++ l ∧
    made l =
      map (λ pair : string * string,
             base_build_dir_of (H := Sample.machine Sample.all_pass) a
             ++ [pair.1; pair.2])
        (list_prod (presets_of a) (build_types_of a)) ∧
    NoDup (made l).
Proof.
  intros a w'.
  assert (Hplain : ∀ name, name ∈ ["A"; "B"; "Debug"; "Release"] →
                           plain_name name).
  { intros name Hname. apply list_elem_of_In in Hname.
    destruct Hname as [<- |[<- |[<- |[<- |[]]]]];
      (split_and!; [reflexivity|reflexivity|discriminate]). }
  apply (build_dirs_are_distinct (H := Sample.machine Sample.all_pass)
           Sample.two_by_two Sample.idle w').
  - repeat constructor; apply Hplain; rewrite !elem_of_cons; tauto.
  - repeat constructor; apply Hplain; rewrite !elem_of_cons; tauto.
  - repeat constructor; rewrite ?elem_of_cons, ?elem_of_nil;
      intuition discriminate.
  - repeat constructor; rewrite ?elem_of_cons, ?elem_of_nil;
      intuition discriminate.
  - by_run.
Defined.

Lemma banner_tells_the_result_witness :
  let a := Sample.two_by_two in
  let w' := (main (H := Sample.machine Sample.debug_fails) a Sample.idle).2 in
  ∃ l,
    log w' = log Sample.idle ++ l ∧
    (Print AllBuildsCompleted ∈ l ↔ 3%Z = 0%Z) ∧
    ((∃ line, failure_line line ∧ Print line ∈ l) ↔ 3%Z ≠ 0%Z) ∧
    (3%Z = 0%Z → last l = Some (Print AllBuildsCompleted)) ∧
    (3%Z ≠ 0%Z → ∃ line, failure_line line ∧ last l = Some (Print line)).
Proof.
  intros a w'.
  apply (banner_tells_the_result (H := Sample.machine Sample.debug_fails)
           Sample.two_by_two Sample.idle 3%Z w').
  by_run.
Defined.

(** ** The name shown for a [git] entry *)

(** C6.  The code cuts the URL at its first [@] and removes every
    [.git], so the name it shows is not always the one the description
    gives (cut a trailing [@ref], take the last path segment, cut a
    trailing [.git]): the two differ on a repository called
    [acme.github.io] and on an ssh URL, and agree on a plain https URL
    with a ref. *)
Theorem repo_name_of_mangles :
  repo_name_of "https://github.com/acme/acme.github.io.git" = "acmehub.io" ∧
  repo_name_as_described "https://github.com/acme/acme.github.io.git"
    = "acme.github.io" ∧
  repo_name_of "git@github.com:acme/core.git@v1.2" = "git" ∧
  repo_name_as_described "git@github.com:acme/core.git@v1.2" = "core" ∧
  repo_name_of "https://example.org/acme/core.git@v1.2" = "core" ∧
  repo_name_as_described "https://example.org/acme/core.git@v1.2" = "core".
Proof. cbn zeta. split_and!; by_evaluation. Qed.
